(** * The InfluxQL select-statement compiler and planner (query/compile.go)

    A shallow embedding of [vendor/github.com/influxdata/influxdb/query/compile.go]
    and the properties of the compiler that its specification states.

    Go values are embedded as follows.
    - [int], [int64] and [time.Duration] are integers [Z]; where the source does
      arithmetic that can leave the 64-bit range the wrap-around is written out
      with [wrap64].
    - [time.Time] is the instant it denotes, counted in nanoseconds from the zero
      Time (January 1 of year 1, UTC).
    - A method with a pointer receiver that returns [error] is a function from
      the receiver's state to an [outcome] carrying the new state.
    - [errors.New] and [fmt.Errorf] values keep their message or their format
      string and arguments unformatted. *)

From Stdlib Require Import ZArith List String Ascii Bool Lia.
Import ListNotations.

#[local] Open Scope string_scope.
#[local] Open Scope list_scope.
#[local] Open Scope Z_scope.

(** ** Machine integers *)

(** The value an [int64] holds after an operation whose exact result is [z]. *)
Definition wrap64 (z : Z) : Z := (z + 2 ^ 63) mod 2 ^ 64 - 2 ^ 63.

Definition math_MinInt64 : Z := - 2 ^ 63.
Definition math_MaxInt64 : Z := 2 ^ 63 - 1.

Definition in_int64 (z : Z) : Prop := math_MinInt64 <= z <= math_MaxInt64.

(** ** Package time *)

Definition time_Time : Type := Z.
Definition time_Duration : Type := Z.

(** Seconds from the zero Time to the Unix epoch, [unixToInternal] in package
    time: (1969*365 + 1969/4 - 1969/100 + 1969/400) days. *)
Definition unixToInternal : Z := (1969 * 365 + 1969 / 4 - 1969 / 100 + 1969 / 400) * 86400.

Definition time_Unix (sec nsec : Z) : time_Time :=
  (sec + unixToInternal) * 1000000000 + nsec.

Definition time_IsZero (t : time_Time) : bool := t =? 0.

Definition time_UnixNano (t : time_Time) : Z :=
  wrap64 (t - unixToInternal * 1000000000).

Definition time_After (t u : time_Time) : bool := u <? t.
Definition time_Before (t u : time_Time) : bool := t <? u.

(** [Truncate] rounds down to a multiple of [d] since the zero Time and leaves
    [t] as it is when [d <= 0]. *)
Definition time_Truncate (t : time_Time) (d : time_Duration) : time_Time :=
  if d <=? 0 then t else t - t mod d.

(** [Sub] saturates at the smallest and largest Duration. *)
Definition time_Sub (t u : time_Time) : time_Duration :=
  if t - u <? math_MinInt64 then math_MinInt64
  else if math_MaxInt64 <? t - u then math_MaxInt64
  else t - u.

(** ** Packages unicode/utf8, unicode and strings *)

Definition utf8_RuneError : Z := 65533.
Definition utf8_RuneSelf : Z := 128.
Definition unicode_MaxRune : Z := 1114111.
Definition unicode_MaxASCII : Z := 127.

Definition byteOf (a : ascii) : Z := Z.of_nat (nat_of_ascii a).
Definition asciiOf (b : Z) : ascii := ascii_of_nat (Z.to_nat b).

(** The number of bytes that the first byte of an encoded rune announces,
    zero for a byte that starts none, and the range its second byte must lie
    in (the tables [first] and [acceptRanges] of the package). *)
Definition utf8_size (b0 : Z) : Z :=
  if b0 <? 128 then 1
  else if b0 <? 194 then 0
  else if b0 <? 224 then 2
  else if b0 <? 240 then 3
  else if b0 <? 245 then 4
  else 0.

Definition utf8_accept (b0 : Z) : Z * Z :=
  if b0 =? 224 then (160, 191)
  else if b0 =? 237 then (128, 159)
  else if b0 =? 240 then (144, 191)
  else if b0 =? 244 then (128, 143)
  else (128, 191).

Definition utf8_continues (b : Z) : bool := (128 <=? b) && (b <=? 191).

(** The runes that a [range] loop over a string yields, each by
    [utf8.DecodeRuneInString] on what is left: a byte that starts no valid
    encoding yields [RuneError] and is passed over alone. *)
Fixpoint utf8_runes (s : string) : list Z :=
  match s with
  | EmptyString => []
  | String a0 s1 =>
      let b0 := byteOf a0 in
      let invalid := utf8_RuneError :: utf8_runes s1 in
      if b0 <? utf8_RuneSelf then b0 :: utf8_runes s1
      else
        match s1 with
        | EmptyString => invalid
        | String a1 s2 =>
            let b1 := byteOf a1 in
            if (utf8_size b0 =? 0) || (b1 <? fst (utf8_accept b0)) || (snd (utf8_accept b0) <? b1)
            then invalid
            else if utf8_size b0 =? 2
            then Z.lor (Z.shiftl (Z.land b0 31) 6) (Z.land b1 63) :: utf8_runes s2
            else
              match s2 with
              | EmptyString => invalid
              | String a2 s3 =>
                  let b2 := byteOf a2 in
                  if negb (utf8_continues b2) then invalid
                  else if utf8_size b0 =? 3
                  then Z.lor (Z.lor (Z.shiftl (Z.land b0 15) 12) (Z.shiftl (Z.land b1 63) 6))
                             (Z.land b2 63) :: utf8_runes s3
                  else
                    match s3 with
                    | EmptyString => invalid
                    | String a3 s4 =>
                        let b3 := byteOf a3 in
                        if negb (utf8_continues b3) then invalid
                        else Z.lor (Z.lor (Z.lor (Z.shiftl (Z.land b0 7) 18)
                                                 (Z.shiftl (Z.land b1 63) 12))
                                          (Z.shiftl (Z.land b2 63) 6))
                                   (Z.land b3 63) :: utf8_runes s4
                    end
              end
        end
  end.

Definition utf8_threeBytes (r : Z) : string :=
  String (asciiOf (Z.lor 224 (Z.shiftr r 12)))
    (String (asciiOf (Z.lor 128 (Z.land (Z.shiftr r 6) 63)))
       (String (asciiOf (Z.lor 128 (Z.land r 63))) EmptyString)).

(** [utf8.EncodeRune]: a surrogate and a value that is no rune are encoded as
    [RuneError]. *)
Definition utf8_EncodeRune (r : Z) : string :=
  if (0 <=? r) && (r <=? 127) then String (asciiOf r) EmptyString
  else if (0 <=? r) && (r <=? 2047)
  then String (asciiOf (Z.lor 192 (Z.shiftr r 6)))
         (String (asciiOf (Z.lor 128 (Z.land r 63))) EmptyString)
  else if (r <? 0) || (unicode_MaxRune <? r) || ((55296 <=? r) && (r <=? 57343))
  then utf8_threeBytes utf8_RuneError
  else if r <=? 65535 then utf8_threeBytes r
  else String (asciiOf (Z.lor 240 (Z.shiftr r 18)))
         (String (asciiOf (Z.lor 128 (Z.land (Z.shiftr r 12) 63)))
            (String (asciiOf (Z.lor 128 (Z.land (Z.shiftr r 6) 63)))
               (String (asciiOf (Z.lor 128 (Z.land r 63))) EmptyString))).

(** The delta that stands for a range of alternating upper and lower case. *)
Definition unicode_UpperLower : Z := unicode_MaxRune + 1.

(** The case table of package unicode is outside the sources. These are its
    ranges beyond ASCII that change in lower case, each with its first rune,
    its last rune and its delta to lower case, from the simple lower-case
    mappings of the Unicode Character Database (version 14.0). Two of them
    reach ASCII: U+0130 becomes i and U+212A becomes k. *)
Definition unicode_CaseRanges : list (Z * Z * Z) :=
  [(192, 214, 32); (216, 222, 32); (256, 303, unicode_UpperLower); (304, 304, (-199));
   (306, 311, unicode_UpperLower); (313, 328, unicode_UpperLower);
   (330, 375, unicode_UpperLower); (376, 376, (-121)); (377, 382, unicode_UpperLower);
   (385, 385, 210); (386, 389, unicode_UpperLower); (390, 390, 206);
   (391, 392, unicode_UpperLower); (393, 394, 205); (395, 396, unicode_UpperLower);
   (398, 398, 79); (399, 399, 202); (400, 400, 203); (401, 402, unicode_UpperLower);
   (403, 403, 205); (404, 404, 207); (406, 406, 211); (407, 407, 209);
   (408, 409, unicode_UpperLower); (412, 412, 211); (413, 413, 213); (415, 415, 214);
   (416, 421, unicode_UpperLower); (422, 422, 218); (423, 424, unicode_UpperLower);
   (425, 425, 218); (428, 429, unicode_UpperLower); (430, 430, 218);
   (431, 432, unicode_UpperLower); (433, 434, 217); (435, 438, unicode_UpperLower);
   (439, 439, 219); (440, 441, unicode_UpperLower); (444, 445, unicode_UpperLower);
   (452, 452, 2); (453, 454, unicode_UpperLower); (455, 455, 2); (456, 457, unicode_UpperLower);
   (458, 458, 2); (459, 476, unicode_UpperLower); (478, 495, unicode_UpperLower); (497, 497, 2);
   (498, 501, unicode_UpperLower); (502, 502, (-97)); (503, 503, (-56));
   (504, 543, unicode_UpperLower); (544, 544, (-130)); (546, 563, unicode_UpperLower);
   (570, 570, 10795); (571, 572, unicode_UpperLower); (573, 573, (-163)); (574, 574, 10792);
   (577, 578, unicode_UpperLower); (579, 579, (-195)); (580, 580, 69); (581, 581, 71);
   (582, 591, unicode_UpperLower); (880, 883, unicode_UpperLower);
   (886, 887, unicode_UpperLower); (895, 895, 116); (902, 902, 38); (904, 906, 37);
   (908, 908, 64); (910, 911, 63); (913, 929, 32); (931, 939, 32); (975, 975, 8);
   (984, 1007, unicode_UpperLower); (1012, 1012, (-60)); (1015, 1016, unicode_UpperLower);
   (1017, 1017, (-7)); (1018, 1019, unicode_UpperLower); (1021, 1023, (-130)); (1024, 1039, 80);
   (1040, 1071, 32); (1120, 1153, unicode_UpperLower); (1162, 1215, unicode_UpperLower);
   (1216, 1216, 15); (1217, 1230, unicode_UpperLower); (1232, 1327, unicode_UpperLower);
   (1329, 1366, 48); (4256, 4293, 7264); (4295, 4295, 7264); (4301, 4301, 7264);
   (5024, 5103, 38864); (5104, 5109, 8); (7312, 7354, (-3008)); (7357, 7359, (-3008));
   (7680, 7829, unicode_UpperLower); (7838, 7838, (-7615)); (7840, 7935, unicode_UpperLower);
   (7944, 7951, (-8)); (7960, 7965, (-8)); (7976, 7983, (-8)); (7992, 7999, (-8));
   (8008, 8013, (-8)); (8025, 8025, (-8)); (8027, 8027, (-8)); (8029, 8029, (-8));
   (8031, 8031, (-8)); (8040, 8047, (-8)); (8072, 8079, (-8)); (8088, 8095, (-8));
   (8104, 8111, (-8)); (8120, 8121, (-8)); (8122, 8123, (-74)); (8124, 8124, (-9));
   (8136, 8139, (-86)); (8140, 8140, (-9)); (8152, 8153, (-8)); (8154, 8155, (-100));
   (8168, 8169, (-8)); (8170, 8171, (-112)); (8172, 8172, (-7)); (8184, 8185, (-128));
   (8186, 8187, (-126)); (8188, 8188, (-9)); (8486, 8486, (-7517)); (8490, 8490, (-8383));
   (8491, 8491, (-8262)); (8498, 8498, 28); (8544, 8559, 16); (8579, 8580, unicode_UpperLower);
   (9398, 9423, 26); (11264, 11311, 48); (11360, 11361, unicode_UpperLower);
   (11362, 11362, (-10743)); (11363, 11363, (-3814)); (11364, 11364, (-10727));
   (11367, 11372, unicode_UpperLower); (11373, 11373, (-10780)); (11374, 11374, (-10749));
   (11375, 11375, (-10783)); (11376, 11376, (-10782)); (11378, 11379, unicode_UpperLower);
   (11381, 11382, unicode_UpperLower); (11390, 11391, (-10815));
   (11392, 11491, unicode_UpperLower); (11499, 11502, unicode_UpperLower);
   (11506, 11507, unicode_UpperLower); (42560, 42605, unicode_UpperLower);
   (42624, 42651, unicode_UpperLower); (42786, 42799, unicode_UpperLower);
   (42802, 42863, unicode_UpperLower); (42873, 42876, unicode_UpperLower);
   (42877, 42877, (-35332)); (42878, 42887, unicode_UpperLower);
   (42891, 42892, unicode_UpperLower); (42893, 42893, (-42280));
   (42896, 42899, unicode_UpperLower); (42902, 42921, unicode_UpperLower);
   (42922, 42922, (-42308)); (42923, 42923, (-42319)); (42924, 42924, (-42315));
   (42925, 42925, (-42305)); (42926, 42926, (-42308)); (42928, 42928, (-42258));
   (42929, 42929, (-42282)); (42930, 42930, (-42261)); (42931, 42931, 928);
   (42932, 42947, unicode_UpperLower); (42948, 42948, (-48)); (42949, 42949, (-42307));
   (42950, 42950, (-35384)); (42951, 42954, unicode_UpperLower);
   (42960, 42961, unicode_UpperLower); (42966, 42969, unicode_UpperLower);
   (42997, 42998, unicode_UpperLower); (65313, 65338, 32); (66560, 66599, 40);
   (66736, 66771, 40); (66928, 66938, 39); (66940, 66954, 39); (66956, 66962, 39);
   (66964, 66965, 39); (68736, 68786, 64); (71840, 71871, 32); (93760, 93791, 32);
   (125184, 125217, 34)].

(** [unicode.to] for lower case: the range that holds the rune gives the
    delta; in an alternating range the rune at an even place is upper case
    and the next one is its lower case. *)
Fixpoint unicode_to (r : Z) (caseRange : list (Z * Z * Z)) : Z :=
  match caseRange with
  | [] => r
  | (lo, hi, delta) :: rest =>
      if (lo <=? r) && (r <=? hi) then
        if unicode_MaxRune <? delta
        then lo + Z.lor (Z.ldiff (r - lo) 1) 1
        else r + delta
      else unicode_to r rest
  end.

Definition unicode_ToLower (r : Z) : Z :=
  if r <=? unicode_MaxASCII
  then if (65 <=? r) && (r <=? 90) then r + 32 else r
  else unicode_to r unicode_CaseRanges.

(** [strings.Map]: the runes of the string, each mapped and encoded again, a
    negative result dropped; the bytes that are no valid encoding come out as
    the encoding of [RuneError]. *)
Definition strings_Map (mapping : Z -> Z) (s : string) : string :=
  String.concat ""
    (map (fun c => let r := mapping c in if 0 <=? r then utf8_EncodeRune r else "")
       (utf8_runes s)).

Definition lower_ascii (a : ascii) : ascii :=
  let n := nat_of_ascii a in
  if (Nat.leb 65 n && Nat.leb n 90)%bool then ascii_of_nat (n + 32) else a.

Fixpoint isASCII (s : string) : bool :=
  match s with
  | EmptyString => true
  | String a rest => (byteOf a <? utf8_RuneSelf) && isASCII rest
  end.

Fixpoint lowerBytes (s : string) : string :=
  match s with
  | EmptyString => EmptyString
  | String a rest => String (lower_ascii a) (lowerBytes rest)
  end.

(** [strings.ToLower]: ASCII text is lowered byte by byte, and any other text
    rune by rune with [unicode.ToLower]. *)
Definition strings_ToLower (s : string) : string :=
  if isASCII s then lowerBytes s else strings_Map unicode_ToLower s.

Definition string_in (s : string) (l : list string) : bool :=
  existsb (String.eqb s) l.

(** ** Package models *)

Module models.

(** Modelled from the spec: the constants of models/time.go are outside the
    sources; they are the minimum and maximum representable timestamps, two
    above the smallest and one below the largest [int64]. *)
Definition MinNanoTime : Z := math_MinInt64 + 2.
Definition MaxNanoTime : Z := math_MaxInt64 - 1.

End models.

(** ** Package influxql: the syntax tree *)

Module influxql.

Definition MinTime : Z := models.MinNanoTime.
Definition MaxTime : Z := models.MaxNanoTime.

Inductive DataType := Unknown | Float | Integer | String_ | Boolean | Time_ | Duration_ | Tag | AnyField | Unsigned.

(** The expression kinds the compiler dispatches on. *)
#[warnings="-register-all"]
Inductive Expr :=
| BinaryExpr (Op : nat) (LHS RHS : Expr)
| BooleanLiteral (Val : bool)
| Call (Name : string) (Args : list Expr)
| Distinct (Val : string)
| DurationLiteral (Val : time_Duration)
| IntegerLiteral (Val : Z)
| UnsignedLiteral (Val : Z)
| NilLiteral
| NumberLiteral (bits : Z)
| ParenExpr (e : Expr)
| RegexLiteral (Val : string)
| ListLiteral (Vals : list string)
| StringLiteral (Val : string)
| TimeLiteral (Val : time_Time)
| VarRef (Val : string) (Type_ : DataType)
| Wildcard (Type_ : nat).

(** Modelled from the spec: the [Literal] interface is declared outside the
    sources; its members are the literal kinds of the syntax tree. *)
Definition isLiteral (e : Expr) : bool :=
  match e with
  | BooleanLiteral _ | DurationLiteral _ | IntegerLiteral _ | UnsignedLiteral _
  | NilLiteral | NumberLiteral _ | RegexLiteral _ | ListLiteral _
  | StringLiteral _ | TimeLiteral _ => true
  | _ => false
  end.

(** [Distinct.NewCall]: the call form of the DISTINCT syntax, and its
    argument list. *)
Definition NewCall_Args (val : string) : list Expr := [VarRef val Unknown].
Definition NewCall (val : string) : Expr := Call "distinct" (NewCall_Args val).

Record Field := { Expr_ : Expr; Alias : string }.

Record Dimension := { dim_Expr : Expr }.

Record SortField := { sort_Name : string; sort_Ascending : bool }.

Inductive FillOption := NullFill | NoFill | NumberFill | PreviousFill | LinearFill.

Definition Location : Type := option string.

Record TimeRange := { Min : time_Time; Max : time_Time }.

Inductive SelectStatement :=
| mkSelectStatement
    (Fields : list Field)
    (Target : option string)
    (Dimensions : list Dimension)
    (Sources : list Source)
    (Condition : option Expr)
    (SortFields : list SortField)
    (Limit : Z)
    (Fill : FillOption)
    (Loc : Location)
    (IsRawQuery : bool)
    (TimeAlias : string)
with Source :=
| Measurement (Name : string)
| SubQuery (Statement : SelectStatement).

Definition Fields (s : SelectStatement) := let '(mkSelectStatement x _ _ _ _ _ _ _ _ _ _) := s in x.
Definition Target (s : SelectStatement) := let '(mkSelectStatement _ x _ _ _ _ _ _ _ _ _) := s in x.
Definition Dimensions (s : SelectStatement) := let '(mkSelectStatement _ _ x _ _ _ _ _ _ _ _) := s in x.
Definition Sources (s : SelectStatement) := let '(mkSelectStatement _ _ _ x _ _ _ _ _ _ _) := s in x.
Definition Condition (s : SelectStatement) := let '(mkSelectStatement _ _ _ _ x _ _ _ _ _ _) := s in x.
Definition SortFields (s : SelectStatement) := let '(mkSelectStatement _ _ _ _ _ x _ _ _ _ _) := s in x.
Definition Limit (s : SelectStatement) := let '(mkSelectStatement _ _ _ _ _ _ x _ _ _ _) := s in x.
Definition Fill (s : SelectStatement) := let '(mkSelectStatement _ _ _ _ _ _ _ x _ _ _) := s in x.
Definition Loc (s : SelectStatement) := let '(mkSelectStatement _ _ _ _ _ _ _ _ x _ _) := s in x.
Definition IsRawQuery (s : SelectStatement) := let '(mkSelectStatement _ _ _ _ _ _ _ _ _ x _) := s in x.
Definition TimeAlias (s : SelectStatement) := let '(mkSelectStatement _ _ _ _ _ _ _ _ _ _ x) := s in x.

Definition withSources (v : list Source) (s : SelectStatement) : SelectStatement :=
  let '(mkSelectStatement a1 a2 a3 _ a5 a6 a7 a8 a9 a10 a11) := s in
  mkSelectStatement a1 a2 a3 v a5 a6 a7 a8 a9 a10 a11.
Definition withCondition (v : option Expr) (s : SelectStatement) : SelectStatement :=
  let '(mkSelectStatement a1 a2 a3 a4 _ a6 a7 a8 a9 a10 a11) := s in
  mkSelectStatement a1 a2 a3 a4 v a6 a7 a8 a9 a10 a11.
Definition withTimeAlias (v : string) (s : SelectStatement) : SelectStatement :=
  let '(mkSelectStatement a1 a2 a3 a4 a5 a6 a7 a8 a9 a10 _) := s in
  mkSelectStatement a1 a2 a3 a4 a5 a6 a7 a8 a9 a10 v.

(** [TimeAscending]: ascending unless the first sort field says otherwise. *)
Definition TimeAscending (s : SelectStatement) : bool :=
  match SortFields s with
  | [] => true
  | f :: _ => sort_Ascending f
  end.

(** [TimeRange.MinTime] and [TimeRange.MaxTime]: the bounds of a range as
    timestamps, a zero bound standing for no bound. (The constants above have
    the methods' names.) *)
Definition MinTimeOf (t : TimeRange) : Z :=
  if time_IsZero (Min t) then MinTime else time_UnixNano (Min t).
Definition MaxTimeOf (t : TimeRange) : Z :=
  if time_IsZero (Max t) then MaxTime else time_UnixNano (Max t).

(** Modelled from the spec: [TimeRange.Intersect] is outside the sources. The
    receiver is clamped inside [other]: a bound of [other] replaces the
    receiver's when the receiver has none or a wider one, and a missing bound
    of [other] leaves the receiver's as it is. *)
Definition Intersect (t other : TimeRange) : TimeRange :=
  let lo :=
    if negb (time_IsZero (Min other)) && (time_IsZero (Min t) || time_After (Min other) (Min t))
    then Min other else Min t in
  let hi :=
    if negb (time_IsZero (Max other)) && (time_IsZero (Max t) || time_Before (Max other) (Max t))
    then Max other else Max t in
  {| Min := lo; Max := hi |}.

Record NowValuer := { Now_ : time_Time; Location_ : Location }.

End influxql.

(** ** Errors and outcomes *)

(** An argument of [fmt.Errorf], kept with the verb's reading of it. *)
Inductive fmtarg :=
| ArgInt (n : Z)
| ArgString (s : string)
| ArgExpr (e : influxql.Expr)
| ArgTypeOf (e : influxql.Expr)
| ArgFormatDuration (d : time_Duration).

Inductive error :=
| errors_New (msg : string)
| fmt_Errorf (format : string) (args : list fmtarg).

(** What a call does: return with no error, return an error, or panic. *)
Inductive outcome (A : Type) :=
| Ok (a : A)
| Err (e : error)
| Panic (msg : string).

Arguments Ok {A} a.
Arguments Err {A} e.
Arguments Panic {A} msg.

Definition bind {A B : Type} (m : outcome A) (k : A -> outcome B) : outcome B :=
  match m with
  | Ok a => k a
  | Err e => Err e
  | Panic msg => Panic msg
  end.

Notation "x <- m ;; k" := (bind m (fun x => k))
  (at level 61, m at next level, right associativity).

Definition is_Ok {A : Type} (m : outcome A) : bool :=
  match m with Ok _ => true | _ => false end.

Definition fails {A : Type} (m : outcome A) : Prop :=
  forall a, m <> Ok a.

(** ** Package query: intervals and the compiled statement *)

Module query.

(** [Interval] of query/iterator.go: a grouping duration and its offset. *)
Record Interval := { Duration : time_Duration; Offset : time_Duration }.

(** [Interval.IsZero]: the interval has no duration. *)
Definition IsZero (i : Interval) : bool := Duration i =? 0.

Definition zero : Interval := {| Duration := 0; Offset := 0 |}.

End query.

Record CompileOptions := { Now : time_Time }.

(** A selected field under compilation. The source's [global] pointer is the
    compiled statement that is threaded next to it, see [receiver]. *)
Record compiledField := {
  Field : influxql.Field;
  AllowWildcard : bool
}.

Record compiledStatement := {
  Condition : option influxql.Expr;
  TimeRange : influxql.TimeRange;
  Interval : query.Interval;
  InheritedInterval : bool;
  Ascending : bool;
  FunctionCalls : list influxql.Expr;
  OnlySelectors : bool;
  HasDistinct : bool;
  FillOption : influxql.FillOption;
  TopBottomFunction : string;
  HasAuxiliaryFields : bool;
  Fields : list compiledField;
  TimeFieldName : string;
  Limit : Z;
  HasTarget : bool;
  Options : CompileOptions;
  stmt : option influxql.SelectStatement
}.

(** Assignments to one attribute of the compiled statement. *)
Definition set_Condition (v : option influxql.Expr) (c : compiledStatement) : compiledStatement :=
  let '(Build_compiledStatement _ a2 a3 a4 a5 a6 a7 a8 a9 a10 a11 a12 a13 a14 a15 a16 a17) := c in
  Build_compiledStatement v a2 a3 a4 a5 a6 a7 a8 a9 a10 a11 a12 a13 a14 a15 a16 a17.
Definition set_TimeRange (v : influxql.TimeRange) (c : compiledStatement) : compiledStatement :=
  let '(Build_compiledStatement a1 _ a3 a4 a5 a6 a7 a8 a9 a10 a11 a12 a13 a14 a15 a16 a17) := c in
  Build_compiledStatement a1 v a3 a4 a5 a6 a7 a8 a9 a10 a11 a12 a13 a14 a15 a16 a17.
Definition set_Interval (v : query.Interval) (c : compiledStatement) : compiledStatement :=
  let '(Build_compiledStatement a1 a2 _ a4 a5 a6 a7 a8 a9 a10 a11 a12 a13 a14 a15 a16 a17) := c in
  Build_compiledStatement a1 a2 v a4 a5 a6 a7 a8 a9 a10 a11 a12 a13 a14 a15 a16 a17.
Definition set_InheritedInterval (v : bool) (c : compiledStatement) : compiledStatement :=
  let '(Build_compiledStatement a1 a2 a3 _ a5 a6 a7 a8 a9 a10 a11 a12 a13 a14 a15 a16 a17) := c in
  Build_compiledStatement a1 a2 a3 v a5 a6 a7 a8 a9 a10 a11 a12 a13 a14 a15 a16 a17.
Definition set_Ascending (v : bool) (c : compiledStatement) : compiledStatement :=
  let '(Build_compiledStatement a1 a2 a3 a4 _ a6 a7 a8 a9 a10 a11 a12 a13 a14 a15 a16 a17) := c in
  Build_compiledStatement a1 a2 a3 a4 v a6 a7 a8 a9 a10 a11 a12 a13 a14 a15 a16 a17.
Definition set_FunctionCalls (v : list influxql.Expr) (c : compiledStatement) : compiledStatement :=
  let '(Build_compiledStatement a1 a2 a3 a4 a5 _ a7 a8 a9 a10 a11 a12 a13 a14 a15 a16 a17) := c in
  Build_compiledStatement a1 a2 a3 a4 a5 v a7 a8 a9 a10 a11 a12 a13 a14 a15 a16 a17.
Definition set_OnlySelectors (v : bool) (c : compiledStatement) : compiledStatement :=
  let '(Build_compiledStatement a1 a2 a3 a4 a5 a6 _ a8 a9 a10 a11 a12 a13 a14 a15 a16 a17) := c in
  Build_compiledStatement a1 a2 a3 a4 a5 a6 v a8 a9 a10 a11 a12 a13 a14 a15 a16 a17.
Definition set_HasDistinct (v : bool) (c : compiledStatement) : compiledStatement :=
  let '(Build_compiledStatement a1 a2 a3 a4 a5 a6 a7 _ a9 a10 a11 a12 a13 a14 a15 a16 a17) := c in
  Build_compiledStatement a1 a2 a3 a4 a5 a6 a7 v a9 a10 a11 a12 a13 a14 a15 a16 a17.
Definition set_FillOption (v : influxql.FillOption) (c : compiledStatement) : compiledStatement :=
  let '(Build_compiledStatement a1 a2 a3 a4 a5 a6 a7 a8 _ a10 a11 a12 a13 a14 a15 a16 a17) := c in
  Build_compiledStatement a1 a2 a3 a4 a5 a6 a7 a8 v a10 a11 a12 a13 a14 a15 a16 a17.
Definition set_TopBottomFunction (v : string) (c : compiledStatement) : compiledStatement :=
  let '(Build_compiledStatement a1 a2 a3 a4 a5 a6 a7 a8 a9 _ a11 a12 a13 a14 a15 a16 a17) := c in
  Build_compiledStatement a1 a2 a3 a4 a5 a6 a7 a8 a9 v a11 a12 a13 a14 a15 a16 a17.
Definition set_HasAuxiliaryFields (v : bool) (c : compiledStatement) : compiledStatement :=
  let '(Build_compiledStatement a1 a2 a3 a4 a5 a6 a7 a8 a9 a10 _ a12 a13 a14 a15 a16 a17) := c in
  Build_compiledStatement a1 a2 a3 a4 a5 a6 a7 a8 a9 a10 v a12 a13 a14 a15 a16 a17.
Definition set_Fields (v : list compiledField) (c : compiledStatement) : compiledStatement :=
  let '(Build_compiledStatement a1 a2 a3 a4 a5 a6 a7 a8 a9 a10 a11 _ a13 a14 a15 a16 a17) := c in
  Build_compiledStatement a1 a2 a3 a4 a5 a6 a7 a8 a9 a10 a11 v a13 a14 a15 a16 a17.
Definition set_TimeFieldName (v : string) (c : compiledStatement) : compiledStatement :=
  let '(Build_compiledStatement a1 a2 a3 a4 a5 a6 a7 a8 a9 a10 a11 a12 _ a14 a15 a16 a17) := c in
  Build_compiledStatement a1 a2 a3 a4 a5 a6 a7 a8 a9 a10 a11 a12 v a14 a15 a16 a17.
Definition set_Limit (v : Z) (c : compiledStatement) : compiledStatement :=
  let '(Build_compiledStatement a1 a2 a3 a4 a5 a6 a7 a8 a9 a10 a11 a12 a13 _ a15 a16 a17) := c in
  Build_compiledStatement a1 a2 a3 a4 a5 a6 a7 a8 a9 a10 a11 a12 a13 v a15 a16 a17.
Definition set_HasTarget (v : bool) (c : compiledStatement) : compiledStatement :=
  let '(Build_compiledStatement a1 a2 a3 a4 a5 a6 a7 a8 a9 a10 a11 a12 a13 a14 _ a16 a17) := c in
  Build_compiledStatement a1 a2 a3 a4 a5 a6 a7 a8 a9 a10 a11 a12 a13 a14 v a16 a17.
Definition set_stmt (v : option influxql.SelectStatement) (c : compiledStatement) : compiledStatement :=
  let '(Build_compiledStatement a1 a2 a3 a4 a5 a6 a7 a8 a9 a10 a11 a12 a13 a14 a15 a16 _) := c in
  Build_compiledStatement a1 a2 a3 a4 a5 a6 a7 a8 a9 a10 a11 a12 a13 a14 a15 a16 v.

(** The receiver of the field compiler's methods: the field under compilation
    and the statement its [global] pointer refers to. *)
Record receiver := {
  global : compiledStatement;
  this : compiledField
}.

Definition on_global (f : compiledStatement -> compiledStatement) (c : receiver) : receiver :=
  {| global := f (global c); this := this c |}.

Definition set_AllowWildcard (v : bool) (c : receiver) : receiver :=
  {| global := global c; this := {| Field := Field (this c); AllowWildcard := v |} |}.

Definition len {A : Type} (l : list A) : Z := Z.of_nat (List.length l).

(** ** The per-function validators *)

Definition compileSymbol (c : receiver) (name : string) (field : influxql.Expr) : outcome receiver :=
  match field with
  | influxql.VarRef _ _ => Ok c
  | influxql.Wildcard _ =>
      if negb (AllowWildcard (this c))
      then Err (fmt_Errorf "unsupported expression with wildcard: %s()" [ArgString name])
      else Ok (on_global (set_OnlySelectors false) c)
  | influxql.RegexLiteral _ =>
      if negb (AllowWildcard (this c))
      then Err (fmt_Errorf "unsupported expression with regex field: %s()" [ArgString name])
      else Ok (on_global (set_OnlySelectors false) c)
  | _ => Err (fmt_Errorf "expected field argument in %s()" [ArgString name])
  end.

Definition compileDistinct (c : receiver) (args : list influxql.Expr) : outcome receiver :=
  match args with
  | [] => Err (errors_New "distinct function requires at least one argument")
  | [arg0] =>
      match arg0 with
      | influxql.VarRef _ _ =>
          Ok (on_global (set_OnlySelectors false) (on_global (set_HasDistinct true) c))
      | _ => Err (errors_New "expected field argument in distinct()")
      end
  | _ => Err (errors_New "distinct function can only have one argument")
  end.

Definition compileFunction (c : receiver) (name : string) (args : list influxql.Expr) : outcome receiver :=
  c1 <- (if string_in name ["max"; "min"; "first"; "last"] then Ok c
         else if string_in name ["count"; "sum"; "mean"; "median"; "mode"; "stddev"; "spread"]
         then Ok (on_global (set_OnlySelectors false) c)
         else Err (fmt_Errorf "undefined function %s()" [ArgString name])) ;;
  match args with
  | [arg0] =>
      if String.eqb name "count" then
        match arg0 with
        | influxql.Call dname dargs =>
            if String.eqb dname "distinct" then compileDistinct c1 dargs
            else compileSymbol c1 name arg0
        | influxql.Distinct val => compileDistinct c1 (influxql.NewCall_Args val)
        | _ => compileSymbol c1 name arg0
        end
      else compileSymbol c1 name arg0
  | _ => Err (fmt_Errorf "invalid number of arguments for %s, expected %d, got %d"
                [ArgString name; ArgInt 1; ArgInt (len args)])
  end.

Definition compilePercentile (c : receiver) (args : list influxql.Expr) : outcome receiver :=
  match args with
  | [arg0; arg1] =>
      match arg1 with
      | influxql.IntegerLiteral _ | influxql.NumberLiteral _ => compileSymbol c "percentile" arg0
      | _ => Err (fmt_Errorf "expected float argument in percentile()" [])
      end
  | _ => Err (fmt_Errorf "invalid number of arguments for percentile, expected %d, got %d"
                [ArgInt 2; ArgInt (len args)])
  end.

Definition compileSample (c : receiver) (args : list influxql.Expr) : outcome receiver :=
  match args with
  | [arg0; arg1] =>
      match arg1 with
      | influxql.IntegerLiteral val =>
          if val <=? 0
          then Err (fmt_Errorf "sample window must be greater than 1, got %d" [ArgInt val])
          else compileSymbol c "sample" arg0
      | _ => Err (fmt_Errorf "expected integer argument in sample()" [])
      end
  | _ => Err (fmt_Errorf "invalid number of arguments for sample, expected %d, got %d"
                [ArgInt 2; ArgInt (len args)])
  end.

Definition compileIntegral (c : receiver) (args : list influxql.Expr) : outcome receiver :=
  if (2 <? len args) || (len args <? 1)
  then Err (fmt_Errorf "invalid number of arguments for integral, expected at least %d but no more than %d, got %d"
              [ArgInt 1; ArgInt 2; ArgInt (len args)])
  else
    _ <- match args with
         | [_; arg1] =>
             match arg1 with
             | influxql.DurationLiteral val =>
                 if val <=? 0
                 then Err (fmt_Errorf "duration argument must be positive, got %s" [ArgFormatDuration val])
                 else Ok tt
             | _ => Err (errors_New "second argument must be a duration")
             end
         | _ => Ok tt
         end ;;
    compileSymbol (on_global (set_OnlySelectors false) c) "integral" (hd influxql.NilLiteral args).

(** The validators that accept a nested call as first argument recurse into
    the expression compiler, which they take as [compileExpr]. *)
Section NestedCalls.

Variable compileExpr : receiver -> influxql.Expr -> outcome receiver.

(** The switch on the first argument that these validators have in common: a
    nested call needs a grouping interval, a symbol needs there to be none.
    Each validator brings its own two errors. *)
Definition callOrSymbol (c : receiver) (name : string) (noInterval noAggregate : error)
    (arg0 : influxql.Expr) : outcome receiver :=
  match arg0 with
  | influxql.Call _ _ =>
      if query.IsZero (Interval (global c))
      then Err noInterval
      else compileExpr c arg0
  | _ =>
      if negb (query.IsZero (Interval (global c)))
      then Err noAggregate
      else compileSymbol c name arg0
  end.

(** The optional second argument of derivative() and elapsed(): a positive
    duration literal. *)
Definition durationArg (notDuration : error) (arg1 : influxql.Expr) : outcome unit :=
  match arg1 with
  | influxql.DurationLiteral val =>
      if val <=? 0
      then Err (fmt_Errorf "duration argument must be positive, got %s" [ArgFormatDuration val])
      else Ok tt
  | _ => Err notDuration
  end.

Definition compileDerivative (c : receiver) (args : list influxql.Expr) (isNonNegative : bool) : outcome receiver :=
  let name := if isNonNegative then "non_negative_derivative" else "derivative" in
  let first :=
    callOrSymbol (on_global (set_OnlySelectors false) c) name
      (fmt_Errorf "%s aggregate requires a GROUP BY interval" [ArgString name])
      (fmt_Errorf "aggregate function required inside the call to %s" [ArgString name]) in
  match args with
  | [arg0] => first arg0
  | [arg0; arg1] =>
      _ <- durationArg (fmt_Errorf "second argument to %s must be a duration, got %T"
                          [ArgString name; ArgTypeOf arg1]) arg1 ;;
      first arg0
  | _ => Err (fmt_Errorf "invalid number of arguments for %s, expected at least %d but no more than %d, got %d"
                [ArgString name; ArgInt 1; ArgInt 2; ArgInt (len args)])
  end.

Definition compileElapsed (c : receiver) (args : list influxql.Expr) : outcome receiver :=
  let first :=
    callOrSymbol (on_global (set_OnlySelectors false) c) "elapsed"
      (fmt_Errorf "elapsed aggregate requires a GROUP BY interval" [])
      (fmt_Errorf "aggregate function required inside the call to elapsed" []) in
  match args with
  | [arg0] => first arg0
  | [arg0; arg1] =>
      _ <- durationArg (fmt_Errorf "second argument to elapsed must be a duration, got %T"
                          [ArgTypeOf arg1]) arg1 ;;
      first arg0
  | _ => Err (fmt_Errorf "invalid number of arguments for elapsed, expected at least %d but no more than %d, got %d"
                [ArgInt 1; ArgInt 2; ArgInt (len args)])
  end.

Definition compileDifference (c : receiver) (args : list influxql.Expr) (isNonNegative : bool) : outcome receiver :=
  let name := if isNonNegative then "non_negative_difference" else "difference" in
  match args with
  | [arg0] =>
      callOrSymbol (on_global (set_OnlySelectors false) c) name
        (fmt_Errorf "%s aggregate requires a GROUP BY interval" [ArgString name])
        (fmt_Errorf "aggregate function required inside the call to %s" [ArgString name]) arg0
  | _ => Err (fmt_Errorf "invalid number of arguments for %s, expected 1, got %d"
                [ArgString name; ArgInt (len args)])
  end.

Definition compileCumulativeSum (c : receiver) (args : list influxql.Expr) : outcome receiver :=
  match args with
  | [arg0] =>
      callOrSymbol (on_global (set_OnlySelectors false) c) "cumulative_sum"
        (fmt_Errorf "cumulative_sum aggregate requires a GROUP BY interval" [])
        (fmt_Errorf "aggregate function required inside the call to cumulative_sum" []) arg0
  | _ => Err (fmt_Errorf "invalid number of arguments for cumulative_sum, expected 1, got %d"
                [ArgInt (len args)])
  end.

Definition compileMovingAverage (c : receiver) (args : list influxql.Expr) : outcome receiver :=
  match args with
  | [arg0; arg1] =>
      match arg1 with
      | influxql.IntegerLiteral val =>
          if val <=? 1
          then Err (fmt_Errorf "moving_average window must be greater than 1, got %d" [ArgInt val])
          else
            callOrSymbol (on_global (set_OnlySelectors false) c) "moving_average"
              (fmt_Errorf "moving_average aggregate requires a GROUP BY interval" [])
              (fmt_Errorf "aggregate function required inside the call to moving_average" []) arg0
      | _ => Err (fmt_Errorf "second argument for moving_average must be an integer, got %T" [ArgTypeOf arg1])
      end
  | _ => Err (fmt_Errorf "invalid number of arguments for moving_average, expected 2, got %d"
                [ArgInt (len args)])
  end.

Definition compileHoltWinters (c : receiver) (args : list influxql.Expr) (withFit : bool) : outcome receiver :=
  let name := if withFit then "holt_winters_with_fit" else "holt_winters" in
  match args with
  | [arg0; arg1; arg2] =>
      match arg1 with
      | influxql.IntegerLiteral n =>
          if n <=? 0
          then Err (fmt_Errorf "second arg to %s must be greater than 0, got %d" [ArgString name; ArgInt n])
          else
            match arg2 with
            | influxql.IntegerLiteral s =>
                if s <? 0
                then Err (fmt_Errorf "third arg to %s cannot be negative, got %d" [ArgString name; ArgInt s])
                else
                  let c1 := on_global (set_OnlySelectors false) c in
                  match arg0 with
                  | influxql.Call _ _ =>
                      if query.IsZero (Interval (global c1))
                      then Err (fmt_Errorf "%s aggregate requires a GROUP BY interval" [ArgString name])
                      else compileExpr c1 arg0
                  | _ => Err (fmt_Errorf "must use aggregate function with %s" [ArgString name])
                  end
            | _ => Err (fmt_Errorf "expected integer argument as third arg in %s" [ArgString name])
            end
      | _ => Err (fmt_Errorf "expected integer argument as second arg in %s" [ArgString name])
      end
  | _ => Err (fmt_Errorf "invalid number of arguments for %s, expected %d, got %d"
                [ArgString name; ArgInt 3; ArgInt (len args)])
  end.

End NestedCalls.

(** [compileExpr] on a bare variable reference: the field needs auxiliary
    fields. top() and bottom() compile their tag arguments through this case. *)
Definition compileVarRef (c : receiver) : receiver :=
  on_global (set_HasAuxiliaryFields true) c.

(** The loop of [compileTopBottom] over the arguments between the first and
    the last: each is a field or tag and, unless the statement writes into a
    target, becomes a compiled field of its own. *)
Fixpoint compileTopBottomTags (c : receiver) (name : string) (tags : list influxql.Expr) : outcome receiver :=
  match tags with
  | [] => Ok c
  | v :: rest =>
      match v with
      | influxql.VarRef _ _ =>
          if negb (HasTarget (global c)) then
            let field := {| Field := {| influxql.Expr_ := v; influxql.Alias := "" |};
                            AllowWildcard := false |} in
            let g := set_Fields (Fields (global c) ++ [field]) (global c) in
            let sub := compileVarRef {| global := g; this := field |} in
            compileTopBottomTags {| global := global sub; this := this c |} name rest
          else compileTopBottomTags c name rest
      | _ => Err (fmt_Errorf "only fields or tags are allowed in %s(), found %s" [ArgString name; ArgExpr v])
      end
  end.

Definition compileTopBottom (c : receiver) (name : string) (args : list influxql.Expr) : outcome receiver :=
  if negb (String.eqb (TopBottomFunction (global c)) "")
  then Err (fmt_Errorf "selector function %s() cannot be combined with other functions"
              [ArgString (TopBottomFunction (global c))])
  else if len args <? 2
  then Err (fmt_Errorf "invalid number of arguments for %s, expected at least %d, got %d"
              [ArgString name; ArgInt 2; ArgInt (len args)])
  else
    let lastArg := last args influxql.NilLiteral in
    match lastArg with
    | influxql.IntegerLiteral limit =>
        if limit <=? 0
        then Err (fmt_Errorf "limit (%d) in %s function must be at least 1" [ArgInt limit; ArgString name])
        else if (0 <? Limit (global c)) && (Limit (global c) <? limit)
        then Err (fmt_Errorf "limit (%d) in %s function can not be larger than the LIMIT (%d) in the select statement"
                    [ArgInt limit; ArgString name; ArgInt (Limit (global c))])
        else
          match hd influxql.NilLiteral args with
          | influxql.VarRef _ _ =>
              c1 <- (if 2 <? len args
                     then compileTopBottomTags c name (removelast (tl args))
                     else Ok c) ;;
              Ok (on_global (set_TopBottomFunction name) c1)
          | arg0 => Err (fmt_Errorf "expected first argument to be a field in %s(), found %s"
                           [ArgString name; ArgExpr arg0])
          end
    | _ => Err (fmt_Errorf "expected integer as last argument in %s(), found %s"
                  [ArgString name; ArgExpr lastArg])
    end.

(** ** The expression compiler *)

Fixpoint compileExpr (c : receiver) (expr : influxql.Expr) {struct expr} : outcome receiver :=
  match expr with
  | influxql.VarRef _ _ => Ok (compileVarRef c)
  | influxql.Wildcard _ =>
      let c1 := on_global (set_HasAuxiliaryFields true) c in
      if negb (AllowWildcard (this c1))
      then Err (errors_New "unable to use wildcard in a binary expression")
      else Ok c1
  | influxql.RegexLiteral _ =>
      if negb (AllowWildcard (this c))
      then Err (errors_New "unable to use regex in a binary expression")
      else Ok (on_global (set_HasAuxiliaryFields true) c)
  | influxql.Call name args =>
      let c1 := on_global (fun g => set_FunctionCalls (FunctionCalls g ++ [expr]) g) c in
      if String.eqb name "percentile" then compilePercentile c1 args
      else if String.eqb name "sample" then compileSample c1 args
      else if String.eqb name "distinct" then compileDistinct c1 args
      else if string_in name ["top"; "bottom"] then compileTopBottom c1 name args
      else if string_in name ["derivative"; "non_negative_derivative"]
      then compileDerivative compileExpr c1 args (String.eqb name "non_negative_derivative")
      else if string_in name ["difference"; "non_negative_difference"]
      then compileDifference compileExpr c1 args (String.eqb name "non_negative_difference")
      else if String.eqb name "cumulative_sum" then compileCumulativeSum compileExpr c1 args
      else if String.eqb name "moving_average" then compileMovingAverage compileExpr c1 args
      else if String.eqb name "elapsed" then compileElapsed compileExpr c1 args
      else if String.eqb name "integral" then compileIntegral c1 args
      else if string_in name ["holt_winters"; "holt_winters_with_fit"]
      then compileHoltWinters compileExpr c1 args (String.eqb name "holt_winters_with_fit")
      else compileFunction c1 name args
  | influxql.Distinct val =>
      let call := influxql.NewCall val in
      let c1 := on_global (fun g => set_FunctionCalls (FunctionCalls g ++ [call]) g) c in
      compileDistinct c1 (influxql.NewCall_Args val)
  | influxql.BinaryExpr _ lhs rhs =>
      let c1 := set_AllowWildcard false c in
      if influxql.isLiteral lhs then
        if influxql.isLiteral rhs
        then Err (errors_New "cannot perform a binary expression on two literals")
        else compileExpr c1 rhs
      else if influxql.isLiteral rhs then compileExpr c1 lhs
      else
        c2 <- compileExpr c1 lhs ;;
        compileExpr c2 rhs
  | influxql.ParenExpr e => compileExpr c e
  | _ => Err (errors_New "unimplemented")
  end.

(** ** Fields and their validation *)

(** The assignment [l[i] = x] through a pointer kept in the list. *)
Fixpoint set_nth {A : Type} (i : nat) (x : A) (l : list A) {struct l} : list A :=
  match l with
  | [] => []
  | y :: rest =>
      match i with
      | O => x :: rest
      | S j => y :: set_nth j x rest
      end
  end.

(** The test of [compileFields] for a selection of the time column. *)
Definition isTimeRef (e : influxql.Expr) : bool :=
  match e with
  | influxql.VarRef val _ => String.eqb val "time"
  | _ => false
  end.

(** One turn of the loop of [compileFields]. The compiled field is appended
    before its expression is compiled; the list holds a pointer to it, so what
    the compilation does to its wildcard flag shows in the list afterwards. *)
Definition compileField (c : compiledStatement) (f : influxql.Field) : outcome compiledStatement :=
  if isTimeRef (influxql.Expr_ f) then
    Ok (if negb (String.eqb (influxql.Alias f) "") then set_TimeFieldName (influxql.Alias f) c else c)
  else
    let field := {| Field := f; AllowWildcard := true |} in
    let i := List.length (Fields c) in
    r <- compileExpr {| global := set_Fields (Fields c ++ [field]) c; this := field |} (influxql.Expr_ f) ;;
    Ok (set_Fields (set_nth i (this r) (Fields (global r))) (global r)).

Fixpoint compileFieldList (c : compiledStatement) (fs : list influxql.Field) : outcome compiledStatement :=
  match fs with
  | [] => Ok c
  | f :: rest => c1 <- compileField c f ;; compileFieldList c1 rest
  end.

Definition compileFields (c : compiledStatement) (s : influxql.SelectStatement) : outcome compiledStatement :=
  compileFieldList (set_Fields [] c) (influxql.Fields s).

Definition validateFields (c : compiledStatement) : outcome unit :=
  if len (Fields c) =? 0
  then Err (errors_New "at least 1 non-time field must be queried")
  else
    _ <- (if (1 <? len (FunctionCalls c)) && negb (String.eqb (TopBottomFunction c) "")
          then Err (fmt_Errorf "selector function %s() cannot be combined with other functions"
                      [ArgString (TopBottomFunction c)])
          else if len (FunctionCalls c) =? 0 then
            match FillOption c with
            | influxql.NoFill => Err (errors_New "fill(none) must be used with a function")
            | influxql.LinearFill => Err (errors_New "fill(linear) must be used with a function")
            | _ =>
                if negb (query.IsZero (Interval c)) && negb (InheritedInterval c)
                then Err (errors_New "GROUP BY requires at least one aggregate function")
                else Ok tt
            end
          else Ok tt) ;;
    _ <- (if HasDistinct c && (negb (len (FunctionCalls c) =? 1) || HasAuxiliaryFields c)
          then Err (errors_New "aggregate function distinct() cannot be combined with other functions or fields")
          else Ok tt) ;;
    if HasAuxiliaryFields c then
      if negb (OnlySelectors c)
      then Err (fmt_Errorf "mixing aggregate and non-aggregate queries is not supported" [])
      else if 1 <? len (FunctionCalls c)
      then Err (fmt_Errorf "mixing multiple selector functions with tags or fields is not supported" [])
      else Ok tt
    else Ok tt.

(** ** What the compiler calls outside the sources *)

(** Functions of package influxql and the clock, which the compiler calls and
    the sources do not hold. [time_Now] is the reading of [time.Now().UTC()]. *)
Class Collaborators := {
  time_Now : time_Time;
  ConditionExpr : option influxql.Expr -> influxql.NowValuer ->
                  outcome (option influxql.Expr * influxql.TimeRange);
  Reduce : option influxql.Expr -> influxql.NowValuer -> option influxql.Expr;
  IsTimeLiteral : string -> bool;
  ToTimeLiteral : string -> influxql.Location -> outcome time_Time;
  RewriteDistinct : influxql.SelectStatement -> influxql.SelectStatement;
  RewriteTimeFields : influxql.SelectStatement -> influxql.SelectStatement;
  RewriteRegexConditions : influxql.SelectStatement -> influxql.SelectStatement
}.

Definition newCompiler `{Collaborators} (opt : CompileOptions) : compiledStatement :=
  let opt := if time_IsZero (Now opt) then {| Now := time_Now |} else opt in
  {| Condition := None;
     TimeRange := {| influxql.Min := 0; influxql.Max := 0 |};
     Interval := query.zero;
     InheritedInterval := false;
     Ascending := false;
     FunctionCalls := [];
     OnlySelectors := true;
     HasDistinct := false;
     FillOption := influxql.NullFill;
     TopBottomFunction := "";
     HasAuxiliaryFields := false;
     Fields := [];
     TimeFieldName := "time";
     Limit := 0;
     HasTarget := false;
     Options := opt;
     stmt := None |}.

(** ** Dimensions *)

Definition set_Duration (v : time_Duration) (c : compiledStatement) : compiledStatement :=
  set_Interval {| query.Duration := v; query.Offset := query.Offset (Interval c) |} c.
Definition set_Offset (v : time_Duration) (c : compiledStatement) : compiledStatement :=
  set_Interval {| query.Duration := query.Duration (Interval c); query.Offset := v |} c.

(** The second argument of time(): the offset of the grouping interval. The
    remainder by a zero duration is a run-time panic. *)
Definition compileOffset `{Collaborators} (c : compiledStatement) (s : influxql.SelectStatement)
    (arg1 : influxql.Expr) : outcome compiledStatement :=
  let d := query.Duration (Interval c) in
  match arg1 with
  | influxql.DurationLiteral val =>
      if d =? 0 then Panic "runtime error: integer divide by zero"
      else Ok (set_Offset (Z.rem val d) c)
  | influxql.TimeLiteral val => Ok (set_Offset (time_Sub val (time_Truncate val d)) c)
  | influxql.Call name args =>
      if negb (String.eqb name "now")
      then Err (errors_New "time dimension offset function must be now()")
      else if negb (len args =? 0)
      then Err (errors_New "time dimension offset now() function requires no arguments")
      else
        let now := Now (Options c) in
        Ok (set_Offset (time_Sub now (time_Truncate now d)) c)
  | influxql.StringLiteral val =>
      if IsTimeLiteral val then
        t <- ToTimeLiteral val (influxql.Loc s) ;;
        Ok (set_Offset (time_Sub t (time_Truncate t d)) c)
      else Err (errors_New "time dimension offset must be duration or now()")
  | _ => Err (errors_New "time dimension offset must be duration or now()")
  end.

(** One turn of the loop of [compileDimensions]. *)
Definition compileDimension `{Collaborators} (c : compiledStatement) (s : influxql.SelectStatement)
    (d : influxql.Dimension) : outcome compiledStatement :=
  match influxql.dim_Expr d with
  | influxql.VarRef val _ =>
      if String.eqb (strings_ToLower val) "time"
      then Err (errors_New "time() is a function and expects at least one argument")
      else Ok c
  | influxql.Call name args =>
      if negb (String.eqb name "time")
      then Err (errors_New "only time() calls allowed in dimensions")
      else if (len args <? 1) || (2 <? len args)
      then Err (errors_New "time dimension expected 1 or 2 arguments")
      else
        match hd influxql.NilLiteral args with
        | influxql.DurationLiteral val =>
            if negb (query.Duration (Interval c) =? 0)
            then Err (errors_New "multiple time dimensions not allowed")
            else
              let c1 := set_Duration val c in
              if len args =? 2
              then compileOffset c1 s (nth 1 args influxql.NilLiteral)
              else Ok c1
        | _ => Err (errors_New "time dimension must have duration argument")
        end
  | influxql.Wildcard _ | influxql.RegexLiteral _ => Ok c
  | _ => Err (errors_New "only time and tag dimensions allowed")
  end.

Fixpoint compileDimensionList `{Collaborators} (c : compiledStatement) (s : influxql.SelectStatement)
    (ds : list influxql.Dimension) : outcome compiledStatement :=
  match ds with
  | [] => Ok c
  | d :: rest => c1 <- compileDimension c s d ;; compileDimensionList c1 s rest
  end.

Definition compileDimensions `{Collaborators} (c : compiledStatement) (s : influxql.SelectStatement)
    : outcome compiledStatement :=
  compileDimensionList c s (influxql.Dimensions s).

(** ** Preprocessing, subqueries and compilation *)

Definition set_Min (v : time_Time) (c : compiledStatement) : compiledStatement :=
  set_TimeRange {| influxql.Min := v; influxql.Max := influxql.Max (TimeRange c) |} c.
Definition set_Max (v : time_Time) (c : compiledStatement) : compiledStatement :=
  set_TimeRange {| influxql.Min := influxql.Min (TimeRange c); influxql.Max := v |} c.

(** The last step of [preprocess]: a bound the condition did not give is
    resolved, now that the interval is known. *)
Definition resolveTimeRange (c : compiledStatement) : compiledStatement :=
  let c1 := if time_IsZero (influxql.Min (TimeRange c))
            then set_Min (time_Unix 0 influxql.MinTime) c else c in
  if time_IsZero (influxql.Max (TimeRange c1)) then
    if negb (query.IsZero (Interval c1))
    then set_Max (Now (Options c1)) c1
    else set_Max (time_Unix 0 influxql.MaxTime) c1
  else c1.

Definition preprocess `{Collaborators} (c : compiledStatement) (s : influxql.SelectStatement)
    : outcome compiledStatement :=
  let c := set_Ascending (influxql.TimeAscending s) c in
  let c := set_Limit (influxql.Limit s) c in
  let c := set_HasTarget (match influxql.Target s with Some _ => true | None => false end) c in
  let valuer := {| influxql.Now_ := Now (Options c); influxql.Location_ := influxql.Loc s |} in
  r <- ConditionExpr (influxql.Condition s) valuer ;;
  let c := set_TimeRange (snd r) (set_Condition (fst r) c) in
  c <- compileDimensions c s ;;
  let c := set_FillOption (influxql.Fill s) c in
  Ok (resolveTimeRange c).

(** The compiled statement of a subquery as [subquery] has it when it turns to
    the subquery's fields: preprocessed, ordered like the parent, its time
    range met with the parent's, its fill option and interval settled. *)
Definition subqueryContext `{Collaborators} (c : compiledStatement) (s : influxql.SelectStatement)
    : outcome compiledStatement :=
  subquery <- preprocess (newCompiler (Options c)) s ;;
  if negb (len (influxql.SortFields s) =? 0) && negb (Bool.eqb (Ascending subquery) (Ascending c))
  then Err (errors_New "subqueries must be ordered in the same direction as the query itself")
  else
    let subquery := set_Ascending (Ascending c) subquery in
    let subquery := set_TimeRange (influxql.Intersect (TimeRange subquery) (TimeRange c)) subquery in
    let subquery :=
      if negb (query.IsZero (Interval subquery)) &&
         (match FillOption subquery with influxql.NullFill => true | _ => false end)
      then set_FillOption influxql.NoFill subquery else subquery in
    let subquery :=
      if negb (query.IsZero (Interval c)) && query.IsZero (Interval subquery)
      then set_InheritedInterval true (set_Interval (Interval c) subquery) else subquery in
    Ok subquery.

(** [compile] returns the statement's compiled state; the state of a subquery
    is dropped once the subquery has compiled, as in the source. *)
Fixpoint compile `{Collaborators} (c : compiledStatement) (s : influxql.SelectStatement) {struct s}
    : outcome compiledStatement :=
  match s with
  | influxql.mkSelectStatement _ _ _ sources _ _ _ _ _ _ _ =>
      c1 <- compileFields c s ;;
      _ <- validateFields c1 ;;
      (fix each (l : list influxql.Source) : outcome compiledStatement :=
         match l with
         | [] => Ok c1
         | influxql.SubQuery sub :: rest =>
             subquery <- subqueryContext c1 sub ;;
             _ <- compile subquery sub ;;
             each rest
         | influxql.Measurement _ :: rest => each rest
         end) sources
  end.

(** [subquery]: the parent is [c]; the result is the subquery's own compiled
    state, of which the source returns the error only. *)
Definition subquery `{Collaborators} (c : compiledStatement) (s : influxql.SelectStatement)
    : outcome compiledStatement :=
  subquery <- subqueryContext c s ;;
  compile subquery s.

(** The loop of [compile] over the sources. *)
Fixpoint compileSources `{Collaborators} (c : compiledStatement) (l : list influxql.Source)
    : outcome compiledStatement :=
  match l with
  | [] => Ok c
  | influxql.SubQuery sub :: rest => _ <- subquery c sub ;; compileSources c rest
  | influxql.Measurement _ :: rest => compileSources c rest
  end.

(** [subquery] assigns the reduced condition to the subquery's statement; the
    statement that [Compile] clones afterwards holds these conditions. *)
Fixpoint reducedSubqueries `{Collaborators} (now : time_Time) (s : influxql.SelectStatement)
    {struct s} : influxql.SelectStatement :=
  match s with
  | influxql.mkSelectStatement _ _ _ sources _ _ _ _ _ _ _ =>
      influxql.withSources
        (map (fun src =>
                match src with
                | influxql.SubQuery sub =>
                    let valuer := {| influxql.Now_ := now; influxql.Location_ := influxql.Loc sub |} in
                    influxql.SubQuery
                      (influxql.withCondition (Reduce (influxql.Condition sub) valuer)
                         (reducedSubqueries now sub))
                | influxql.Measurement m => influxql.Measurement m
                end) sources) s
  end.

Definition Compile `{Collaborators} (s : influxql.SelectStatement) (opt : CompileOptions)
    : outcome compiledStatement :=
  let c := newCompiler opt in
  c <- preprocess c s ;;
  c <- compile c s ;;
  let clone := reducedSubqueries (Now (Options c)) s in
  let clone := influxql.withTimeAlias (TimeFieldName c) clone in
  let clone := influxql.withCondition (Condition c) clone in
  Ok (set_stmt (Some (RewriteRegexConditions (RewriteTimeFields (RewriteDistinct clone)))) c).

(** ** Planning *)

Record SelectOptions := { MaxBucketsN : Z }.

(** Modelled from the spec: [IteratorOptions] is declared outside the sources;
    the final iterator options hold the absolute start and end time, the
    direction and the grouping interval, and the statement's location. *)
Record IteratorOptions := {
  opt_Interval : query.Interval;
  opt_Location : influxql.Location;
  StartTime : Z;
  EndTime : Z;
  opt_Ascending : bool
}.

(** What the planner calls outside the sources: the shard set, the statement's
    methods and the iterator options with their window operation. *)
Class Planner := {
  ShardGroup : Type;
  RewriteFields : influxql.SelectStatement -> ShardGroup -> outcome influxql.SelectStatement;
  newIteratorOptionsStmt : influxql.SelectStatement -> SelectOptions -> outcome IteratorOptions;
  Window : IteratorOptions -> Z -> Z * Z;
  GroupByInterval : influxql.SelectStatement -> outcome time_Duration;
  GroupByOffset : influxql.SelectStatement -> outcome time_Duration;
  ColumnNames : influxql.SelectStatement -> list string
}.

(** The [ShardMapper] interface. *)
Record ShardMapper `{Planner} := {
  MapShards : list influxql.Source -> influxql.TimeRange -> SelectOptions -> outcome ShardGroup
}.

Record preparedStatement `{Planner} := {
  ps_stmt : influxql.SelectStatement;
  ps_opt : IteratorOptions;
  ps_ic : ShardGroup;
  ps_columns : list string
}.

(** What [Prepare] does to the shard mapper and the shard set, in order. *)
Inductive event `{Planner} :=
| MapShardsCalled (sources : list influxql.Source) (timeRange : influxql.TimeRange) (sopt : SelectOptions)
| ShardsClosed (shards : ShardGroup).

(** The first block of [Prepare]: the time range used for mapping shards. *)
Definition shardTimeRange `{Planner} (c : compiledStatement) (s : influxql.SelectStatement)
    (sopt : SelectOptions) : outcome influxql.TimeRange :=
  let timeRange := TimeRange c in
  if (0 <? MaxBucketsN sopt) && negb (influxql.IsRawQuery s) &&
     (influxql.MinTimeOf timeRange =? influxql.MinTime)
  then
    interval <- GroupByInterval s ;;
    offset <- GroupByOffset s ;;
    if 0 <? interval then
      let opt := {| opt_Interval := {| query.Duration := interval; query.Offset := offset |};
                    opt_Location := None; StartTime := 0; EndTime := 0; opt_Ascending := false |} in
      let last := fst (Window opt (wrap64 (influxql.MaxTimeOf (TimeRange c) - 1))) in
      let maxDiff := wrap64 (last - models.MinNanoTime) in
      if MaxBucketsN sopt <? Z.quot maxDiff interval
      then Ok {| influxql.Min := time_Unix 0 models.MinNanoTime; influxql.Max := influxql.Max timeRange |}
      else Ok {| influxql.Min := time_Unix 0 (wrap64 (last - wrap64 (interval * wrap64 (MaxBucketsN sopt - 1))));
                 influxql.Max := influxql.Max timeRange |}
    else Ok timeRange
  else Ok timeRange.

(** The number of buckets the last block of [Prepare] computes. *)
Definition bucketCount `{Planner} (opt : IteratorOptions) (interval : time_Duration) : Z :=
  let first := fst (Window opt (StartTime opt)) in
  let last := fst (Window opt (wrap64 (EndTime opt - 1))) in
  wrap64 (Z.quot (wrap64 (wrap64 (last - first) + interval)) interval).

(** The number of grouping windows from the one that starts at [first] to the
    one that starts at [last], counted without regard to the width of an
    integer. *)
Definition windowsBetween (first last : Z) (interval : time_Duration) : Z :=
  (last - first) / interval + 1.

Definition withTimes (c : compiledStatement) (opt : IteratorOptions) : IteratorOptions :=
  {| opt_Interval := opt_Interval opt;
     opt_Location := opt_Location opt;
     StartTime := influxql.MinTimeOf (TimeRange c);
     EndTime := influxql.MaxTimeOf (TimeRange c);
     opt_Ascending := Ascending c |}.

Definition Prepare `{Planner} (c : compiledStatement) (shardMapper : ShardMapper) (sopt : SelectOptions)
    : outcome preparedStatement * list event :=
  match stmt c with
  | None => (Panic "runtime error: invalid memory address or nil pointer dereference", [])
  | Some s =>
      match shardTimeRange c s sopt with
      | Err e => (Err e, [])
      | Panic msg => (Panic msg, [])
      | Ok timeRange =>
          let mapped := MapShardsCalled (influxql.Sources s) timeRange sopt in
          match MapShards shardMapper (influxql.Sources s) timeRange sopt with
          | Err e => (Err e, [mapped])
          | Panic msg => (Panic msg, [mapped])
          | Ok shards =>
              match RewriteFields s shards with
              | Err e => (Err e, [mapped; ShardsClosed shards])
              | Panic msg => (Panic msg, [mapped])
              | Ok s' =>
                  match newIteratorOptionsStmt s' sopt with
                  | Err e => (Err e, [mapped; ShardsClosed shards])
                  | Panic msg => (Panic msg, [mapped])
                  | Ok opt0 =>
                      let opt := withTimes c opt0 in
                      let prepared := {| ps_stmt := s'; ps_opt := opt; ps_ic := shards;
                                         ps_columns := ColumnNames s' |} in
                      if (0 <? MaxBucketsN sopt) && negb (influxql.IsRawQuery s') &&
                         (influxql.MinTime <? influxql.MinTimeOf (TimeRange c))
                      then
                        match GroupByInterval s' with
                        | Err e => (Err e, [mapped; ShardsClosed shards])
                        | Panic msg => (Panic msg, [mapped])
                        | Ok interval =>
                            if (0 <? interval) && (MaxBucketsN sopt <? bucketCount opt interval)
                            then (Err (fmt_Errorf "max-select-buckets limit exceeded: (%d/%d)"
                                         [ArgInt (bucketCount opt interval); ArgInt (MaxBucketsN sopt)]),
                                  [mapped; ShardsClosed shards])
                            else (Ok prepared, [mapped])
                        end
                      else (Ok prepared, [mapped])
                  end
              end
          end
      end
  end.

(** Modelled from the spec: [IteratorOptions.Window] is outside the sources. It
    maps a timestamp to the start and end of the grouping window that contains
    it; with no grouping interval the one window is all of time. *)
Definition windowOf (opt : IteratorOptions) (t : Z) : Z * Z :=
  let d := query.Duration (opt_Interval opt) in
  if d =? 0 then (models.MinNanoTime, models.MaxNanoTime)
  else
    let dt := (t - query.Offset (opt_Interval opt)) mod d in
    (t - dt, t - dt + d).

(** ** Instances for the examples *)

Definition minute : time_Duration := 60 * 1000000000.
Definition hour : time_Duration := 60 * minute.

(** 2018-01-01T00:00:00Z. *)
Definition newYear : time_Time := time_Unix 1514764800 0.

(** Collaborators for statements without a WHERE clause: the condition gives
    no time bound, and the rewrites find nothing to rewrite. *)
Definition plain : Collaborators :=
  {| time_Now := newYear;
     ConditionExpr := fun cond _ => Ok (cond, {| influxql.Min := 0; influxql.Max := 0 |});
     Reduce := fun cond _ => cond;
     IsTimeLiteral := fun _ => false;
     ToTimeLiteral := fun _ _ => Err (errors_New "invalid time literal");
     RewriteDistinct := fun s => s;
     RewriteTimeFields := fun s => s;
     RewriteRegexConditions := fun s => s |}.

(** Collaborators for statements whose condition is [time > now() - 1h]: the
    lower bound is the nanosecond after one hour before now, and no condition
    is left. *)
Definition lastHour : Collaborators :=
  {| time_Now := newYear;
     ConditionExpr := fun _ valuer =>
       Ok (None, {| influxql.Min := influxql.Now_ valuer - hour + 1; influxql.Max := 0 |});
     Reduce := fun cond _ => cond;
     IsTimeLiteral := fun _ => false;
     ToTimeLiteral := fun _ _ => Err (errors_New "invalid time literal");
     RewriteDistinct := fun s => s;
     RewriteTimeFields := fun s => s;
     RewriteRegexConditions := fun s => s |}.

Definition field (e : influxql.Expr) : influxql.Field :=
  {| influxql.Expr_ := e; influxql.Alias := "" |}.
Definition ref (name : string) : influxql.Expr := influxql.VarRef name influxql.Unknown.
Definition groupBy (e : influxql.Expr) : influxql.Dimension := {| influxql.dim_Expr := e |}.
Definition timeDimension (d : time_Duration) : influxql.Expr :=
  influxql.Call "time" [influxql.DurationLiteral d].

(** SELECT fields FROM sources GROUP BY dims LIMIT limit. *)
Definition select (fields dims : list influxql.Expr) (sources : list influxql.Source) (limit : Z)
    : influxql.SelectStatement :=
  influxql.mkSelectStatement (map field fields) None (map groupBy dims) sources
    None [] limit influxql.NullFill None false "".

Definition cpu : list influxql.Source := [influxql.Measurement "cpu"].

(** SELECT mean(value) FROM cpu GROUP BY time(10m), with or without a WHERE
    clause according to the collaborators. *)
Definition tenMinuteMeans : influxql.SelectStatement :=
  select [influxql.Call "mean" [ref "value"]] [timeDimension (10 * minute)] cpu 0.

(** Modelled from the spec: [SelectStatement.GroupByInterval] is outside the
    sources; the grouping interval of a statement is the duration of its
    time() dimension, and zero when it has none. *)
Fixpoint intervalOf (ds : list influxql.Dimension) : time_Duration :=
  match ds with
  | [] => 0
  | d :: rest =>
      match influxql.dim_Expr d with
      | influxql.Call name (influxql.DurationLiteral v :: _) =>
          if String.eqb name "time" then v else intervalOf rest
      | _ => intervalOf rest
      end
  end.

(** A planner over shard sets that are the mapped sources themselves, for
    statements without wildcards and without an interval offset. *)
Definition sourcesPlanner : Planner :=
  {| ShardGroup := list influxql.Source;
     RewriteFields := fun s _ => Ok s;
     newIteratorOptionsStmt := fun s _ =>
       Ok {| opt_Interval := {| query.Duration := intervalOf (influxql.Dimensions s); query.Offset := 0 |};
             opt_Location := influxql.Loc s; StartTime := 0; EndTime := 0; opt_Ascending := false |};
     Window := windowOf;
     GroupByInterval := fun s => Ok (intervalOf (influxql.Dimensions s));
     GroupByOffset := fun _ => Ok 0;
     ColumnNames := fun s => influxql.TimeAlias s :: map (fun _ => "mean") (influxql.Fields s) |}.

Definition sourcesMapper : @ShardMapper sourcesPlanner :=
  @Build_ShardMapper sourcesPlanner (fun sources _ _ => @Ok (list influxql.Source) sources).

(** Collaborators for statements whose condition is
    [time < '1969-01-01T00:00:00Z']: the upper bound is the nanosecond before
    that instant, and there is no lower bound. *)
Definition before1969 : Collaborators :=
  {| time_Now := newYear;
     ConditionExpr := fun _ _ =>
       Ok (None, {| influxql.Min := 0; influxql.Max := time_Unix (-31536000) 0 - 1 |});
     Reduce := fun cond _ => cond;
     IsTimeLiteral := fun _ => false;
     ToTimeLiteral := fun _ _ => Err (errors_New "invalid time literal");
     RewriteDistinct := fun s => s;
     RewriteTimeFields := fun s => s;
     RewriteRegexConditions := fun s => s |}.

(** SELECT mean(value) FROM cpu. *)
Definition means : influxql.SelectStatement :=
  select [influxql.Call "mean" [ref "value"]] [] cpu 0.

(** SELECT max(mean) FROM (sub) GROUP BY time(10m). *)
Definition maxOver (sub : influxql.SelectStatement) : influxql.SelectStatement :=
  select [influxql.Call "max" [ref "mean"]] [timeDimension (10 * minute)] [influxql.SubQuery sub] 0.

(** The state in which [compile] reaches the sources of a statement. *)
Definition parentState `{Collaborators} (s : influxql.SelectStatement) (opt : CompileOptions)
    : outcome compiledStatement :=
  c <- preprocess (newCompiler opt) s ;;
  c1 <- compileFields c s ;;
  _ <- validateFields c1 ;;
  Ok c1.

(** The state of a compilation that succeeded. *)
Definition stateOf (r : outcome compiledStatement) : compiledStatement :=
  match r with
  | Ok c => c
  | _ => @newCompiler plain {| Now := newYear |}
  end.

(** SELECT mean(value) FROM cpu WHERE time < '1969-01-01T00:00:00Z' GROUP BY
    time(10m), compiled. *)
Definition meansBefore1969 : compiledStatement :=
  Eval vm_compute in stateOf (@Compile before1969 tenMinuteMeans {| Now := newYear |}).

(** SELECT mean(value) FROM cpu GROUP BY time(10m), compiled at [newYear]. *)
Definition meansUntilNow : compiledStatement :=
  Eval vm_compute in stateOf (@Compile plain tenMinuteMeans {| Now := 0 |}).

(** SELECT mean(value) FROM cpu GROUP BY time(365d) and its compiled state. *)
Definition yearlyMeans : influxql.SelectStatement :=
  select [influxql.Call "mean" [ref "value"]] [timeDimension (365 * 24 * hour)] cpu 0.
Definition yearlyMeansUntilNow : compiledStatement :=
  Eval vm_compute in stateOf (@Compile plain yearlyMeans {| Now := 0 |}).

(** SELECT mean(value) FROM cpu WHERE time > now() - 1h GROUP BY time(10m),
    preprocessed and compiled. *)
Definition meansLastHourPreprocessed : compiledStatement :=
  Eval vm_compute in stateOf (@preprocess lastHour (@newCompiler lastHour {| Now := 0 |}) tenMinuteMeans).
Definition meansLastHour : compiledStatement :=
  Eval vm_compute in stateOf (@Compile lastHour tenMinuteMeans {| Now := 0 |}).

(** SELECT max(mean) FROM (...) GROUP BY time(10m) where its sources are
    reached, without a WHERE clause and with [time > now() - 1h]. *)
Definition outerPlain : compiledStatement :=
  Eval vm_compute in stateOf (@parentState plain (maxOver tenMinuteMeans) {| Now := 0 |}).
Definition outerLastHour : compiledStatement :=
  Eval vm_compute in stateOf (@parentState lastHour (maxOver means) {| Now := 0 |}).

(** The subqueries of these statements, compiled. *)
Definition innerTenMinuteMeans : compiledStatement :=
  Eval vm_compute in stateOf (@subquery plain outerPlain tenMinuteMeans).
Definition innerMeans : compiledStatement :=
  Eval vm_compute in stateOf (@subquery plain outerPlain means).
Definition innerMeansLastHour : compiledStatement :=
  Eval vm_compute in stateOf (@subquery lastHour outerLastHour means).

(** SELECT distinct(value) FROM cpu and its compiled fields. *)
Definition distinctValue : influxql.SelectStatement :=
  select [influxql.Call "distinct" [ref "value"]] [] cpu 0.
Definition distinctValueFields : compiledStatement :=
  Eval vm_compute in stateOf (compileFields (@newCompiler plain {| Now := 0 |}) distinctValue).

(** SELECT top(value, 3) FROM cpu LIMIT 2. *)
Definition topThree : influxql.SelectStatement :=
  select [influxql.Call "top" [ref "value"; influxql.IntegerLiteral 3]] [] cpu 2.

(** SELECT top(value, 3), max(value) FROM cpu and its compiled fields. *)
Definition topAndMax : influxql.SelectStatement :=
  select [influxql.Call "top" [ref "value"; influxql.IntegerLiteral 3];
          influxql.Call "max" [ref "value"]] [] cpu 0.
Definition topAndMaxFields : compiledStatement :=
  Eval vm_compute in stateOf (compileFields (@newCompiler plain {| Now := 0 |}) topAndMax).

(** The receiver of the one field of a statement that has just been
    preprocessed with no interval and with LIMIT [limit]. *)
Definition firstField (e : influxql.Expr) (limit : Z) : receiver :=
  {| global := set_Limit limit (@newCompiler plain {| Now := 0 |});
     this := {| Field := field e; AllowWildcard := true |} |}.

(** SELECT time FROM cpu. *)
Definition onlyTime : influxql.SelectStatement := select [ref "time"] [] cpu 0.




(** SELECT mean(value) FROM cpu WHERE time > now() - 1h GROUP BY time(-10m),
    compiled. *)
Definition negativeMeans : influxql.SelectStatement :=
  select [influxql.Call "mean" [ref "value"]] [timeDimension (- (10 * minute))] cpu 0.
Definition negativeMeansLastHour : compiledStatement :=
  Eval vm_compute in stateOf (@Compile lastHour negativeMeans {| Now := 0 |}).

(** ** The vocabulary of the properties *)

(** An expression without an expression below it. *)
Definition leafExpr (e : influxql.Expr) : Prop :=
  match e with
  | influxql.BinaryExpr _ _ _ | influxql.Call _ _ | influxql.ParenExpr _ => False
  | _ => True
  end.

(** The attributes of a statement that compiling a field expression does not
    assign, the two lists it only appends to, and the marks it only sets. *)
Record kept (g g' : compiledStatement) : Prop := {
  kept_Condition : Condition g' = Condition g;
  kept_TimeRange : TimeRange g' = TimeRange g;
  kept_Interval : Interval g' = Interval g;
  kept_InheritedInterval : InheritedInterval g' = InheritedInterval g;
  kept_Ascending : Ascending g' = Ascending g;
  kept_FillOption : FillOption g' = FillOption g;
  kept_TimeFieldName : TimeFieldName g' = TimeFieldName g;
  kept_Limit : Limit g' = Limit g;
  kept_HasTarget : HasTarget g' = HasTarget g;
  kept_Options : Options g' = Options g;
  kept_stmt : stmt g' = stmt g;
  kept_Fields : (List.length (Fields g) <= List.length (Fields g'))%nat;
  kept_FunctionCalls : (List.length (FunctionCalls g) <= List.length (FunctionCalls g'))%nat;
  kept_TopBottom : TopBottomFunction g <> "" -> TopBottomFunction g' <> "";
  kept_HasDistinct : HasDistinct g = true -> HasDistinct g' = true;
  kept_HasAuxiliaryFields : HasAuxiliaryFields g = true -> HasAuxiliaryFields g' = true
}.

(** A compiler of expressions that respects [kept] on the expression [e]. *)
Definition keepsContext (rec : receiver -> influxql.Expr -> outcome receiver)
    (e : influxql.Expr) : Prop :=
  forall c c', rec c e = Ok c' -> kept (global c) (global c').

(** The attributes of a statement that compiling its fields and sources does
    not assign. *)
Record sameContext (g g' : compiledStatement) : Prop := {
  same_Condition : Condition g' = Condition g;
  same_TimeRange : TimeRange g' = TimeRange g;
  same_Interval : Interval g' = Interval g;
  same_InheritedInterval : InheritedInterval g' = InheritedInterval g;
  same_Ascending : Ascending g' = Ascending g;
  same_FillOption : FillOption g' = FillOption g;
  same_Limit : Limit g' = Limit g;
  same_HasTarget : HasTarget g' = HasTarget g;
  same_Options : Options g' = Options g
}.

(** A statement whose sources are all measurements. *)
Definition noSubqueries (s : influxql.SelectStatement) : Prop :=
  forall src, In src (influxql.Sources s) -> exists m, src = influxql.Measurement m.

(** The ways a field can use distinct(): the call, the DISTINCT syntax, and
    either of them as the argument of count(). *)
Definition distinctForms (val : string) (ty : influxql.DataType) : list influxql.Expr :=
  [ influxql.Call "distinct" [influxql.VarRef val ty];
    influxql.Distinct val;
    influxql.Call "count" [influxql.Call "distinct" [influxql.VarRef val ty]];
    influxql.Call "count" [influxql.Distinct val] ].

(** The error for top() or bottom() next to another function. *)
Definition selectorConflict (name : string) : error :=
  fmt_Errorf "selector function %s() cannot be combined with other functions" [ArgString name].

Definition derivativeName (isNonNegative : bool) : string :=
  if isNonNegative then "non_negative_derivative" else "derivative".

Definition isCall (e : influxql.Expr) : bool :=
  match e with influxql.Call _ _ => true | _ => false end.

(** The second argument of derivative(), when there is one, is a positive
    duration literal. *)
Definition derivativeRest (rest : list influxql.Expr) : Prop :=
  rest = [] \/ exists d, rest = [influxql.DurationLiteral d] /\ 0 < d.

(** A statement declares a grouping interval when one of its dimensions is a
    time() call whose duration is not zero. *)
Definition declaresInterval (s : influxql.SelectStatement) : Prop :=
  exists d args v,
    In d (influxql.Dimensions s) /\
    influxql.dim_Expr d = influxql.Call "time" args /\
    hd influxql.NilLiteral args = influxql.DurationLiteral v /\
    v <> 0.

Definition isNullFill (f : influxql.FillOption) : bool :=
  match f with influxql.NullFill => true | _ => false end.

(** An expression that the expression compiler records as a function call
    when it meets it: a call, or the DISTINCT syntax. *)
Definition recordsCall (e : influxql.Expr) : bool :=
  match e with
  | influxql.Call _ _ | influxql.Distinct _ => true
  | _ => false
  end.

(** A selected expression that needs auxiliary fields: a bare reference other
    than the time column, a wildcard or a regular expression. *)
Definition auxiliaryExpr (e : influxql.Expr) : bool :=
  match e with
  | influxql.VarRef val _ => negb (String.eqb val "time")
  | influxql.Wildcard _ | influxql.RegexLiteral _ => true
  | _ => false
  end.

(** The selected fields that are function calls; a list of fields one of which
    is a call of top() or bottom(), uses distinct(), or needs auxiliary
    fields. *)
Definition callFields (s : influxql.SelectStatement) : list influxql.Field :=
  filter (fun f => recordsCall (influxql.Expr_ f)) (influxql.Fields s).

Definition selectsDistinct (fs : list influxql.Field) : Prop :=
  exists f val ty, In f fs /\ In (influxql.Expr_ f) (distinctForms val ty).

Definition selectsAuxiliary (fs : list influxql.Field) : Prop :=
  exists f, In f fs /\ auxiliaryExpr (influxql.Expr_ f) = true.

Definition selectsTopBottom (fs : list influxql.Field) : Prop :=
  exists f name args,
    In f fs /\ influxql.Expr_ f = influxql.Call name args /\ (name = "top" \/ name = "bottom").

(** ** The vocabulary of the further properties *)

(** What the compilation of an expression does to the field under compilation
    and to the selector mark: the field stays the same, and a wildcard
    permission or a selector mark that is withdrawn stays withdrawn. *)
Record lowered (c c' : receiver) : Prop := {
  lowered_Field : Field (this c') = Field (this c);
  lowered_AllowWildcard : AllowWildcard (this c) = false -> AllowWildcard (this c') = false;
  lowered_OnlySelectors : OnlySelectors (global c) = false -> OnlySelectors (global c') = false
}.

(** A compiler of expressions that respects [lowered] on the expression [e]. *)
Definition lowersMarks (rec : receiver -> influxql.Expr -> outcome receiver)
    (e : influxql.Expr) : Prop :=
  forall c c', rec c e = Ok c' -> lowered c c'.

(** The names the expression compiler dispatches on, and those among them
    whose call leaves the statement a selector query. *)
Definition functionNames : list string :=
  [ "percentile"; "sample"; "distinct"; "top"; "bottom";
    "derivative"; "non_negative_derivative"; "difference"; "non_negative_difference";
    "cumulative_sum"; "moving_average"; "elapsed"; "integral";
    "holt_winters"; "holt_winters_with_fit";
    "max"; "min"; "first"; "last";
    "count"; "sum"; "mean"; "median"; "mode"; "stddev"; "spread" ].

Definition selectorNames : list string :=
  [ "max"; "min"; "first"; "last"; "top"; "bottom"; "percentile"; "sample" ].

(** The functions that take a nested call as their first argument. *)
Definition transformNames : list string :=
  [ "derivative"; "non_negative_derivative"; "difference"; "non_negative_difference";
    "cumulative_sum"; "moving_average"; "elapsed" ].

Definition holtWintersNames : list string := [ "holt_winters"; "holt_winters_with_fit" ].

(** An expression in which field compilation reaches a wildcard, or a regular
    expression standing as the first argument of a call. *)
Fixpoint reachesWildcard (e : influxql.Expr) : bool :=
  match e with
  | influxql.Wildcard _ => true
  | influxql.ParenExpr e' => reachesWildcard e'
  | influxql.BinaryExpr _ lhs rhs => reachesWildcard lhs || reachesWildcard rhs
  | influxql.Call _ args =>
      match args with
      | influxql.RegexLiteral _ :: _ => true
      | arg0 :: _ => reachesWildcard arg0
      | [] => false
      end
  | _ => false
  end.

(** An expression that a function takes as a field: a reference, or the
    DISTINCT syntax. *)
Definition fieldArgument (a : influxql.Expr) : bool :=
  match a with
  | influxql.VarRef _ _ | influxql.Distinct _ => true
  | _ => false
  end.

(** The first argument of a call made where wildcards are not allowed, when it
    is no field and no call that compiles. *)
Definition refusedArgument (a : influxql.Expr) : Prop :=
  fieldArgument a = false /\
  (isCall a = true ->
   forall c, AllowWildcard (this c) = false -> fails (compileExpr c a)).

(** An expression in which field compilation can meet a call. *)
Fixpoint mentionsCall (e : influxql.Expr) : bool :=
  match e with
  | influxql.Call _ _ | influxql.Distinct _ => true
  | influxql.ParenExpr e' => mentionsCall e'
  | influxql.BinaryExpr _ lhs rhs => mentionsCall lhs || mentionsCall rhs
  | _ => false
  end.

(** A statement that selects no call. *)
Definition selectsNoCall (s : influxql.SelectStatement) : Prop :=
  forall f, In f (influxql.Fields s) -> mentionsCall (influxql.Expr_ f) = false.

(** A selected field that is a call of a function other than a selector. *)
Definition selectsAggregate (fs : list influxql.Field) : Prop :=
  exists f name args,
    In f fs /\ influxql.Expr_ f = influxql.Call name args /\ ~ In name selectorNames.

(** The functions that take an optional duration as second argument, and
    those that take one argument. *)
Definition durationNames : list string :=
  [ "derivative"; "non_negative_derivative"; "elapsed"; "integral" ].

Definition singleNames : list string :=
  [ "distinct"; "difference"; "non_negative_difference"; "cumulative_sum";
    "max"; "min"; "first"; "last";
    "count"; "sum"; "mean"; "median"; "mode"; "stddev"; "spread" ].

(** The functions that [compileFunction] takes. *)
Definition simpleNames : list string :=
  [ "max"; "min"; "first"; "last";
    "count"; "sum"; "mean"; "median"; "mode"; "stddev"; "spread" ].

(** The literals that percentile() takes as its second argument. *)
Definition numberLiteral (e : influxql.Expr) : bool :=
  match e with
  | influxql.IntegerLiteral _ | influxql.NumberLiteral _ => true
  | _ => false
  end.

(** The compiled field that top() and bottom() add for a tag argument. *)
Definition tagField (v : influxql.Expr) : compiledField :=
  {| Field := {| influxql.Expr_ := v; influxql.Alias := "" |}; AllowWildcard := false |}.

(** The calls that the expression compiler records when it compiles an
    expression, in the order in which it meets them: a call, then the call
    that stands as its first argument where the function transforms an
    aggregate; the call form of the DISTINCT syntax; and the calls of the
    operands of a binary expression that are no literals. *)
Definition nests (name : string) : bool :=
  string_in name (transformNames ++ holtWintersNames).

Fixpoint recordedCalls (e : influxql.Expr) : list influxql.Expr :=
  match e with
  | influxql.Call name args =>
      e :: (if nests name then
              match args with
              | influxql.Call _ _ as arg0 :: _ => recordedCalls arg0
              | _ => []
              end
            else [])
  | influxql.Distinct val => [influxql.NewCall val]
  | influxql.BinaryExpr _ lhs rhs =>
      if influxql.isLiteral lhs then
        if influxql.isLiteral rhs then [] else recordedCalls rhs
      else if influxql.isLiteral rhs then recordedCalls lhs
      else recordedCalls lhs ++ recordedCalls rhs
  | influxql.ParenExpr e' => recordedCalls e'
  | _ => []
  end.

(** The arguments of top() and bottom() that the expression compiler meets
    between the first and the last argument of such a call. *)
Fixpoint tagArguments (e : influxql.Expr) : list influxql.Expr :=
  match e with
  | influxql.Call name args =>
      if string_in name ["top"; "bottom"] then removelast (tl args)
      else if nests name then
        match args with
        | influxql.Call _ _ as arg0 :: _ => tagArguments arg0
        | _ => []
        end
      else []
  | influxql.BinaryExpr _ lhs rhs =>
      if influxql.isLiteral lhs then
        if influxql.isLiteral rhs then [] else tagArguments rhs
      else if influxql.isLiteral rhs then tagArguments lhs
      else tagArguments lhs ++ tagArguments rhs
  | influxql.ParenExpr e' => tagArguments e'
  | _ => []
  end.

(** The compiled fields that an expression adds to those of the statement. *)
Definition addedFields (g : compiledStatement) (e : influxql.Expr) : list compiledField :=
  if HasTarget g then [] else map tagField (tagArguments e).

(** What the compilation of the expression [e] does to the recorded calls and
    to the compiled fields. *)
Definition follows (rec : receiver -> influxql.Expr -> outcome receiver)
    (e : influxql.Expr) : Prop :=
  forall c c',
    rec c e = Ok c' ->
    FunctionCalls (global c') = FunctionCalls (global c) ++ recordedCalls e /\
    Fields (global c') = Fields (global c) ++ addedFields (global c) e.

(** A step of the compilation that leaves the recorded calls and the compiled
    fields as they are. *)
Definition untouched (c c' : receiver) : Prop :=
  FunctionCalls (global c') = FunctionCalls (global c) /\
  Fields (global c') = Fields (global c).

(** The fields of the syntax tree that a selected field compiles to: the
    field, and a field for every tag argument unless the statement writes
    into a target; a selection of the time column compiles to none. *)
Definition fieldsOf (target : bool) (f : influxql.Field) : list influxql.Field :=
  if isTimeRef (influxql.Expr_ f) then []
  else f :: (if target then [] else map (fun v => Field (tagField v)) (tagArguments (influxql.Expr_ f))).


Definition isVarRef (e : influxql.Expr) : bool :=
  match e with influxql.VarRef _ _ => true | _ => false end.

(** A GROUP BY dimension that names tags: a reference other than [time], a
    wildcard or a regular expression. *)
Definition tagDimension (d : influxql.Dimension) : bool :=
  match influxql.dim_Expr d with
  | influxql.VarRef val _ => negb (String.eqb (strings_ToLower val) "time")
  | influxql.Wildcard _ | influxql.RegexLiteral _ => true
  | _ => false
  end.

(** The offset of an interval lies within its duration. *)
Definition offsetWithin (i : query.Interval) : Prop :=
  Z.abs (query.Offset i) < Z.abs (query.Duration i) \/
  (query.Offset i = 0 /\ query.Duration i = 0).

(** The ways [Prepare] leaves the shard mapper and the shard set when it
    returns an error [e]: the mapper was not called, the mapper returned the
    error, or the mapped shard set was closed. *)
Definition errorTrace `{Planner} (shardMapper : ShardMapper) (sopt : SelectOptions)
    (e : error) (trace : list event) : Prop :=
  trace = [] \/
  (exists sources range,
     MapShards shardMapper sources range sopt = Err e /\
     trace = [MapShardsCalled sources range sopt]) \/
  (exists sources range shards,
     MapShards shardMapper sources range sopt = Ok shards /\
     trace = [MapShardsCalled sources range sopt; ShardsClosed shards]).
(** The marks of a statement that validation reads, as [newCompiler] sets
    them. *)
Definition unmarked (c : compiledStatement) : Prop :=
  FunctionCalls c = [] /\ OnlySelectors c = true /\ HasDistinct c = false /\
  TopBottomFunction c = "" /\ HasAuxiliaryFields c = false /\ InheritedInterval c = false.

(** ** Instances for the further properties *)

(** SELECT max(value), host FROM cpu, and its compiled state. *)
Definition maxAndHost : influxql.SelectStatement :=
  select [influxql.Call "max" [ref "value"]; ref "host"] [] cpu 0.
Definition maxAndHostCompiled : compiledStatement :=
  Eval vm_compute in stateOf (@compile plain (@newCompiler plain {| Now := 0 |}) maxAndHost).

(** SELECT value FROM cpu GROUP BY time(10m), preprocessed and with its
    fields compiled. *)
Definition rawGrouped : influxql.SelectStatement :=
  select [ref "value"] [timeDimension (10 * minute)] cpu 0.
Definition rawGroupedPreprocessed : compiledStatement :=
  Eval vm_compute in stateOf (@preprocess plain (@newCompiler plain {| Now := 0 |}) rawGrouped).
Definition rawGroupedFields : compiledStatement :=
  Eval vm_compute in stateOf (compileFields rawGroupedPreprocessed rawGrouped).

(** SELECT mean(value) FROM cpu ORDER BY time DESC, and its state when it is
    preprocessed as a subquery. *)
Definition meansDescending : influxql.SelectStatement :=
  influxql.mkSelectStatement [field (influxql.Call "mean" [ref "value"])] None [] cpu None
    [{| influxql.sort_Name := "time"; influxql.sort_Ascending := false |}]
    0 influxql.NullFill None false "".
Definition meansDescendingPreprocessed : compiledStatement :=
  Eval vm_compute in
    stateOf (@preprocess plain (@newCompiler plain (Options outerPlain)) meansDescending).

(** The statement of Example 1 prepared under a limit of 100 buckets. *)
Definition meansLastHourPrepared : @preparedStatement sourcesPlanner :=
  Eval vm_compute in
    match fst (@Prepare sourcesPlanner meansLastHour sourcesMapper {| MaxBucketsN := 100 |}) with
    | Ok p => p
    | _ => @Build_preparedStatement sourcesPlanner tenMinuteMeans
             {| opt_Interval := query.zero; opt_Location := None; StartTime := 0; EndTime := 0;
                opt_Ascending := false |} [] []
    end.

(** SELECT mean(value) FROM cpu GROUP BY time(10m, 25m), compiled. *)
Definition offsetMeans : influxql.SelectStatement :=
  select [influxql.Call "mean" [ref "value"]]
    [influxql.Call "time" [influxql.DurationLiteral (10 * minute);
                           influxql.DurationLiteral (25 * minute)]] cpu 0.
Definition offsetMeansCompiled : compiledStatement :=
  Eval vm_compute in stateOf (@Compile plain offsetMeans {| Now := 0 |}).

(** SELECT mean(value) FROM cpu GROUP BY host, time(0s, 1m). *)
Definition zeroInterval : influxql.SelectStatement :=
  select [influxql.Call "mean" [ref "value"]]
    [ref "host"; influxql.Call "time" [influxql.DurationLiteral 0; influxql.DurationLiteral minute]]
    cpu 0.

(** The receiver of the one field of a statement that has just been
    preprocessed with an interval of ten minutes. *)
Definition groupedField (e : influxql.Expr) : receiver :=
  {| global := meansLastHourPreprocessed;
     this := {| Field := field e; AllowWildcard := true |} |}.

(** SELECT value, host FROM cpu and SELECT mean(value) FROM cpu,
    preprocessed. *)
Definition rawValues : influxql.SelectStatement := select [ref "value"; ref "host"] [] cpu 0.
Definition rawValuesPreprocessed : compiledStatement :=
  Eval vm_compute in stateOf (@preprocess plain (@newCompiler plain {| Now := 0 |}) rawValues).
Definition meansPreprocessed : compiledStatement :=
  Eval vm_compute in stateOf (@preprocess plain (@newCompiler plain {| Now := 0 |}) means).

(** SELECT derivative(mean(value)) FROM cpu GROUP BY time(10m), its fields
    compiled after preprocessing. *)
Definition derivativeOfMeans : influxql.SelectStatement :=
  select [influxql.Call "derivative" [influxql.Call "mean" [ref "value"]]]
    [timeDimension (10 * minute)] cpu 0.
Definition derivativeOfMeansFields : compiledStatement :=
  Eval vm_compute in stateOf (compileFields meansLastHourPreprocessed derivativeOfMeans).

(** SELECT time, top(value, host, 3) FROM cpu and its compiled fields. *)
Definition topHosts : influxql.SelectStatement :=
  select [ref "time"; influxql.Call "top" [ref "value"; ref "host"; influxql.IntegerLiteral 3]]
    [] cpu 0.
Definition topHostsFields : compiledStatement :=
  Eval vm_compute in stateOf (compileFields (@newCompiler plain {| Now := 0 |}) topHosts).

(** * Properties *)

(** ** Outcomes *)

Lemma bind_Ok {A B : Type} (m : outcome A) (k : A -> outcome B) (b : B) :
  bind m k = Ok b -> exists a, m = Ok a /\ k a = Ok b.
Proof.
  destruct m as [a | e | msg]; simpl; intro E; try discriminate.
  exists a; split; [reflexivity | exact E].
Qed.

Lemma fails_bind_left {A B : Type} (m : outcome A) (k : A -> outcome B) :
  fails m -> fails (bind m k).
Proof.
  intros F b E. apply bind_Ok in E. destruct E as [a [E _]]. exact (F a E).
Qed.

Lemma fails_Err {A : Type} (e : error) : fails (@Err A e).
Proof. intros a E; discriminate. Qed.

Lemma fails_Panic {A : Type} (msg : string) : fails (@Panic A msg).
Proof. intros a E; discriminate. Qed.

Lemma len_nonneg {A : Type} (l : list A) : 0 <= len l.
Proof. unfold len; lia. Qed.

Lemma len_app {A : Type} (l l' : list A) : len (l ++ l') = len l + len l'.
Proof. unfold len; rewrite length_app; lia. Qed.

Lemma len_zero {A : Type} (l : list A) : len l = 0 <-> l = [].
Proof.
  unfold len; split; intro E.
  - destruct l; [reflexivity | simpl in E; lia].
  - subst; reflexivity.
Qed.

Lemma length_set_nth {A : Type} (i : nat) (x : A) (l : list A) :
  List.length (set_nth i x l) = List.length l.
Proof.
  revert i; induction l as [| y l IH]; intro i; simpl; [reflexivity |].
  destruct i; simpl; [reflexivity | now rewrite IH].
Qed.

(** ** An induction principle for expressions with their argument lists *)

Section ExprInduction.

Variable P : influxql.Expr -> Prop.

Hypothesis P_leaf : forall e, leafExpr e -> P e.
Hypothesis P_binary : forall op lhs rhs, P lhs -> P rhs -> P (influxql.BinaryExpr op lhs rhs).
Hypothesis P_paren : forall e, P e -> P (influxql.ParenExpr e).
Hypothesis P_call : forall name args, Forall P args -> P (influxql.Call name args).

Fixpoint Expr_args_ind (e : influxql.Expr) : P e :=
  match e with
  | influxql.BinaryExpr op lhs rhs => P_binary op lhs rhs (Expr_args_ind lhs) (Expr_args_ind rhs)
  | influxql.ParenExpr e' => P_paren e' (Expr_args_ind e')
  | influxql.Call name args =>
      P_call name args
        ((fix all (l : list influxql.Expr) : Forall P l :=
            match l with
            | [] => Forall_nil P
            | x :: rest => Forall_cons x (Expr_args_ind x) (all rest)
            end) args)
  | influxql.BooleanLiteral v => P_leaf (influxql.BooleanLiteral v) I
  | influxql.Distinct v => P_leaf (influxql.Distinct v) I
  | influxql.DurationLiteral v => P_leaf (influxql.DurationLiteral v) I
  | influxql.IntegerLiteral v => P_leaf (influxql.IntegerLiteral v) I
  | influxql.UnsignedLiteral v => P_leaf (influxql.UnsignedLiteral v) I
  | influxql.NilLiteral => P_leaf influxql.NilLiteral I
  | influxql.NumberLiteral v => P_leaf (influxql.NumberLiteral v) I
  | influxql.RegexLiteral v => P_leaf (influxql.RegexLiteral v) I
  | influxql.ListLiteral v => P_leaf (influxql.ListLiteral v) I
  | influxql.StringLiteral v => P_leaf (influxql.StringLiteral v) I
  | influxql.TimeLiteral v => P_leaf (influxql.TimeLiteral v) I
  | influxql.VarRef v t => P_leaf (influxql.VarRef v t) I
  | influxql.Wildcard t => P_leaf (influxql.Wildcard t) I
  end.

End ExprInduction.

(** ** What field compilation leaves alone *)

Lemma kept_refl (g : compiledStatement) : kept g g.
Proof. constructor; auto. Qed.

Lemma kept_trans (g1 g2 g3 : compiledStatement) : kept g1 g2 -> kept g2 g3 -> kept g1 g3.
Proof.
  intros [] []; constructor; try congruence; try lia; auto.
Qed.

Ltac kept_by_computation :=
  match goal with
  | |- kept ?g _ => destruct g; constructor; simpl; auto; try congruence
  end.

Lemma kept_set_OnlySelectors v g : kept g (set_OnlySelectors v g).
Proof. kept_by_computation. Qed.

Lemma kept_set_HasDistinct g : kept g (set_HasDistinct true g).
Proof. kept_by_computation. Qed.

Lemma kept_set_HasAuxiliaryFields g : kept g (set_HasAuxiliaryFields true g).
Proof. kept_by_computation. Qed.

Lemma kept_append_call e g : kept g (set_FunctionCalls (FunctionCalls g ++ [e]) g).
Proof. kept_by_computation. rewrite length_app; simpl; lia. Qed.

Lemma kept_append_field f g : kept g (set_Fields (Fields g ++ [f]) g).
Proof. kept_by_computation. rewrite length_app; simpl; lia. Qed.

Lemma kept_set_TopBottomFunction name g :
  name <> "" -> kept g (set_TopBottomFunction name g).
Proof. intro N. kept_by_computation. Qed.


Ltac outcome_cases :=
  repeat match goal with
    | H : Ok _ = Ok _ |- _ => inversion H; subst; clear H
    | H : Err _ = Ok _ |- _ => discriminate H
    | H : Panic _ = Ok _ |- _ => discriminate H
    | H : bind _ _ = Ok _ |- _ =>
        let a := fresh "a" in
        let E := fresh "E" in
        apply bind_Ok in H; destruct H as [a [E H]]
    | H : (if ?b then _ else _) = Ok _ |- _ =>
        let E := fresh "E" in destruct b eqn:E
    | H : match ?x with _ => _ end = Ok _ |- _ =>
        let E := fresh "E" in destruct x eqn:E
    end.

Ltac kept_steps :=
  simpl;
  repeat first
    [ apply kept_refl
    | apply kept_set_OnlySelectors
    | apply kept_set_HasDistinct
    | apply kept_set_HasAuxiliaryFields
    | apply kept_append_call
    | apply kept_append_field
    | eapply kept_trans; [ | solve [ apply kept_set_OnlySelectors | apply kept_set_HasDistinct
                                  | apply kept_set_HasAuxiliaryFields ] ] ].

Lemma compileSymbol_kept c name e c' :
  compileSymbol c name e = Ok c' -> kept (global c) (global c').
Proof.
  unfold compileSymbol; intro H; outcome_cases; kept_steps.
Qed.

Lemma compileDistinct_kept c args c' :
  compileDistinct c args = Ok c' -> kept (global c) (global c').
Proof.
  unfold compileDistinct; intro H; outcome_cases; kept_steps.
Qed.

Lemma compileFunction_kept c name args c' :
  compileFunction c name args = Ok c' -> kept (global c) (global c').
Proof.
  unfold compileFunction; intro H.
  apply bind_Ok in H; destruct H as [c1 [H1 H]].
  assert (K1 : kept (global c) (global c1)) by (outcome_cases; kept_steps).
  apply kept_trans with (global c1); [exact K1 |].
  outcome_cases;
    first [ eapply compileDistinct_kept; eassumption
          | eapply compileSymbol_kept; eassumption ].
Qed.

Lemma compilePercentile_kept c args c' :
  compilePercentile c args = Ok c' -> kept (global c) (global c').
Proof.
  unfold compilePercentile; intro H; outcome_cases; eapply compileSymbol_kept; eassumption.
Qed.

Lemma compileSample_kept c args c' :
  compileSample c args = Ok c' -> kept (global c) (global c').
Proof.
  unfold compileSample; intro H; outcome_cases; eapply compileSymbol_kept; eassumption.
Qed.

Lemma compileIntegral_kept c args c' :
  compileIntegral c args = Ok c' -> kept (global c) (global c').
Proof.
  unfold compileIntegral; intro H.
  destruct (_ || _); [discriminate |].
  apply bind_Ok in H; destruct H as [u [_ H]].
  apply compileSymbol_kept in H. simpl in H.
  eapply kept_trans; [apply (kept_set_OnlySelectors false) | exact H].
Qed.

Section NestedCallsKept.

Variable rec : receiver -> influxql.Expr -> outcome receiver.


Lemma callOrSymbol_kept c name e1 e2 arg0 c' :
  keepsContext rec arg0 -> callOrSymbol rec c name e1 e2 arg0 = Ok c' -> kept (global c) (global c').
Proof.
  unfold callOrSymbol; intros K H.
  destruct arg0; outcome_cases;
    first [ eapply compileSymbol_kept; eassumption | eapply K; eassumption ].
Qed.

Lemma callOrSymbol_after_flag_kept c name e1 e2 arg0 c' :
  keepsContext rec arg0 ->
  callOrSymbol rec (on_global (set_OnlySelectors false) c) name e1 e2 arg0 = Ok c' ->
  kept (global c) (global c').
Proof.
  intros K H. apply callOrSymbol_kept in H; [| exact K].
  eapply kept_trans; [apply (kept_set_OnlySelectors false) | exact H].
Qed.

Lemma compileDerivative_kept c args b c' :
  Forall (keepsContext rec) args -> compileDerivative rec c args b = Ok c' -> kept (global c) (global c').
Proof.
  unfold compileDerivative; intros F H.
  destruct args as [| a0 [| a1 [| a2 rest]]]; try discriminate;
    inversion F; subst; outcome_cases;
    eapply callOrSymbol_after_flag_kept; eassumption.
Qed.

Lemma compileElapsed_kept c args c' :
  Forall (keepsContext rec) args -> compileElapsed rec c args = Ok c' -> kept (global c) (global c').
Proof.
  unfold compileElapsed; intros F H.
  destruct args as [| a0 [| a1 [| a2 rest]]]; try discriminate;
    inversion F; subst; outcome_cases;
    eapply callOrSymbol_after_flag_kept; eassumption.
Qed.

Lemma compileDifference_kept c args b c' :
  Forall (keepsContext rec) args -> compileDifference rec c args b = Ok c' -> kept (global c) (global c').
Proof.
  unfold compileDifference; intros F H.
  destruct args as [| a0 [| a1 rest]]; try discriminate;
    inversion F; subst; eapply callOrSymbol_after_flag_kept; eassumption.
Qed.

Lemma compileCumulativeSum_kept c args c' :
  Forall (keepsContext rec) args -> compileCumulativeSum rec c args = Ok c' -> kept (global c) (global c').
Proof.
  unfold compileCumulativeSum; intros F H.
  destruct args as [| a0 [| a1 rest]]; try discriminate;
    inversion F; subst; eapply callOrSymbol_after_flag_kept; eassumption.
Qed.

Lemma compileMovingAverage_kept c args c' :
  Forall (keepsContext rec) args -> compileMovingAverage rec c args = Ok c' -> kept (global c) (global c').
Proof.
  unfold compileMovingAverage; intros F H.
  destruct args as [| a0 [| a1 [| a2 rest]]]; try discriminate.
  inversion F; subst. destruct a1; try discriminate.
  destruct (_ <=? 1); [discriminate |].
  eapply callOrSymbol_after_flag_kept; eassumption.
Qed.

Lemma compileHoltWinters_kept c args b c' :
  Forall (keepsContext rec) args -> compileHoltWinters rec c args b = Ok c' -> kept (global c) (global c').
Proof.
  unfold compileHoltWinters; intros F H.
  destruct args as [| a0 [| a1 [| a2 [| a3 rest]]]]; try discriminate.
  inversion F as [| ? ? K0 _]; subst.
  destruct a1; try discriminate. destruct (_ <=? 0); [discriminate |].
  destruct a2; try discriminate. destruct (_ <? 0); [discriminate |].
  destruct a0; try discriminate.
  destruct (query.IsZero _); [discriminate |].
  apply K0 in H. simpl in H.
  eapply kept_trans; [apply (kept_set_OnlySelectors false) | exact H].
Qed.

End NestedCallsKept.

Lemma compileTopBottomTags_kept name tags : forall c c',
  compileTopBottomTags c name tags = Ok c' -> kept (global c) (global c').
Proof.
  induction tags as [| v rest IH]; intros c c' H; simpl in H.
  - outcome_cases; apply kept_refl.
  - destruct v; try discriminate.
    destruct (negb (HasTarget (global c))).
    + apply IH in H. simpl in H.
      eapply kept_trans; [| exact H].
      eapply kept_trans; [apply kept_append_field | apply kept_set_HasAuxiliaryFields].
    + apply IH in H. exact H.
Qed.

Lemma String_eqb_empty (s : string) : negb (String.eqb s "") = false -> s = "".
Proof.
  intro E. apply negb_false_iff in E. now apply String.eqb_eq in E.
Qed.

Lemma compileTopBottom_kept c name args c' :
  compileTopBottom c name args = Ok c' -> kept (global c) (global c').
Proof.
  unfold compileTopBottom; intro H.
  destruct (negb (String.eqb (TopBottomFunction (global c)) "")) eqn:T; [discriminate |].
  apply String_eqb_empty in T.
  destruct (len args <? 2); [discriminate |].
  destruct (last args influxql.NilLiteral); try discriminate.
  destruct (_ <=? 0); [discriminate |].
  destruct (_ && _); [discriminate |].
  destruct (hd influxql.NilLiteral args); try discriminate.
  apply bind_Ok in H; destruct H as [c1 [H1 H]].
  inversion H; subst; clear H.
  assert (K : kept (global c) (global c1)).
  { destruct (2 <? len args).
    - eapply compileTopBottomTags_kept; eassumption.
    - inversion H1; subst; apply kept_refl. }
  destruct K. simpl. destruct (global c1); simpl in *.
  constructor; simpl; auto; intro N; contradiction.
Qed.

(** A call is recorded first; what its validator does afterwards respects
    [kept] if the compilation of its arguments does. *)
Lemma compileExpr_call_kept_under c name args c' :
  Forall (keepsContext compileExpr) args ->
  compileExpr c (influxql.Call name args) = Ok c' ->
  kept (set_FunctionCalls (FunctionCalls (global c) ++ [influxql.Call name args]) (global c))
       (global c').
Proof.
  intros F H. simpl in H.
  set (c1 := on_global _ c) in H.
  change (set_FunctionCalls _ (global c)) with (global c1).
  repeat match type of H with
    | (if ?b then _ else _) = _ => destruct b
    end.
  - eapply compilePercentile_kept; eassumption.
  - eapply compileSample_kept; eassumption.
  - eapply compileDistinct_kept; eassumption.
  - eapply compileTopBottom_kept; eassumption.
  - eapply compileDerivative_kept; eassumption.
  - eapply compileDifference_kept; eassumption.
  - eapply compileCumulativeSum_kept; eassumption.
  - eapply compileMovingAverage_kept; eassumption.
  - eapply compileElapsed_kept; eassumption.
  - eapply compileIntegral_kept; eassumption.
  - eapply compileHoltWinters_kept; eassumption.
  - eapply compileFunction_kept; eassumption.
Qed.

Theorem compileExpr_kept (e : influxql.Expr) : forall c c',
  compileExpr c e = Ok c' -> kept (global c) (global c').
Proof.
  induction e as [e L | op lhs rhs IHl IHr | e IHe | name args F] using Expr_args_ind;
    intros c c' H.
  - destruct e; simpl in H; try contradiction; outcome_cases;
      kept_steps.
  - simpl in H.
    destruct (influxql.isLiteral lhs); [destruct (influxql.isLiteral rhs) |
      destruct (influxql.isLiteral rhs)]; try discriminate.
    + apply IHr in H. exact H.
    + apply IHl in H. exact H.
    + apply bind_Ok in H; destruct H as [c2 [H1 H2]].
      apply IHl in H1. apply IHr in H2. eapply kept_trans; eassumption.
  - simpl in H. apply IHe in H. exact H.
  - eapply kept_trans; [apply (kept_append_call (influxql.Call name args)) |].
    eapply compileExpr_call_kept_under; eassumption.
Qed.

Lemma compileExpr_call_kept c name args c' :
  compileExpr c (influxql.Call name args) = Ok c' ->
  kept (set_FunctionCalls (FunctionCalls (global c) ++ [influxql.Call name args]) (global c))
       (global c').
Proof.
  apply compileExpr_call_kept_under.
  apply Forall_forall. intros e _ a b. apply compileExpr_kept.
Qed.

(** A call that compiles adds to the recorded function calls. *)
Lemma compileExpr_call_recorded c name args c' :
  compileExpr c (influxql.Call name args) = Ok c' ->
  (List.length (FunctionCalls (global c)) < List.length (FunctionCalls (global c')))%nat.
Proof.
  intro H. apply compileExpr_call_kept in H. pose proof (kept_FunctionCalls _ _ H) as L.
  replace (FunctionCalls (set_FunctionCalls _ (global c)))
    with (FunctionCalls (global c) ++ [influxql.Call name args]) in L
    by (destruct (global c); reflexivity).
  rewrite length_app in L. simpl in L. lia.
Qed.

(** A top() or bottom() call that compiles leaves its name in the statement. *)
Lemma compileExpr_selector_named c name args c' :
  name = "top" \/ name = "bottom" ->
  compileExpr c (influxql.Call name args) = Ok c' ->
  TopBottomFunction (global c') = name.
Proof.
  intros N H.
  assert (U : compileExpr c (influxql.Call name args) =
              compileTopBottom
                (on_global (fun g => set_FunctionCalls (FunctionCalls g ++ [influxql.Call name args]) g) c)
                name args)
    by (destruct N as [-> | ->]; reflexivity).
  rewrite U in H. unfold compileTopBottom in H.
  outcome_cases; simpl;
    match goal with
    | |- TopBottomFunction (set_TopBottomFunction _ ?g) = _ => destruct g; reflexivity
    end.
Qed.

(** The DISTINCT syntax is recorded as a call as well. *)
Lemma compileExpr_distinct_recorded c val c' :
  compileExpr c (influxql.Distinct val) = Ok c' ->
  (List.length (FunctionCalls (global c)) < List.length (FunctionCalls (global c')))%nat.
Proof.
  destruct c as [g t]; destruct g; simpl. intro E; inversion E; subst; clear E.
  simpl. rewrite length_app. simpl. lia.
Qed.

(** Each form of distinct() compiles, is recorded as one call and marks the
    statement. *)
Lemma distinct_form_compiles c val ty e :
  In e (distinctForms val ty) ->
  exists c',
    compileExpr c e = Ok c' /\
    HasDistinct (global c') = true /\
    len (FunctionCalls (global c')) = len (FunctionCalls (global c)) + 1.
Proof.
  destruct c as [g t]. destruct g. intro I. simpl in I.
  destruct I as [<- | [<- | [<- | [<- | []]]]]; simpl;
    (eexists; split; [reflexivity |]; split; [reflexivity |]);
    simpl; rewrite len_app; reflexivity.
Qed.

(** ** Statements: what compiling the fields and sources leaves alone *)

Lemma sameContext_refl g : sameContext g g.
Proof. constructor; reflexivity. Qed.

Lemma sameContext_trans g1 g2 g3 : sameContext g1 g2 -> sameContext g2 g3 -> sameContext g1 g3.
Proof. intros [] []; constructor; congruence. Qed.

Lemma kept_sameContext g g' : kept g g' -> sameContext g g'.
Proof. intros []; constructor; assumption. Qed.

Lemma sameContext_set_Fields v g : sameContext g (set_Fields v g).
Proof. destruct g; constructor; reflexivity. Qed.

Lemma sameContext_set_TimeFieldName v g : sameContext g (set_TimeFieldName v g).
Proof. destruct g; constructor; reflexivity. Qed.

Lemma Fields_set_Fields v g : Fields (set_Fields v g) = v.
Proof. destruct g; reflexivity. Qed.

(** A field other than the time column leaves at least one compiled field. *)
Lemma compileField_other c f c' :
  isTimeRef (influxql.Expr_ f) = false ->
  compileField c f = Ok c' ->
  exists r,
    compileExpr {| global := set_Fields (Fields c ++ [{| Field := f; AllowWildcard := true |}]) c;
                   this := {| Field := f; AllowWildcard := true |} |} (influxql.Expr_ f) = Ok r /\
    c' = set_Fields (set_nth (List.length (Fields c)) (this r) (Fields (global r))) (global r) /\
    (0 < List.length (Fields c'))%nat.
Proof.
  unfold compileField; intros T H. rewrite T in H.
  apply bind_Ok in H; destruct H as [r [E H]]. inversion H; subst; clear H.
  exists r; split; [exact E | split; [reflexivity |]].
  apply compileExpr_kept in E. pose proof (kept_Fields _ _ E) as L.
  simpl in L. rewrite Fields_set_Fields in L. rewrite length_app in L. simpl in L.
  rewrite Fields_set_Fields, length_set_nth. lia.
Qed.

Lemma compileField_time c f :
  isTimeRef (influxql.Expr_ f) = true ->
  compileField c f =
  Ok (if negb (String.eqb (influxql.Alias f) "") then set_TimeFieldName (influxql.Alias f) c else c).
Proof. unfold compileField; intro T; rewrite T; reflexivity. Qed.

Lemma compileField_sameContext c f c' :
  compileField c f = Ok c' -> sameContext c c'.
Proof.
  intro H. destruct (isTimeRef (influxql.Expr_ f)) eqn:T.
  - rewrite (compileField_time _ _ T) in H. inversion H; subst.
    destruct (negb _); [apply sameContext_set_TimeFieldName | apply sameContext_refl].
  - destruct (compileField_other _ _ _ T H) as [r [E [-> _]]].
    apply compileExpr_kept, kept_sameContext in E. simpl in E.
    eapply sameContext_trans; [apply sameContext_set_Fields |].
    eapply sameContext_trans; [exact E | apply sameContext_set_Fields].
Qed.

Lemma compileFieldList_sameContext fs : forall c c',
  compileFieldList c fs = Ok c' -> sameContext c c'.
Proof.
  induction fs as [| f rest IH]; intros c c' H; simpl in H.
  - inversion H; subst; apply sameContext_refl.
  - apply bind_Ok in H; destruct H as [c1 [E H]].
    eapply sameContext_trans; [eapply compileField_sameContext; eassumption | eauto].
Qed.

Lemma compileFields_sameContext c s c' :
  compileFields c s = Ok c' -> sameContext c c'.
Proof.
  unfold compileFields; intro H. apply compileFieldList_sameContext in H.
  eapply sameContext_trans; [apply sameContext_set_Fields | exact H].
Qed.

Lemma compileFieldList_app l1 : forall c l2,
  compileFieldList c (l1 ++ l2) = (c1 <- compileFieldList c l1 ;; compileFieldList c1 l2).
Proof.
  induction l1 as [| f rest IH]; intros c l2; simpl; [reflexivity |].
  destruct (compileField c f); simpl; [apply IH | reflexivity | reflexivity].
Qed.

Section Statements.

Context `{Collaborators}.

Lemma compile_unfold c s :
  compile c s =
  (c1 <- compileFields c s ;; _ <- validateFields c1 ;; compileSources c1 (influxql.Sources s)).
Proof.
  destruct s as [fs tg ds sources cond sf lim fill loc raw alias]; simpl.
  destruct (compileFields c _) as [c1 | e | msg]; simpl; try reflexivity.
  destruct (validateFields c1) as [u | e | msg]; simpl; try reflexivity.
  induction sources as [| src rest IH]; [reflexivity |].
  destruct src as [m | sub]; simpl; [exact IH |].
  unfold subquery.
  destruct (subqueryContext c1 sub) as [sq | e | msg]; simpl; try reflexivity.
  destruct (compile sq sub); simpl; [exact IH | reflexivity | reflexivity].
Qed.

Lemma compileSources_Ok l : forall c c', compileSources c l = Ok c' -> c' = c.
Proof.
  induction l as [| src rest IH]; intros c c' E; simpl in E.
  - now inversion E.
  - destruct src as [m | sub]; [now apply IH |].
    apply bind_Ok in E; destruct E as [sq [_ E]]. now apply IH.
Qed.

Theorem compile_sameContext c s c' :
  compile c s = Ok c' -> sameContext c c'.
Proof.
  rewrite compile_unfold; intro E.
  apply bind_Ok in E; destruct E as [c1 [E1 E]].
  apply bind_Ok in E; destruct E as [u [_ E]].
  apply compileSources_Ok in E; subst.
  eapply compileFields_sameContext; eassumption.
Qed.

End Statements.

(** ** Field lists *)

(** Compiling a field list either leaves a compiled field behind or has only
    met selections of the time column, which change the time column's name
    and nothing else. *)
Lemma compileFieldList_cases fs : forall c c',
  compileFieldList c fs = Ok c' ->
  (0 < List.length (Fields c'))%nat \/
  (Fields c' = Fields c /\ HasDistinct c' = HasDistinct c /\
   TopBottomFunction c' = TopBottomFunction c /\ FunctionCalls c' = FunctionCalls c).
Proof.
  induction fs as [| f rest IH]; intros c c' E; simpl in E.
  - inversion E; subst; right; auto.
  - apply bind_Ok in E; destruct E as [c1 [E1 E]].
    destruct (IH _ _ E) as [L | [F [D [T C]]]]; [left; exact L |].
    destruct (isTimeRef (influxql.Expr_ f)) eqn:R.
    + rewrite (compileField_time _ _ R) in E1. inversion E1; subst; clear E1.
      right. rewrite F, D, T, C.
      destruct (negb _); [destruct c; simpl; auto | auto].
    + destruct (compileField_other _ _ _ R E1) as [r [_ [_ L]]].
      left. rewrite F. exact L.
Qed.

Lemma compileFields_cases c s c' :
  compileFields c s = Ok c' ->
  (0 < List.length (Fields c'))%nat \/
  (Fields c' = [] /\ HasDistinct c' = HasDistinct c /\
   TopBottomFunction c' = TopBottomFunction c /\ FunctionCalls c' = FunctionCalls c).
Proof.
  unfold compileFields; intro E.
  destruct (compileFieldList_cases _ _ _ E) as [L | [F [D [T C]]]]; [left; exact L |].
  right. rewrite F, D, T, C. destruct c; simpl; auto.
Qed.

Lemma validateFields_no_fields c :
  Fields c = [] -> validateFields c = Err (errors_New "at least 1 non-time field must be queried").
Proof. unfold validateFields; intros ->; reflexivity. Qed.

Lemma validateFields_some_fields c :
  (0 < List.length (Fields c))%nat -> (len (Fields c) =? 0) = false.
Proof. intro L. apply Z.eqb_neq. unfold len. lia. Qed.

Section FieldValidation.

Context `{Collaborators}.

Lemma compileSources_measurements c l :
  (forall src, In src l -> exists m, src = influxql.Measurement m) ->
  compileSources c l = Ok c.
Proof.
  induction l as [| src rest IH]; intro M; simpl; [reflexivity |].
  destruct (M src (or_introl eq_refl)) as [m ->].
  apply IH. intros src' I. apply M. right; exact I.
Qed.

Lemma FunctionCalls_set_Fields v g : FunctionCalls (set_Fields v g) = FunctionCalls g.
Proof. destruct g; reflexivity. Qed.

Lemma TopBottomFunction_set_Fields v g : TopBottomFunction (set_Fields v g) = TopBottomFunction g.
Proof. destruct g; reflexivity. Qed.

(** What compiling one field does to the recorded calls and to the name of
    the selector. *)
Lemma compileField_calls c f c' :
  compileField c f = Ok c' ->
  (List.length (FunctionCalls c) + (if recordsCall (influxql.Expr_ f) then 1 else 0)
   <= List.length (FunctionCalls c'))%nat /\
  (TopBottomFunction c <> "" -> TopBottomFunction c' <> "") /\
  (forall name args,
     influxql.Expr_ f = influxql.Call name args ->
     name = "top" \/ name = "bottom" ->
     TopBottomFunction c' <> "").
Proof.
  intro E. destruct (isTimeRef (influxql.Expr_ f)) eqn:T.
  - rewrite (compileField_time _ _ T) in E. inversion E; subst; clear E.
    assert (NC : recordsCall (influxql.Expr_ f) = false)
      by (destruct (influxql.Expr_ f); try reflexivity; discriminate).
    rewrite NC. split; [| split].
    + destruct (negb _); destruct c; simpl; lia.
    + destruct (negb _); destruct c; simpl; auto.
    + intros name args D. rewrite D in NC. discriminate.
  - destruct (compileField_other _ _ _ T E) as [r [X [-> _]]].
    rewrite FunctionCalls_set_Fields, TopBottomFunction_set_Fields.
    pose proof (compileExpr_kept _ _ _ X) as K. simpl in K.
    rewrite <- (FunctionCalls_set_Fields (Fields c ++ [{| Field := f; AllowWildcard := true |}]) c).
    rewrite <- (TopBottomFunction_set_Fields (Fields c ++ [{| Field := f; AllowWildcard := true |}]) c).
    split; [| split].
    + destruct (influxql.Expr_ f) eqn:D; simpl;
        try (pose proof (kept_FunctionCalls _ _ K); lia).
      * apply compileExpr_call_recorded in X. simpl in X. lia.
      * apply compileExpr_distinct_recorded in X. simpl in X. lia.
    + exact (kept_TopBottom _ _ K).
    + intros name args D [-> | ->]; rewrite D in X;
        apply compileExpr_selector_named in X; auto; rewrite X; discriminate.
Qed.

Lemma compileFieldList_calls fs : forall c c',
  compileFieldList c fs = Ok c' ->
  (List.length (FunctionCalls c) +
   List.length (filter (fun f => recordsCall (influxql.Expr_ f)) fs)
   <= List.length (FunctionCalls c'))%nat /\
  (TopBottomFunction c <> "" -> TopBottomFunction c' <> "") /\
  (selectsTopBottom fs -> TopBottomFunction c' <> "").
Proof.
  induction fs as [| f rest IH]; intros c c' E; simpl in E.
  - inversion E; subst. split; [simpl; lia |]. split; [auto |].
    intros [f [name [args [[] _]]]].
  - apply bind_Ok in E; destruct E as [c1 [E1 E]].
    destruct (compileField_calls _ _ _ E1) as [N1 [T1 S1]].
    destruct (IH _ _ E) as [N [T S]].
    split; [| split].
    + simpl. destruct (recordsCall (influxql.Expr_ f)); simpl; lia.
    + auto.
    + intros [g [name [args [[<- | I] [D B]]]]].
      * apply T. eapply S1; eassumption.
      * apply S. exists g, name, args. auto.
Qed.

Lemma HasDistinct_set_Fields v g : HasDistinct (set_Fields v g) = HasDistinct g.
Proof. destruct g; reflexivity. Qed.

Lemma HasAuxiliaryFields_set_Fields v g :
  HasAuxiliaryFields (set_Fields v g) = HasAuxiliaryFields g.
Proof. destruct g; reflexivity. Qed.

(** What compiling one field does to the two marks that validation reads. *)
Lemma compileField_marks c f c' :
  compileField c f = Ok c' ->
  (HasDistinct c = true -> HasDistinct c' = true) /\
  (HasAuxiliaryFields c = true -> HasAuxiliaryFields c' = true) /\
  ((exists val ty, In (influxql.Expr_ f) (distinctForms val ty)) -> HasDistinct c' = true) /\
  (auxiliaryExpr (influxql.Expr_ f) = true -> HasAuxiliaryFields c' = true).
Proof.
  intro E. destruct (isTimeRef (influxql.Expr_ f)) eqn:T.
  - rewrite (compileField_time _ _ T) in E. inversion E; subst; clear E.
    split; [| split; [| split]].
    + destruct (negb _); destruct c; simpl; auto.
    + destruct (negb _); destruct c; simpl; auto.
    + intros [val [ty I]]. simpl in I.
      destruct I as [I | [I | [I | [I | []]]]]; rewrite <- I in T; discriminate.
    + intro A. destruct (influxql.Expr_ f); try discriminate.
      simpl in T, A. rewrite T in A. discriminate.
  - destruct (compileField_other _ _ _ T E) as [r [X [-> _]]].
    rewrite HasDistinct_set_Fields, HasAuxiliaryFields_set_Fields.
    pose proof (compileExpr_kept _ _ _ X) as K. simpl in K.
    rewrite <- (HasDistinct_set_Fields (Fields c ++ [{| Field := f; AllowWildcard := true |}]) c).
    rewrite <- (HasAuxiliaryFields_set_Fields (Fields c ++ [{| Field := f; AllowWildcard := true |}]) c).
    split; [exact (kept_HasDistinct _ _ K) |].
    split; [exact (kept_HasAuxiliaryFields _ _ K) |]. split.
    + intros [val [ty I]].
      destruct (distinct_form_compiles
                  {| global := set_Fields (Fields c ++ [{| Field := f; AllowWildcard := true |}]) c;
                     this := {| Field := f; AllowWildcard := true |} |} val ty _ I)
        as [c'' [X' [D _]]].
      rewrite X in X'. inversion X'; subst. exact D.
    + intro A. destruct (influxql.Expr_ f); try discriminate;
        simpl in X; inversion X; subst; simpl;
        match goal with
        | |- HasAuxiliaryFields (set_HasAuxiliaryFields true ?g) = true => destruct g; reflexivity
        end.
Qed.

Lemma compileFieldList_marks fs : forall c c',
  compileFieldList c fs = Ok c' ->
  (HasDistinct c = true -> HasDistinct c' = true) /\
  (HasAuxiliaryFields c = true -> HasAuxiliaryFields c' = true) /\
  (selectsDistinct fs -> HasDistinct c' = true) /\
  (selectsAuxiliary fs -> HasAuxiliaryFields c' = true).
Proof.
  induction fs as [| f rest IH]; intros c c' E; simpl in E.
  - inversion E; subst. split; [auto |]. split; [auto |]. split.
    + intros [f [val [ty [[] _]]]].
    + intros [f [[] _]].
  - apply bind_Ok in E; destruct E as [c1 [E1 E]].
    destruct (compileField_marks _ _ _ E1) as [D1 [A1 [SD1 SA1]]].
    destruct (IH _ _ E) as [D [A [SD SA]]].
    split; [auto |]. split; [auto |]. split.
    + intros [g [val [ty [[<- | I] F]]]].
      * apply D, SD1. exists val, ty. exact F.
      * apply SD. exists g, val, ty. auto.
    + intros [g [[<- | I] F]].
      * apply A, SA1. exact F.
      * apply SA. exists g. auto.
Qed.

(** C10. A selected field that is the bare reference [time] is left out of the
    compiled fields wherever it stands in the list, its alias (if it has one)
    becoming the name of the time column; and a statement that selects nothing
    but [time] is compiled to no field at all and fails validation, hence
    compilation, with the error asking for a non-time field. *)
Theorem time_field_is_dropped :
  (forall c l1 f l2 ty,
     influxql.Expr_ f = influxql.VarRef "time" ty ->
     compileFieldList c (l1 ++ f :: l2) =
     (c1 <- compileFieldList c l1 ;;
      compileFieldList
        (if negb (String.eqb (influxql.Alias f) "") then set_TimeFieldName (influxql.Alias f) c1 else c1)
        l2)) /\
  (forall c s f ty,
     influxql.Fields s = [f] ->
     influxql.Expr_ f = influxql.VarRef "time" ty ->
     (exists c',
        compileFields c s = Ok c' /\
        Fields c' = [] /\
        TimeFieldName c' = (if String.eqb (influxql.Alias f) "" then TimeFieldName c else influxql.Alias f) /\
        validateFields c' = Err (errors_New "at least 1 non-time field must be queried")) /\
     compile c s = Err (errors_New "at least 1 non-time field must be queried")).
Proof.
  split.
  - intros c l1 f l2 ty E.
    rewrite compileFieldList_app. destruct (compileFieldList c l1) as [c1 | e | msg]; simpl; try reflexivity.
    rewrite compileField_time; [reflexivity | rewrite E; reflexivity].
  - intros c s f ty F E.
    assert (C : compileFields c s =
                Ok (if negb (String.eqb (influxql.Alias f) "")
                    then set_TimeFieldName (influxql.Alias f) (set_Fields [] c)
                    else set_Fields [] c)).
    { unfold compileFields. rewrite F. simpl.
      rewrite compileField_time; [reflexivity | rewrite E; reflexivity]. }
    assert (N : Fields (if negb (String.eqb (influxql.Alias f) "")
                        then set_TimeFieldName (influxql.Alias f) (set_Fields [] c)
                        else set_Fields [] c) = []).
    { destruct (negb _); destruct c; reflexivity. }
    split.
    + eexists; split; [exact C |]. split; [exact N |]. split.
      * destruct (String.eqb (influxql.Alias f) ""); destruct c; reflexivity.
      * apply validateFields_no_fields; exact N.
    + rewrite compile_unfold, C. simpl.
      rewrite (validateFields_no_fields _ N). reflexivity.
Qed.

(** C6. Each form of distinct() compiles to one recorded function call and
    marks the statement as having a distinct. A statement that selects a form
    of distinct() next to another selected call or next to a field that needs
    auxiliary fields does not compile. Once the fields of a statement
    have compiled and one of them used distinct(), validation passes exactly
    when one function call was recorded and no auxiliary field was, and
    returns an error in every other case; for a statement without subqueries
    that is exactly when compilation succeeds. *)
Theorem distinct_stands_alone :
  (forall c val ty e,
     In e (distinctForms val ty) ->
     exists c',
       compileExpr c e = Ok c' /\
       HasDistinct (global c') = true /\
       len (FunctionCalls (global c')) = len (FunctionCalls (global c)) + 1) /\
  (forall c s,
     selectsDistinct (influxql.Fields s) ->
     (2 <= List.length (callFields s))%nat \/ selectsAuxiliary (influxql.Fields s) ->
     fails (compile c s)) /\
  (forall c s c1,
     HasDistinct c = false ->
     compileFields c s = Ok c1 ->
     HasDistinct c1 = true ->
     (validateFields c1 = Ok tt <->
      len (FunctionCalls c1) = 1 /\ HasAuxiliaryFields c1 = false) /\
     (~ (len (FunctionCalls c1) = 1 /\ HasAuxiliaryFields c1 = false) ->
      exists e, validateFields c1 = Err e) /\
     (noSubqueries s ->
      (compile c s = Ok c1 <->
       len (FunctionCalls c1) = 1 /\ HasAuxiliaryFields c1 = false))).
Proof.
  split; [| split].
  { intros c val ty e I. exact (distinct_form_compiles c val ty e I). }
  { intros c s SD Other c' E. rewrite compile_unfold in E.
    apply bind_Ok in E; destruct E as [c1 [E1 E]].
    apply bind_Ok in E; destruct E as [u [V _]].
    unfold compileFields in E1.
    destruct (compileFieldList_marks _ _ _ E1) as [_ [_ [Marked Aux]]].
    destruct (compileFieldList_calls _ _ _ E1) as [Calls _].
    specialize (Marked SD).
    assert (Refused : negb (len (FunctionCalls c1) =? 1) || HasAuxiliaryFields c1 = true).
    { destruct Other as [Many | SA].
      - unfold callFields in Many.
        assert (N : (len (FunctionCalls c1) =? 1) = false)
          by (apply Z.eqb_neq; unfold len; lia).
        rewrite N. reflexivity.
      - rewrite (Aux SA). apply orb_true_r. }
    unfold validateFields in V.
    destruct (len (Fields c1) =? 0); [discriminate |].
    apply bind_Ok in V; destruct V as [u1 [_ V]].
    apply bind_Ok in V; destruct V as [u2 [V _]].
    rewrite Marked, Refused in V. discriminate. }
  intros c s c1 D0 E D1.
  assert (L : (len (Fields c1) =? 0) = false).
  { destruct (compileFields_cases _ _ _ E) as [L | [_ [D _]]].
    - apply validateFields_some_fields; exact L.
    - congruence. }
  assert (V : validateFields c1 = Ok tt <->
              len (FunctionCalls c1) = 1 /\ HasAuxiliaryFields c1 = false).
  { unfold validateFields. rewrite L, D1. split.
    - intro V. apply bind_Ok in V; destruct V as [u [_ V]].
      apply bind_Ok in V; destruct V as [u' [V _]].
      destruct (len (FunctionCalls c1) =? 1) eqn:N; simpl in V.
      + destruct (HasAuxiliaryFields c1); [discriminate |].
        split; [now apply Z.eqb_eq | reflexivity].
      + discriminate.
    - intros [N A]. rewrite N, A. reflexivity. }
  split; [exact V |]. split.
  - intro N. destruct (validateFields c1) as [[] | e | msg] eqn:R.
    + exfalso; apply N, V; reflexivity.
    + exists e; reflexivity.
    + exfalso. revert R. unfold validateFields. rewrite L.
      repeat match goal with
        | |- context [if ?b then _ else _] => destruct b; simpl; try discriminate
        | |- context [match ?x with _ => _ end] => destruct x; simpl; try discriminate
        end.
  - intro M. rewrite compile_unfold, E. simpl. split.
    + intro C. apply bind_Ok in C; destruct C as [[] [R _]]. apply V; exact R.
    + intro N. apply V in N. rewrite N. simpl.
      apply compileSources_measurements; exact M.
Qed.

End FieldValidation.

Section Selectors.

Context `{Collaborators}.

Lemma compileTopBottom_Ok c name args c' :
  compileTopBottom c name args = Ok c' ->
  TopBottomFunction (global c) = "" /\
  2 <= len args /\
  exists limit,
    last args influxql.NilLiteral = influxql.IntegerLiteral limit /\
    0 < limit /\
    (0 < Limit (global c) -> limit <= Limit (global c)).
Proof.
  unfold compileTopBottom; intro E.
  destruct (negb (String.eqb (TopBottomFunction (global c)) "")) eqn:T; [discriminate |].
  apply String_eqb_empty in T.
  destruct (len args <? 2) eqn:A; [discriminate |]. apply Z.ltb_ge in A.
  destruct (last args influxql.NilLiteral) as [| | | | | limit | | | | | | | | | |]; try discriminate.
  destruct (limit <=? 0) eqn:P; [discriminate |]. apply Z.leb_gt in P.
  destruct ((0 <? Limit (global c)) && (Limit (global c) <? limit)) eqn:Q; [discriminate |].
  split; [exact T |]. split; [exact A |].
  exists limit. split; [reflexivity |]. split; [exact P |].
  intro L. apply andb_false_iff in Q. destruct Q as [Q | Q].
  - apply Z.ltb_ge in Q. lia.
  - apply Z.ltb_ge in Q. exact Q.
Qed.

(** C7. A statement that selects a top() or bottom() call and has another
    selected field that is a call does not compile. More generally, when the
    fields of a statement have compiled with top() or bottom() among them and
    more than one function call recorded, validation and with it compilation
    fail with the selector-conflict error, and so does a second top() or
    bottom() call where it is met. The call compiles only when its last
    argument is an integer literal above zero that does not exceed a positive
    LIMIT of the statement; and a last argument above a positive LIMIT is
    refused with the error that names both limits. *)
Theorem top_bottom_restrictions :
  (forall c s,
     selectsTopBottom (influxql.Fields s) ->
     (2 <= List.length (callFields s))%nat ->
     fails (compile c s)) /\
  (forall c s c1,
     TopBottomFunction c = "" ->
     compileFields c s = Ok c1 ->
     TopBottomFunction c1 <> "" ->
     1 < len (FunctionCalls c1) ->
     validateFields c1 = Err (selectorConflict (TopBottomFunction c1)) /\
     compile c s = Err (selectorConflict (TopBottomFunction c1))) /\
  (forall c name args,
     TopBottomFunction (global c) <> "" ->
     compileTopBottom c name args = Err (selectorConflict (TopBottomFunction (global c)))) /\
  (forall c name args c',
     compileTopBottom c name args = Ok c' ->
     exists limit,
       last args influxql.NilLiteral = influxql.IntegerLiteral limit /\ 0 < limit /\
       (0 < Limit (global c) -> limit <= Limit (global c))) /\
  (forall c name args limit,
     TopBottomFunction (global c) = "" ->
     2 <= len args ->
     last args influxql.NilLiteral = influxql.IntegerLiteral limit ->
     0 < Limit (global c) ->
     Limit (global c) < limit ->
     compileTopBottom c name args =
     Err (fmt_Errorf "limit (%d) in %s function can not be larger than the LIMIT (%d) in the select statement"
            [ArgInt limit; ArgString name; ArgInt (Limit (global c))])).
Proof.
  split; [| split; [| split; [| split]]].
  - intros c s U N c' E. rewrite compile_unfold in E.
    apply bind_Ok in E; destruct E as [c1 [E1 E]].
    apply bind_Ok in E; destruct E as [u [V _]].
    unfold compileFields in E1.
    destruct (compileFieldList_calls _ _ _ E1) as [Calls [_ Named]].
    specialize (Named U). unfold callFields in N.
    unfold validateFields in V.
    destruct (len (Fields c1) =? 0); [discriminate |].
    assert (Many : (1 <? len (FunctionCalls c1)) = true)
      by (apply Z.ltb_lt; unfold len; lia).
    assert (Set_ : negb (String.eqb (TopBottomFunction c1) "") = true).
    { apply negb_true_iff. apply String.eqb_neq. exact Named. }
    rewrite Many, Set_ in V. discriminate.
  - intros c s c1 T0 E T1 N.
    assert (V : validateFields c1 = Err (selectorConflict (TopBottomFunction c1))).
    { destruct (compileFields_cases _ _ _ E) as [L | [_ [_ [T _]]]]; [| congruence].
      unfold validateFields. rewrite (validateFields_some_fields _ L).
      apply Z.ltb_lt in N. rewrite N.
      destruct (String.eqb (TopBottomFunction c1) "") eqn:T; [| reflexivity].
      apply String.eqb_eq in T. contradiction. }
    split; [exact V |]. rewrite compile_unfold, E. simpl. rewrite V. reflexivity.
  - intros c name args T. unfold compileTopBottom.
    destruct (String.eqb (TopBottomFunction (global c)) "") eqn:E; [| reflexivity].
    apply String.eqb_eq in E. contradiction.
  - intros c name args c' E.
    destruct (compileTopBottom_Ok _ _ _ _ E) as [_ [_ R]]. exact R.
  - intros c name args limit T A L P Q. unfold compileTopBottom.
    rewrite T. simpl.
    assert (A' : (len args <? 2) = false) by (apply Z.ltb_ge; exact A). rewrite A'.
    rewrite L.
    assert (P' : (limit <=? 0) = false) by (apply Z.leb_gt; lia). rewrite P'.
    assert (Q1 : (0 <? Limit (global c)) = true) by (apply Z.ltb_lt; exact P).
    assert (Q2 : (Limit (global c) <? limit) = true) by (apply Z.ltb_lt; exact Q).
    rewrite Q1, Q2. reflexivity.
Qed.

Lemma durationArg_positive e d : 0 < d -> durationArg e (influxql.DurationLiteral d) = Ok tt.
Proof.
  intro P. unfold durationArg.
  assert (E : (d <=? 0) = false) by (apply Z.leb_gt; exact P). now rewrite E.
Qed.

Lemma compileDerivative_shape rec c arg0 rest b :
  derivativeRest rest ->
  compileDerivative rec c (arg0 :: rest) b =
  callOrSymbol rec (on_global (set_OnlySelectors false) c) (derivativeName b)
    (fmt_Errorf "%s aggregate requires a GROUP BY interval" [ArgString (derivativeName b)])
    (fmt_Errorf "aggregate function required inside the call to %s" [ArgString (derivativeName b)])
    arg0.
Proof.
  intros [-> | [d [-> P]]]; unfold compileDerivative, derivativeName.
  - reflexivity.
  - rewrite (durationArg_positive _ _ P). reflexivity.
Qed.

(** C8. derivative() and non_negative_derivative() take a nested call as first
    argument only under a grouping interval and a symbol only without one:
    a call compiles only if the statement's interval is not zero, anything
    else only if it is zero, and with well-formed arguments the two
    mismatches are the errors that ask for a GROUP BY interval and for an
    aggregate function inside the call. *)
Theorem derivative_first_argument (c : receiver) (name : string) (arg0 : influxql.Expr)
    (rest : list influxql.Expr) :
  name = "derivative" \/ name = "non_negative_derivative" ->
  (forall c',
     compileExpr c (influxql.Call name (arg0 :: rest)) = Ok c' ->
     query.IsZero (Interval (global c)) = negb (isCall arg0)) /\
  (derivativeRest rest ->
   isCall arg0 = true ->
   query.IsZero (Interval (global c)) = true ->
   compileExpr c (influxql.Call name (arg0 :: rest)) =
   Err (fmt_Errorf "%s aggregate requires a GROUP BY interval" [ArgString name])) /\
  (derivativeRest rest ->
   isCall arg0 = false ->
   query.IsZero (Interval (global c)) = false ->
   compileExpr c (influxql.Call name (arg0 :: rest)) =
   Err (fmt_Errorf "aggregate function required inside the call to %s" [ArgString name])).
Proof.
  intro N.
  set (c1 := on_global (fun g => set_FunctionCalls
                 (FunctionCalls g ++ [influxql.Call name (arg0 :: rest)]) g) c).
  assert (U : compileExpr c (influxql.Call name (arg0 :: rest)) =
              compileDerivative compileExpr c1 (arg0 :: rest)
                (String.eqb name "non_negative_derivative")).
  { destruct N as [-> | ->]; reflexivity. }
  assert (B : derivativeName (String.eqb name "non_negative_derivative") = name).
  { destruct N as [-> | ->]; reflexivity. }
  assert (I : Interval (global (on_global (set_OnlySelectors false) c1)) = Interval (global c)).
  { unfold c1; destruct c as [g t]; destruct g; reflexivity. }
  rewrite U. repeat split.
  - intros c' E. unfold compileDerivative in E.
    assert (E' : callOrSymbol compileExpr (on_global (set_OnlySelectors false) c1)
                   (derivativeName (String.eqb name "non_negative_derivative"))
                   (fmt_Errorf "%s aggregate requires a GROUP BY interval"
                      [ArgString (derivativeName (String.eqb name "non_negative_derivative"))])
                   (fmt_Errorf "aggregate function required inside the call to %s"
                      [ArgString (derivativeName (String.eqb name "non_negative_derivative"))])
                   arg0 = Ok c').
    { destruct rest as [| a1 [| a2 rest]]; [exact E | | discriminate].
      apply bind_Ok in E; destruct E as [u [_ E]]. exact E. }
    unfold callOrSymbol in E'. rewrite I in E'.
    destruct (query.IsZero (Interval (global c))); destruct arg0; simpl in *;
      try discriminate; reflexivity.
  - intros R C Z. rewrite (compileDerivative_shape _ _ _ _ _ R), B.
    unfold callOrSymbol. rewrite I, Z. destruct arg0; try discriminate. reflexivity.
  - intros R C Z. rewrite (compileDerivative_shape _ _ _ _ _ R), B.
    unfold callOrSymbol. rewrite I, Z. destruct arg0; try discriminate; reflexivity.
Qed.

End Selectors.

(** ** Dimensions *)

Section DimensionRules.

Context `{Collaborators}.

Lemma set_Offset_Duration v c : query.Duration (Interval (set_Offset v c)) = query.Duration (Interval c).
Proof. destruct c; reflexivity. Qed.

Lemma set_Duration_Duration v c : query.Duration (Interval (set_Duration v c)) = v.
Proof. destruct c; reflexivity. Qed.

Lemma compileOffset_Duration c s arg1 c' :
  compileOffset c s arg1 = Ok c' ->
  query.Duration (Interval c') = query.Duration (Interval c).
Proof.
  unfold compileOffset; intro E; destruct arg1; outcome_cases; apply set_Offset_Duration.
Qed.

(** What a call among the dimensions has to look like to compile. *)
Lemma compileDimension_call c s d name args c' :
  influxql.dim_Expr d = influxql.Call name args ->
  compileDimension c s d = Ok c' ->
  name = "time" /\ (len args = 1 \/ len args = 2) /\
  exists v, hd influxql.NilLiteral args = influxql.DurationLiteral v /\
            query.Duration (Interval c) = 0 /\
            query.Duration (Interval c') = v.
Proof.
  unfold compileDimension; intros D E. rewrite D in E.
  destruct (String.eqb name "time") eqn:N; simpl in E; [| discriminate].
  apply String.eqb_eq in N.
  destruct ((len args <? 1) || (2 <? len args)) eqn:A; [discriminate |].
  apply orb_false_iff in A. destruct A as [A1 A2].
  apply Z.ltb_ge in A1. apply Z.ltb_ge in A2.
  destruct (hd influxql.NilLiteral args) as [| | | | v | | | | | | | | | | |]; try discriminate.
  destruct (query.Duration (Interval c) =? 0) eqn:Z; simpl in E; [| discriminate].
  apply Z.eqb_eq in Z.
  split; [exact N |]. split; [lia |].
  exists v. split; [reflexivity |]. split; [exact Z |].
  destruct (len args =? 2).
  - apply compileOffset_Duration in E. rewrite E. apply set_Duration_Duration.
  - inversion E; subst. apply set_Duration_Duration.
Qed.

(** A dimension that compiles keeps an interval that was already there. *)
Lemma compileDimension_keeps_interval c s d c' :
  query.Duration (Interval c) <> 0 ->
  compileDimension c s d = Ok c' ->
  c' = c /\ isCall (influxql.dim_Expr d) = false.
Proof.
  intros Z E. destruct (influxql.dim_Expr d) eqn:D;
    try (unfold compileDimension in E; rewrite D in E; outcome_cases; split; reflexivity).
  destruct (compileDimension_call _ _ _ _ _ _ D E) as [_ [_ [v [_ [Z' _]]]]]. contradiction.
Qed.


Lemma compileDimensionList_app s l1 : forall c l2,
  compileDimensionList c s (l1 ++ l2) =
  (c1 <- compileDimensionList c s l1 ;; compileDimensionList c1 s l2).
Proof.
  induction l1 as [| d rest IH]; intros c l2; simpl; [reflexivity |].
  destruct (compileDimension c s d); simpl; [apply IH | reflexivity | reflexivity].
Qed.



End DimensionRules.

(** A reference is compared with [time] in lower case, rune by rune: the
    capital I with a dot above (U+0130, the bytes 196 and 176) is i in lower
    case, so that GROUP BY "T\u0130ME" is refused like GROUP BY "TIME". *)
Lemma dotted_capital_I_is_lowered :
  strings_ToLower (String "T" (String "196" (String "176" "ME"))) = "time" /\
  forall (H : Collaborators) c s,
    compileDimension c s (groupBy (ref (String "T" (String "196" (String "176" "ME"))))) =
    Err (errors_New "time() is a function and expects at least one argument").
Proof.
  split; [vm_compute; reflexivity |].
  intros H c s. unfold compileDimension. cbn [groupBy influxql.dim_Expr ref].
  replace (strings_ToLower (String "T" (String "196" (String "176" "ME")))) with "time"
    by (vm_compute; reflexivity).
  reflexivity.
Qed.

(** ** Preprocessing *)

Section TimeBounds.

Context `{Collaborators}.

Lemma set_Interval_same c : set_Interval (Interval c) c = c.
Proof. destruct c; reflexivity. Qed.

Lemma set_Interval_twice i j c : set_Interval i (set_Interval j c) = set_Interval i c.
Proof. destruct c; reflexivity. Qed.

Lemma Interval_set_Interval i c : Interval (set_Interval i c) = i.
Proof. destruct c; reflexivity. Qed.

Lemma compileOffset_assigns c s arg1 c' :
  compileOffset c s arg1 = Ok c' -> c' = set_Interval (Interval c') c.
Proof.
  unfold compileOffset, set_Offset; intro E; destruct arg1; outcome_cases;
    now rewrite Interval_set_Interval.
Qed.

(** The dimensions assign the interval and nothing else. *)
Lemma compileDimension_assigns c s d c' :
  compileDimension c s d = Ok c' -> c' = set_Interval (Interval c') c.
Proof.
  unfold compileDimension; intro E.
  destruct (influxql.dim_Expr d); outcome_cases;
    try (symmetry; apply set_Interval_same).
  - apply compileOffset_assigns in E. rewrite E at 1.
    unfold set_Duration. now rewrite set_Interval_twice.
  - unfold set_Duration. now rewrite Interval_set_Interval.
Qed.

Lemma compileDimensionList_assigns s ds : forall c c',
  compileDimensionList c s ds = Ok c' -> c' = set_Interval (Interval c') c.
Proof.
  induction ds as [| d rest IH]; intros c c' E; simpl in E.
  - inversion E; subst. symmetry; apply set_Interval_same.
  - apply bind_Ok in E; destruct E as [c1 [E1 E]].
    apply compileDimension_assigns in E1. apply IH in E.
    rewrite E at 1. rewrite E1. now rewrite set_Interval_twice.
Qed.

(** From no interval, the dimensions end with one exactly when the statement
    declares one. *)
Lemma compileDimensionList_declared s ds : forall c c',
  compileDimensionList c s ds = Ok c' ->
  query.Duration (Interval c) = 0 ->
  (query.Duration (Interval c') <> 0 <->
   exists d args v,
     In d ds /\ influxql.dim_Expr d = influxql.Call "time" args /\
     hd influxql.NilLiteral args = influxql.DurationLiteral v /\ v <> 0).
Proof.
  induction ds as [| d0 rest IH]; intros c c' E Z; simpl in E.
  - inversion E; subst. split; [intro N; contradiction | intros [d [args [v [[] _]]]]].
  - apply bind_Ok in E; destruct E as [c1 [E1 E]].
    destruct (Z.eq_dec (query.Duration (Interval c1)) 0) as [Z1 | Z1].
    + rewrite (IH _ _ E Z1). split.
      * intros [d [args [v [I R]]]]. exists d, args, v. split; [right; exact I | exact R].
      * intros [d [args [v [[-> | I] [D [V N]]]]]].
        -- destruct (compileDimension_call _ _ _ _ _ _ D E1) as [_ [_ [v' [V' [_ Z']]]]].
           rewrite V in V'. inversion V'; subst v'. congruence.
        -- exists d, args, v. auto.
    + assert (K : query.Duration (Interval c') = query.Duration (Interval c1)).
      { clear - E Z1. revert c1 E Z1. induction rest as [| d rest IH]; intros c1 E Z1; simpl in E.
        - now inversion E.
        - apply bind_Ok in E; destruct E as [c2 [E2 E]].
          destruct (compileDimension_keeps_interval _ _ _ _ Z1 E2) as [-> _].
          now apply IH. }
      split; [intros _ | intros _; congruence].
      destruct (influxql.dim_Expr d0)
        as [? ? ? | ? | name args | ? | ? | ? | ? | | ? | ? | ? | ? | ? | ? | ? ? | ?] eqn:D;
        try (unfold compileDimension in E1; rewrite D in E1; outcome_cases; contradiction).
      destruct (compileDimension_call _ _ _ _ _ _ D E1) as [N [_ [v [V [_ Z']]]]].
      subst name. exists d0, args, v. split; [left; reflexivity |].
      split; [exact D |]. split; [exact V | congruence].
Qed.

Lemma preprocess_Ok c s c' :
  preprocess c s = Ok c' ->
  exists cond t cd,
    ConditionExpr (influxql.Condition s)
      {| influxql.Now_ := Now (Options c); influxql.Location_ := influxql.Loc s |} = Ok (cond, t) /\
    compileDimensionList
      (set_TimeRange t (set_Condition cond
         (set_HasTarget (match influxql.Target s with Some _ => true | None => false end)
            (set_Limit (influxql.Limit s) (set_Ascending (influxql.TimeAscending s) c)))))
      s (influxql.Dimensions s) = Ok cd /\
    TimeRange cd = t /\ Options cd = Options c /\
    c' = resolveTimeRange (set_FillOption (influxql.Fill s) cd).
Proof.
  unfold preprocess; intro E.
  apply bind_Ok in E; destruct E as [[cond t] [E1 E]].
  apply bind_Ok in E; destruct E as [cd [E2 E]].
  inversion E; subst; clear E. simpl in E2.
  exists cond, t, cd.
  replace (Options (set_HasTarget _ _)) with (Options c) in E1 by (destruct c; reflexivity).
  split; [exact E1 |]. unfold compileDimensions in E2. split; [exact E2 |].
  pose proof (compileDimensionList_assigns _ _ _ _ E2) as A.
  split; [rewrite A; destruct c; reflexivity |].
  split; [rewrite A; destruct c; reflexivity | reflexivity].
Qed.

Lemma resolveTimeRange_bounds c :
  influxql.Min (TimeRange (resolveTimeRange c)) =
    (if time_IsZero (influxql.Min (TimeRange c)) then time_Unix 0 influxql.MinTime
     else influxql.Min (TimeRange c)) /\
  influxql.Max (TimeRange (resolveTimeRange c)) =
    (if time_IsZero (influxql.Max (TimeRange c)) then
       if query.IsZero (Interval c) then time_Unix 0 influxql.MaxTime else Now (Options c)
     else influxql.Max (TimeRange c)) /\
  Interval (resolveTimeRange c) = Interval c /\
  FillOption (resolveTimeRange c) = FillOption c /\
  Options (resolveTimeRange c) = Options c.
Proof.
  unfold resolveTimeRange. destruct c as [? [lo hi] [dur off] ? ? ? ? ? ? ? ? ? ? ? ? ? ?]; simpl.
  destruct (time_IsZero lo); simpl; destruct (time_IsZero hi); simpl;
    unfold query.IsZero; simpl; destruct (dur =? 0); simpl; auto.
Qed.

(** C3. When [preprocess] succeeds on a statement compiled from no interval,
    an upper bound that the condition does not give becomes the compiler's
    [Now] if the statement declares a grouping interval and the largest
    timestamp if it does not, a lower bound that the condition does not give
    becomes the smallest timestamp, and a bound that the condition gives is
    kept. *)
Theorem preprocess_resolves_bounds (c : compiledStatement) (s : influxql.SelectStatement)
    (c' : compiledStatement) :
  query.Duration (Interval c) = 0 ->
  preprocess c s = Ok c' ->
  exists cond t,
    ConditionExpr (influxql.Condition s)
      {| influxql.Now_ := Now (Options c); influxql.Location_ := influxql.Loc s |} = Ok (cond, t) /\
    (time_IsZero (influxql.Max t) = true ->
     (declaresInterval s -> influxql.Max (TimeRange c') = Now (Options c)) /\
     (~ declaresInterval s -> influxql.Max (TimeRange c') = time_Unix 0 influxql.MaxTime)) /\
    (time_IsZero (influxql.Max t) = false -> influxql.Max (TimeRange c') = influxql.Max t) /\
    (time_IsZero (influxql.Min t) = true ->
     influxql.Min (TimeRange c') = time_Unix 0 influxql.MinTime) /\
    (time_IsZero (influxql.Min t) = false -> influxql.Min (TimeRange c') = influxql.Min t).
Proof.
  intros Z E.
  destruct (preprocess_Ok _ _ _ E) as [cond [t [cd [E1 [E2 [T [O ->]]]]]]].
  exists cond, t. split; [exact E1 |].
  destruct (resolveTimeRange_bounds (set_FillOption (influxql.Fill s) cd)) as [Lo [Hi _]].
  replace (TimeRange (set_FillOption (influxql.Fill s) cd)) with t in * by (destruct cd; simpl in *; congruence).
  replace (Interval (set_FillOption (influxql.Fill s) cd)) with (Interval cd) in * by (destruct cd; reflexivity).
  replace (Options (set_FillOption (influxql.Fill s) cd)) with (Options c) in * by (destruct cd; simpl in *; congruence).
  assert (D : query.Duration (Interval cd) <> 0 <-> declaresInterval s).
  { apply (compileDimensionList_declared _ _ _ _ E2). destruct c; exact Z. }
  rewrite Lo, Hi. split; [| split; [| split]].
  - intro NoUpper. rewrite NoUpper. unfold query.IsZero. split; intro Dec.
    + apply D in Dec. apply Z.eqb_neq in Dec. now rewrite Dec.
    + destruct (query.Duration (Interval cd) =? 0) eqn:Q; [reflexivity |].
      apply Z.eqb_neq in Q. apply D in Q. contradiction.
  - intro N. now rewrite N.
  - intro N. now rewrite N.
  - intro N. now rewrite N.
Qed.

End TimeBounds.

(** ** Subqueries *)

Section Subqueries.

Context `{Collaborators}.

Lemma newCompiler_Interval opt : query.Duration (Interval (newCompiler opt)) = 0.
Proof. reflexivity. Qed.

Lemma subqueryContext_Ok c s sub :
  subqueryContext c s = Ok sub ->
  exists own,
    preprocess (newCompiler (Options c)) s = Ok own /\
    TimeRange sub = influxql.Intersect (TimeRange own) (TimeRange c) /\
    FillOption sub =
      (if negb (query.IsZero (Interval own)) && isNullFill (FillOption own)
       then influxql.NoFill else FillOption own).
Proof.
  unfold subqueryContext; intro E.
  apply bind_Ok in E; destruct E as [own [P E]].
  destruct (_ && _) in E; [discriminate |].
  inversion E; subst; clear E. exists own. split; [exact P |].
  replace (Interval (set_TimeRange _ (set_Ascending (Ascending c) own))) with (Interval own)
    by (destruct own; reflexivity).
  replace (FillOption (set_TimeRange _ (set_Ascending (Ascending c) own))) with (FillOption own)
    by (destruct own; reflexivity).
  fold (isNullFill (FillOption own)).
  destruct (negb (query.IsZero (Interval own)) && isNullFill (FillOption own));
    destruct (negb (query.IsZero (Interval c)) && _);
    destruct own; simpl; auto.
Qed.

Lemma subquery_Ok c s sub' :
  subquery c s = Ok sub' ->
  exists sub, subqueryContext c s = Ok sub /\ sameContext sub sub'.
Proof.
  unfold subquery; intro E. apply bind_Ok in E; destruct E as [sub [E1 E]].
  exists sub. split; [exact E1 | eapply compile_sameContext; exact E].
Qed.

(** The state of a subquery, taken before or after its fields are compiled. *)
Lemma subquery_states c s sub :
  subqueryContext c s = Ok sub \/ subquery c s = Ok sub ->
  exists sub0, subqueryContext c s = Ok sub0 /\ sameContext sub0 sub.
Proof.
  intros [E | E].
  - exists sub. split; [exact E | apply sameContext_refl].
  - apply subquery_Ok; exact E.
Qed.

Lemma preprocess_FillOption c s c' :
  preprocess c s = Ok c' -> FillOption c' = influxql.Fill s.
Proof.
  intro E. destruct (preprocess_Ok _ _ _ E) as [cond [t [cd [_ [_ [_ [_ ->]]]]]]].
  destruct (resolveTimeRange_bounds (set_FillOption (influxql.Fill s) cd)) as [_ [_ [_ [F _]]]].
  rewrite F. destruct cd; reflexivity.
Qed.

Lemma preprocess_declared c s c' :
  query.Duration (Interval c) = 0 ->
  preprocess c s = Ok c' ->
  (query.IsZero (Interval c') = false <-> declaresInterval s).
Proof.
  intros Z E. destruct (preprocess_Ok _ _ _ E) as [cond [t [cd [_ [E2 [_ [_ ->]]]]]]].
  destruct (resolveTimeRange_bounds (set_FillOption (influxql.Fill s) cd)) as [_ [_ [I _]]].
  rewrite I.
  replace (Interval (set_FillOption (influxql.Fill s) cd)) with (Interval cd) by (destruct cd; reflexivity).
  unfold query.IsZero. rewrite Z.eqb_neq.
  apply (compileDimensionList_declared _ _ _ _ E2). destruct c; exact Z.
Qed.

(** C2, as the code has it. The fill option of a subquery, when [subquery]
    turns to its fields and when it has compiled them, is "no fill" if the
    subquery asks to fill with null and declares a grouping interval of its
    own, and the statement's own fill option in every other case. *)
Theorem subquery_fill_option (c : compiledStatement) (s : influxql.SelectStatement)
    (sub : compiledStatement) :
  subqueryContext c s = Ok sub \/ subquery c s = Ok sub ->
  (influxql.Fill s = influxql.NullFill -> declaresInterval s ->
   FillOption sub = influxql.NoFill) /\
  (~ (influxql.Fill s = influxql.NullFill /\ declaresInterval s) ->
   FillOption sub = influxql.Fill s).
Proof.
  intro E. destruct (subquery_states _ _ _ E) as [sub0 [E0 S]].
  destruct (subqueryContext_Ok _ _ _ E0) as [own [P [_ F]]].
  rewrite (same_FillOption _ _ S), F, (preprocess_FillOption _ _ _ P).
  pose proof (preprocess_declared _ _ _ (newCompiler_Interval (Options c)) P) as D.
  split.
  - intros N Dec. apply D in Dec. rewrite Dec, N. reflexivity.
  - intro N. destruct (query.IsZero (Interval own)) eqn:Z; simpl; [reflexivity |].
    destruct (influxql.Fill s) eqn:Fl; simpl; try reflexivity.
    exfalso. apply N. split; [reflexivity | apply D; reflexivity].
Qed.

Lemma time_Unix_MinTime_not_zero : time_IsZero (time_Unix 0 influxql.MinTime) = false.
Proof. reflexivity. Qed.

Lemma preprocess_Min_not_zero c s c' :
  preprocess c s = Ok c' -> time_IsZero (influxql.Min (TimeRange c')) = false.
Proof.
  intro E. destruct (preprocess_Ok _ _ _ E) as [cond [t [cd [_ [_ [_ [_ ->]]]]]]].
  destruct (resolveTimeRange_bounds (set_FillOption (influxql.Fill s) cd)) as [Lo _].
  rewrite Lo. destruct (time_IsZero (influxql.Min _)) eqn:Z; [reflexivity | exact Z].
Qed.

(** The top-level statement is such a parent: with a now that is not the zero
    Time, preprocessing leaves both bounds resolved, and compiling the fields
    does not touch them. *)
Lemma preprocess_Max_not_zero c s c' :
  time_IsZero (Now (Options c)) = false ->
  preprocess c s = Ok c' -> time_IsZero (influxql.Max (TimeRange c')) = false.
Proof.
  intros N E. destruct (preprocess_Ok _ _ _ E) as [cond [t [cd [_ [_ [_ [O ->]]]]]]].
  destruct (resolveTimeRange_bounds (set_FillOption (influxql.Fill s) cd)) as [_ [Hi _]].
  rewrite Hi.
  replace (Options (set_FillOption (influxql.Fill s) cd)) with (Options c)
    by (destruct cd; simpl in *; congruence).
  destruct (time_IsZero (influxql.Max _)) eqn:Z; [| exact Z].
  destruct (query.IsZero _); [reflexivity | exact N].
Qed.

Lemma newCompiler_Now opt :
  time_IsZero time_Now = false -> time_IsZero (Now (Options (newCompiler opt))) = false.
Proof.
  intro W. unfold newCompiler; simpl.
  destruct (time_IsZero (Now opt)) eqn:Z; [exact W | exact Z].
Qed.

(** C5. Under a parent whose time range is resolved, the time range of a
    subquery, when [subquery] turns to its fields and when it has compiled
    them, is its own resolved range met with the parent's: it lies
    inside the parent's range on both sides, its lower bound is the later of
    the two lower bounds and its upper bound the earlier of the two upper
    bounds; it is resolved in turn, so the same holds below it. *)
Theorem subquery_range_within_parent (c : compiledStatement) (s : influxql.SelectStatement)
    (sub : compiledStatement) :
  time_IsZero (influxql.Min (TimeRange c)) = false ->
  time_IsZero (influxql.Max (TimeRange c)) = false ->
  subqueryContext c s = Ok sub \/ subquery c s = Ok sub ->
  exists own,
    preprocess (newCompiler (Options c)) s = Ok own /\
    TimeRange sub = influxql.Intersect (TimeRange own) (TimeRange c) /\
    influxql.Min (TimeRange c) <= influxql.Min (TimeRange sub) /\
    influxql.Max (TimeRange sub) <= influxql.Max (TimeRange c) /\
    influxql.Min (TimeRange sub) = Z.max (influxql.Min (TimeRange own)) (influxql.Min (TimeRange c)) /\
    (time_IsZero (influxql.Max (TimeRange own)) = false ->
     influxql.Max (TimeRange sub) = Z.min (influxql.Max (TimeRange own)) (influxql.Max (TimeRange c))) /\
    time_IsZero (influxql.Min (TimeRange sub)) = false /\
    time_IsZero (influxql.Max (TimeRange sub)) = false.
Proof.
  intros Lo Hi E. destruct (subquery_states _ _ _ E) as [sub0 [E0 S]].
  destruct (subqueryContext_Ok _ _ _ E0) as [own [P [T _]]].
  exists own. split; [exact P |].
  rewrite (same_TimeRange _ _ S), T. split; [reflexivity |].
  pose proof (preprocess_Min_not_zero _ _ _ P) as OwnLo.
  unfold influxql.Intersect; simpl. rewrite Lo, Hi, OwnLo. simpl.
  unfold time_After, time_Before, time_IsZero in *.
  destruct (influxql.Min (TimeRange own) <? influxql.Min (TimeRange c)) eqn:A;
    destruct (influxql.Max (TimeRange own) =? 0) eqn:Z; simpl;
    destruct (influxql.Max (TimeRange c) <? influxql.Max (TimeRange own)) eqn:B;
    repeat match goal with
      | Q : (_ <? _) = true |- _ => apply Z.ltb_lt in Q
      | Q : (_ <? _) = false |- _ => apply Z.ltb_ge in Q
      | Q : (_ =? _) = true |- _ => apply Z.eqb_eq in Q
      | Q : (_ =? _) = false |- _ => apply Z.eqb_neq in Q
      end;
    repeat split; try lia; try (intro; lia);
    try (apply Z.eqb_neq; lia).
Qed.

End Subqueries.

(** ** Planning *)

Lemma wrap64_id (z : Z) : in_int64 z -> wrap64 z = z.
Proof.
  unfold in_int64, math_MinInt64, math_MaxInt64, wrap64; intro B.
  rewrite Z.mod_small; lia.
Qed.

(** The difference between a timestamp after the epoch and the smallest
    timestamp does not fit in 64 bits: the source's [maxDiff] is negative. *)
Lemma maxDiff_after_epoch (last : Z) :
  2 <= last <= math_MaxInt64 -> wrap64 (last - models.MinNanoTime) = last - 2 ^ 63 - 2.
Proof.
  unfold models.MinNanoTime, math_MinInt64, math_MaxInt64, wrap64; intro B.
  replace (last - (- 2 ^ 63 + 2) + 2 ^ 63) with (last - 2 + 1 * 2 ^ 64) by lia.
  rewrite Z.mod_add by lia. rewrite Z.mod_small; lia.
Qed.

Lemma maxDiff_before_epoch (last : Z) :
  models.MinNanoTime <= last <= 1 -> wrap64 (last - models.MinNanoTime) = last - models.MinNanoTime.
Proof.
  intro B. apply wrap64_id.
  unfold in_int64, models.MinNanoTime, math_MinInt64, math_MaxInt64 in *. lia.
Qed.





(** What [windowsBetween] counts: the windows that start at [first], one
    interval later, two intervals later, and so on up to [last]. *)
Lemma windowsBetween_counts (first last interval k : Z) :
  0 < interval ->
  (k < windowsBetween first last interval <-> first + k * interval <= last).
Proof.
  intro P. unfold windowsBetween.
  pose proof (Z.mul_div_le (last - first) interval P) as Lo.
  pose proof (Z.mul_succ_div_gt (last - first) interval P) as Hi.
  split; intro K; nia.
Qed.

Section BucketLimit.

Context `{Planner}.

(** The time range for mapping shards, as the first block of [Prepare]
    computes it for an aggregate query with a bucket limit, a positive
    interval and no lower bound: the smallest timestamp when the buckets
    since then are more than the limit, and [MaxBucketsN - 1] intervals before
    the last bucket otherwise. *)
Lemma shardTimeRange_unbounded c s sopt interval offset :
  0 < MaxBucketsN sopt ->
  influxql.IsRawQuery s = false ->
  influxql.MinTimeOf (TimeRange c) = influxql.MinTime ->
  GroupByInterval s = Ok interval ->
  GroupByOffset s = Ok offset ->
  0 < interval ->
  let opt := {| opt_Interval := {| query.Duration := interval; query.Offset := offset |};
                opt_Location := None; StartTime := 0; EndTime := 0; opt_Ascending := false |} in
  let last := fst (Window opt (wrap64 (influxql.MaxTimeOf (TimeRange c) - 1))) in
  let maxDiff := wrap64 (last - models.MinNanoTime) in
  shardTimeRange c s sopt =
  Ok {| influxql.Min :=
          if MaxBucketsN sopt <? Z.quot maxDiff interval
          then time_Unix 0 models.MinNanoTime
          else time_Unix 0 (wrap64 (last - wrap64 (interval * wrap64 (MaxBucketsN sopt - 1))));
        influxql.Max := influxql.Max (TimeRange c) |}.
Proof.
  intros N R M GI GO P opt last maxDiff. unfold shardTimeRange.
  apply Z.ltb_lt in N. apply Z.ltb_lt in P.
  rewrite N, R, M, Z.eqb_refl, GI, GO. simpl. rewrite P.
  fold opt. fold last. fold maxDiff.
  destruct (MaxBucketsN sopt <? Z.quot maxDiff interval); reflexivity.
Qed.




End BucketLimit.

(** ** The shard time range of an unbounded aggregate query *)

Section ShardRange.

Context `{Planner}.

Variables (c : compiledStatement) (s : influxql.SelectStatement) (sopt : SelectOptions).
Variables (interval offset : time_Duration).

Hypothesis limited : 0 < MaxBucketsN sopt.
Hypothesis aggregate : influxql.IsRawQuery s = false.
Hypothesis unbounded : influxql.MinTimeOf (TimeRange c) = influxql.MinTime.
Hypothesis hasInterval : GroupByInterval s = Ok interval.
Hypothesis hasOffset : GroupByOffset s = Ok offset.
Hypothesis positive : 0 < interval.

Let last : Z :=
  fst (Window {| opt_Interval := {| query.Duration := interval; query.Offset := offset |};
                 opt_Location := None; StartTime := 0; EndTime := 0; opt_Ascending := false |}
         (wrap64 (influxql.MaxTimeOf (TimeRange c) - 1))).

(** With the last bucket after the epoch the comparison is made on a wrapped,
    negative difference, and the lower bound is counted back from the last
    bucket. *)
Lemma shardTimeRange_after_epoch :
  2 <= last <= math_MaxInt64 ->
  shardTimeRange c s sopt =
  Ok {| influxql.Min := time_Unix 0 (wrap64 (last - wrap64 (interval * wrap64 (MaxBucketsN sopt - 1))));
        influxql.Max := influxql.Max (TimeRange c) |}.
Proof.
  intro B.
  rewrite (shardTimeRange_unbounded c s sopt interval offset limited aggregate unbounded
             hasInterval hasOffset positive).
  fold last. rewrite (maxDiff_after_epoch last B).
  assert (Q : Z.quot (last - 2 ^ 63 - 2) interval <= 0).
  { apply Z.quot_le_upper_bound; [exact positive |].
    unfold math_MaxInt64 in B. lia. }
  assert (E : (MaxBucketsN sopt <? Z.quot (last - 2 ^ 63 - 2) interval) = false)
    by (apply Z.ltb_ge; lia).
  rewrite E. reflexivity.
Qed.

(** With the last bucket at or before the epoch the difference is exact, and
    the lower bound stays at the smallest timestamp exactly when the buckets
    since then are more than the limit. *)
Lemma shardTimeRange_before_epoch :
  models.MinNanoTime <= last <= 1 ->
  MaxBucketsN sopt < Z.quot (last - models.MinNanoTime) interval ->
  shardTimeRange c s sopt =
  Ok {| influxql.Min := time_Unix 0 models.MinNanoTime;
        influxql.Max := influxql.Max (TimeRange c) |}.
Proof.
  intros B Q.
  rewrite (shardTimeRange_unbounded c s sopt interval offset limited aggregate unbounded
             hasInterval hasOffset positive).
  fold last. rewrite (maxDiff_before_epoch last B).
  apply Z.ltb_lt in Q. rewrite Q. reflexivity.
Qed.

End ShardRange.

(** * The properties on concrete statements *)


(** The shard mapper's first call, whatever the mapper answers. *)
Lemma Prepare_first_event (c : compiledStatement) (s : influxql.SelectStatement)
    (sopt : SelectOptions) (timeRange : influxql.TimeRange)
    (shardMapper : @ShardMapper sourcesPlanner) :
  stmt c = Some s ->
  @shardTimeRange sourcesPlanner c s sopt = Ok timeRange ->
  hd_error (snd (@Prepare sourcesPlanner c shardMapper sopt)) =
  Some (@MapShardsCalled sourcesPlanner (influxql.Sources s) timeRange sopt).
Proof.
  intros S R. unfold Prepare. rewrite S, R.
  destruct (MapShards shardMapper (influxql.Sources s) timeRange sopt) as [shards | e | msg];
    [| reflexivity | reflexivity].
  simpl.
  repeat match goal with
    | |- context [if ?b then _ else _] => destruct b
    | |- context [match ?x with _ => _ end] => destruct x
    end; reflexivity.
Qed.

(** C1. SELECT mean(value) FROM cpu WHERE time < '1969-01-01T00:00:00Z'
    GROUP BY time(10m) under a limit of 100 buckets: the buckets since the
    smallest timestamp are more than 100, and the shard mapper is still called
    with the smallest timestamp as lower bound, not with the start of the
    100th bucket counted back from the last one. *)
Theorem shard_range_not_narrowed_before_epoch :
  forall shardMapper : @ShardMapper sourcesPlanner,
  let sopt := {| MaxBucketsN := 100 |} in
  let last := -31536000 * 1000000000 - 10 * minute in
  @Compile before1969 tenMinuteMeans {| Now := newYear |} = Ok meansBefore1969 /\
  influxql.MinTimeOf (TimeRange meansBefore1969) = influxql.MinTime /\
  fst (windowOf {| opt_Interval := {| query.Duration := 10 * minute; query.Offset := 0 |};
                   opt_Location := None; StartTime := 0; EndTime := 0; opt_Ascending := false |}
         (influxql.MaxTimeOf (TimeRange meansBefore1969) - 1)) = last /\
  100 < Z.quot (last - models.MinNanoTime) (10 * minute) /\
  hd_error (snd (@Prepare sourcesPlanner meansBefore1969 shardMapper sopt)) =
    Some (@MapShardsCalled sourcesPlanner cpu
            {| influxql.Min := time_Unix 0 models.MinNanoTime;
               influxql.Max := time_Unix (-31536000) 0 - 1 |} sopt) /\
  time_Unix 0 models.MinNanoTime < time_Unix 0 (last - 10 * minute * (100 - 1)).
Proof.
  intros shardMapper sopt last.
  split; [vm_compute; reflexivity |].
  split; [vm_compute; reflexivity |]. split; [vm_compute; reflexivity |].
  split; [vm_compute; reflexivity |].
  split; [| vm_compute; reflexivity].
  apply (Prepare_first_event meansBefore1969 (influxql.withTimeAlias "time" tenMinuteMeans));
    vm_compute; reflexivity.
Qed.

(** Example 5 of the specification, first half: SELECT mean(value) FROM cpu
    GROUP BY time(10m) until [newYear] under a limit of 100 buckets is mapped
    to the last 1000 minutes. The lower bound is counted back from the last
    bucket because the difference to the smallest timestamp has wrapped. *)
Lemma shard_range_of_the_latest_buckets :
  forall shardMapper : @ShardMapper sourcesPlanner,
  hd_error (snd (@Prepare sourcesPlanner meansUntilNow shardMapper {| MaxBucketsN := 100 |})) =
  Some (@MapShardsCalled sourcesPlanner cpu
          {| influxql.Min := newYear - 1000 * minute; influxql.Max := newYear |}
          {| MaxBucketsN := 100 |}).
Proof.
  intro shardMapper.
  apply (Prepare_first_event meansUntilNow (influxql.withTimeAlias "time" tenMinuteMeans));
    vm_compute; reflexivity.
Qed.

(** SELECT mean(value) FROM cpu GROUP BY time(365d) until [newYear] under a
    limit of 1000 buckets: the 340 buckets since the smallest timestamp are
    within the limit, yet the lower bound handed to the shard mapper is not
    the smallest timestamp; the product of interval and limit has wrapped and
    the bound lies after the upper bound. *)
Lemma shard_range_of_yearly_buckets :
  forall shardMapper : @ShardMapper sourcesPlanner,
  let last := 1513728000 * 1000000000 in
  Z.quot (last - models.MinNanoTime) (365 * 24 * hour) = 340 /\
  hd_error (snd (@Prepare sourcesPlanner yearlyMeansUntilNow shardMapper {| MaxBucketsN := 1000 |})) =
  Some (@MapShardsCalled sourcesPlanner cpu
          {| influxql.Min := time_Unix 0 6902752147419103232; influxql.Max := newYear |}
          {| MaxBucketsN := 1000 |}) /\
  newYear < time_Unix 0 6902752147419103232.
Proof.
  intros shardMapper last.
  split; [vm_compute; reflexivity |]. split; [| vm_compute; reflexivity].
  apply (Prepare_first_event yearlyMeansUntilNow (influxql.withTimeAlias "time" yearlyMeans));
    vm_compute; reflexivity.
Qed.

Lemma tenMinuteMeans_declares : declaresInterval tenMinuteMeans.
Proof.
  exists (groupBy (timeDimension (10 * minute))), [influxql.DurationLiteral (10 * minute)], (10 * minute).
  split; [left; reflexivity |]. split; [reflexivity |]. split; [reflexivity | discriminate].
Qed.

Lemma means_declares_nothing : ~ declaresInterval means.
Proof. intros [d [args [v [[] _]]]]. Qed.

(** The subquery SELECT mean(value) FROM cpu GROUP BY time(10m) asks to fill
    with null and groups by time: it ends with "no fill". *)
Lemma subquery_fill_option_witness :
  @subquery plain outerPlain tenMinuteMeans = Ok innerTenMinuteMeans /\
  FillOption innerTenMinuteMeans = influxql.NoFill.
Proof.
  assert (E : @subquery plain outerPlain tenMinuteMeans = Ok innerTenMinuteMeans)
    by (vm_compute; reflexivity).
  split; [exact E |].
  apply (proj1 (@subquery_fill_option plain outerPlain tenMinuteMeans innerTenMinuteMeans
                  (or_intror E))).
  - reflexivity.
  - exact tenMinuteMeans_declares.
Defined.

(** The subquery SELECT mean(value) FROM cpu asks to fill with null and has
    no grouping interval: it keeps "fill with null". *)
Lemma null_fill_without_interval_is_kept :
  ~ (forall (H : Collaborators) c s sub,
       subquery c s = Ok sub ->
       (influxql.Fill s = influxql.NullFill -> ~ declaresInterval s ->
        FillOption sub = influxql.NoFill) /\
       (~ (influxql.Fill s = influxql.NullFill /\ ~ declaresInterval s) ->
        FillOption sub = influxql.Fill s)).
Proof.
  intro Claim.
  assert (E : @subquery plain outerPlain means = Ok innerMeans) by (vm_compute; reflexivity).
  destruct (Claim plain outerPlain means innerMeans E) as [Downgraded _].
  specialize (Downgraded eq_refl means_declares_nothing).
  vm_compute in Downgraded. discriminate Downgraded.
Qed.

(** Example 1 of the specification: SELECT mean(value) FROM cpu WHERE
    time > now() - 1h GROUP BY time(10m) has the compiler's now as upper bound
    and the bound of its condition as lower bound. *)
Lemma preprocess_resolves_bounds_witness :
  @preprocess lastHour (@newCompiler lastHour {| Now := 0 |}) tenMinuteMeans =
    Ok meansLastHourPreprocessed /\
  influxql.Max (TimeRange meansLastHourPreprocessed) = newYear /\
  influxql.Min (TimeRange meansLastHourPreprocessed) = newYear - hour + 1.
Proof.
  assert (E : @preprocess lastHour (@newCompiler lastHour {| Now := 0 |}) tenMinuteMeans =
              Ok meansLastHourPreprocessed) by (vm_compute; reflexivity).
  split; [exact E |].
  destruct (@preprocess_resolves_bounds lastHour (@newCompiler lastHour {| Now := 0 |})
              tenMinuteMeans meansLastHourPreprocessed eq_refl E)
    as [cond [t [C [NoUpper [_ [_ Lower]]]]]].
  assert (T : t = {| influxql.Min := newYear - hour + 1; influxql.Max := 0 |}).
  { vm_compute in C. inversion C. vm_compute. reflexivity. }
  subst t. split.
  - apply (proj1 (NoUpper eq_refl)). exact tenMinuteMeans_declares.
  - apply Lower. vm_compute. reflexivity.
Defined.



(** SELECT mean(value) FROM cpu WHERE time > now() - 1h GROUP BY time(-10m)
    is prepared under a limit of one bucket: its interval is not zero and
    its hour is six times as long, and no window is counted. *)
Lemma negative_interval_is_not_counted :
  Interval negativeMeansLastHour = {| query.Duration := - (10 * minute); query.Offset := 0 |} /\
  influxql.MaxTimeOf (TimeRange negativeMeansLastHour) -
    influxql.MinTimeOf (TimeRange negativeMeansLastHour) = hour - 1 /\
  exists p,
    @Prepare sourcesPlanner negativeMeansLastHour sourcesMapper {| MaxBucketsN := 1 |} =
    (Ok p, [@MapShardsCalled sourcesPlanner cpu (TimeRange negativeMeansLastHour)
              {| MaxBucketsN := 1 |}]).
Proof.
  split; [vm_compute; reflexivity |]. split; [vm_compute; reflexivity |].
  eexists. vm_compute. reflexivity.
Qed.

(** Under SELECT max(mean) FROM (SELECT mean(value) FROM cpu WHERE
    time > now() - 1h) WHERE time > now() - 1h GROUP BY time(10m) the
    subquery, which has no upper bound of its own, ends at the parent's. *)
Lemma subquery_range_within_parent_witness :
  @subquery lastHour outerLastHour means = Ok innerMeansLastHour /\
  TimeRange innerMeansLastHour = {| influxql.Min := newYear - hour + 1; influxql.Max := newYear |} /\
  influxql.Min (TimeRange outerLastHour) <= influxql.Min (TimeRange innerMeansLastHour) /\
  influxql.Max (TimeRange innerMeansLastHour) <= influxql.Max (TimeRange outerLastHour).
Proof.
  assert (E : @subquery lastHour outerLastHour means = Ok innerMeansLastHour)
    by (vm_compute; reflexivity).
  split; [exact E |]. split; [vm_compute; reflexivity |].
  destruct (@subquery_range_within_parent lastHour outerLastHour means innerMeansLastHour
              eq_refl eq_refl (or_intror E)) as [own [_ [_ [Lower [Upper _]]]]].
  split; [exact Lower | exact Upper].
Defined.

(** SELECT distinct(value) FROM cpu: one call, no auxiliary field, and the
    statement compiles. *)
Lemma distinct_stands_alone_witness :
  compileFields (@newCompiler plain {| Now := 0 |}) distinctValue = Ok distinctValueFields /\
  validateFields distinctValueFields = Ok tt /\
  @compile plain (@newCompiler plain {| Now := 0 |}) distinctValue = Ok distinctValueFields.
Proof.
  assert (E : compileFields (@newCompiler plain {| Now := 0 |}) distinctValue = Ok distinctValueFields)
    by (vm_compute; reflexivity).
  destruct (proj2 (proj2 (@distinct_stands_alone plain)) (@newCompiler plain {| Now := 0 |})
              distinctValue distinctValueFields eq_refl E eq_refl) as [V [_ C]].
  split; [exact E |]. split.
  - apply V. split; reflexivity.
  - apply C.
    + intros src [<- | []]. exists "cpu". reflexivity.
    + split; reflexivity.
Defined.

(** Example 2 of the specification: SELECT top(value, 3) FROM cpu LIMIT 2 is
    refused because 3 is above the LIMIT; and SELECT top(value, 3), max(value)
    FROM cpu is refused because top() stands next to another call. *)
Lemma top_bottom_restrictions_witness :
  compileTopBottom (firstField (influxql.Call "top" [ref "value"; influxql.IntegerLiteral 3]) 2)
    "top" [ref "value"; influxql.IntegerLiteral 3] =
  Err (fmt_Errorf "limit (%d) in %s function can not be larger than the LIMIT (%d) in the select statement"
         [ArgInt 3; ArgString "top"; ArgInt 2]) /\
  @Compile plain topThree {| Now := 0 |} =
  Err (fmt_Errorf "limit (%d) in %s function can not be larger than the LIMIT (%d) in the select statement"
         [ArgInt 3; ArgString "top"; ArgInt 2]) /\
  @compile plain (@newCompiler plain {| Now := 0 |}) topAndMax = Err (selectorConflict "top").
Proof.
  destruct (@top_bottom_restrictions plain) as [_ [Conflict [_ [_ AboveLimit]]]].
  split; [| split].
  - apply (AboveLimit (firstField (influxql.Call "top" [ref "value"; influxql.IntegerLiteral 3]) 2)
             "top" [ref "value"; influxql.IntegerLiteral 3] 3);
      first [reflexivity | vm_compute; discriminate].
  - vm_compute. reflexivity.
  - assert (E : compileFields (@newCompiler plain {| Now := 0 |}) topAndMax = Ok topAndMaxFields)
      by (vm_compute; reflexivity).
    refine (proj2 (Conflict (@newCompiler plain {| Now := 0 |}) topAndMax topAndMaxFields eq_refl E _ _)).
    + vm_compute. discriminate.
    + vm_compute. reflexivity.
Defined.

(** Example 3 of the specification: without a GROUP BY interval
    derivative(value) compiles and derivative(mean(value)) is refused. *)
Lemma derivative_first_argument_witness :
  is_Ok (compileExpr (firstField (influxql.Call "derivative" [ref "value"]) 0)
           (influxql.Call "derivative" [ref "value"])) = true /\
  compileExpr (firstField (influxql.Call "derivative" [influxql.Call "mean" [ref "value"]]) 0)
    (influxql.Call "derivative" [influxql.Call "mean" [ref "value"]]) =
  Err (fmt_Errorf "%s aggregate requires a GROUP BY interval" [ArgString "derivative"]).
Proof.
  split; [vm_compute; reflexivity |].
  apply (proj1 (proj2 (@derivative_first_argument
           (firstField (influxql.Call "derivative" [influxql.Call "mean" [ref "value"]]) 0)
           "derivative" (influxql.Call "mean" [ref "value"]) [] (or_introl eq_refl)))).
  - left; reflexivity.
  - reflexivity.
  - reflexivity.
Defined.



(** SELECT time FROM cpu compiles to no field and is refused. *)
Lemma time_field_is_dropped_witness :
  @compile plain (@newCompiler plain {| Now := 0 |}) onlyTime =
  Err (errors_New "at least 1 non-time field must be queried").
Proof.
  apply (proj2 (@time_field_is_dropped plain) (@newCompiler plain {| Now := 0 |}) onlyTime (field (ref "time")) influxql.Unknown);
    reflexivity.
Defined.

(** * Further properties of the compiler *)

(** ** The field under compilation and the selector mark *)

Lemma lowered_refl c : lowered c c.
Proof. constructor; auto. Qed.

Lemma lowered_trans c1 c2 c3 : lowered c1 c2 -> lowered c2 c3 -> lowered c1 c3.
Proof. intros [] []; constructor; [congruence | auto | auto]. Qed.

Lemma lowered_on_global f c :
  (OnlySelectors (global c) = false -> OnlySelectors (f (global c)) = false) ->
  lowered c (on_global f c).
Proof. intro M. constructor; simpl; auto. Qed.

Lemma lowered_set_OnlySelectors c : lowered c (on_global (set_OnlySelectors false) c).
Proof. apply lowered_on_global. intros _. destruct (global c); reflexivity. Qed.

Lemma lowered_set_HasDistinct c : lowered c (on_global (set_HasDistinct true) c).
Proof. apply lowered_on_global. destruct (global c); auto. Qed.

Lemma lowered_set_HasAuxiliaryFields c : lowered c (on_global (set_HasAuxiliaryFields true) c).
Proof. apply lowered_on_global. destruct (global c); auto. Qed.

Lemma lowered_set_TopBottomFunction name c : lowered c (on_global (set_TopBottomFunction name) c).
Proof. apply lowered_on_global. destruct (global c); auto. Qed.

Lemma lowered_append_call e c :
  lowered c (on_global (fun g => set_FunctionCalls (FunctionCalls g ++ [e]) g) c).
Proof. apply lowered_on_global. destruct (global c); auto. Qed.

Lemma lowered_set_AllowWildcard c : lowered c (set_AllowWildcard false c).
Proof. constructor; simpl; auto. Qed.

Ltac lowered_steps :=
  simpl;
  repeat first
    [ apply lowered_refl
    | apply lowered_set_OnlySelectors
    | apply lowered_set_HasDistinct
    | apply lowered_set_HasAuxiliaryFields
    | apply lowered_append_call
    | eapply lowered_trans; [ | solve [ apply lowered_set_OnlySelectors
                                      | apply lowered_set_HasDistinct
                                      | apply lowered_set_HasAuxiliaryFields ] ] ].

Lemma compileSymbol_lowered c name e c' :
  compileSymbol c name e = Ok c' -> lowered c c'.
Proof. unfold compileSymbol; intro H; outcome_cases; lowered_steps. Qed.

Lemma compileDistinct_lowered c args c' :
  compileDistinct c args = Ok c' -> lowered c c'.
Proof. unfold compileDistinct; intro H; outcome_cases; lowered_steps. Qed.

Lemma compileFunction_lowered c name args c' :
  compileFunction c name args = Ok c' -> lowered c c'.
Proof.
  unfold compileFunction; intro H.
  apply bind_Ok in H; destruct H as [c1 [H1 H]].
  assert (K1 : lowered c c1) by (outcome_cases; lowered_steps).
  apply lowered_trans with c1; [exact K1 |].
  outcome_cases;
    first [ eapply compileDistinct_lowered; eassumption
          | eapply compileSymbol_lowered; eassumption ].
Qed.

Lemma compilePercentile_lowered c args c' :
  compilePercentile c args = Ok c' -> lowered c c'.
Proof.
  unfold compilePercentile; intro H; outcome_cases; eapply compileSymbol_lowered; eassumption.
Qed.

Lemma compileSample_lowered c args c' :
  compileSample c args = Ok c' -> lowered c c'.
Proof.
  unfold compileSample; intro H; outcome_cases; eapply compileSymbol_lowered; eassumption.
Qed.

Lemma compileIntegral_lowered c args c' :
  compileIntegral c args = Ok c' -> lowered c c'.
Proof.
  unfold compileIntegral; intro H.
  destruct (_ || _); [discriminate |].
  apply bind_Ok in H; destruct H as [u [_ H]].
  apply compileSymbol_lowered in H.
  eapply lowered_trans; [apply lowered_set_OnlySelectors | exact H].
Qed.

Section NestedCallsLowered.

Variable rec : receiver -> influxql.Expr -> outcome receiver.

Lemma callOrSymbol_lowered c name e1 e2 arg0 c' :
  lowersMarks rec arg0 -> callOrSymbol rec c name e1 e2 arg0 = Ok c' -> lowered c c'.
Proof.
  unfold callOrSymbol; intros K H.
  destruct arg0; outcome_cases;
    first [ eapply compileSymbol_lowered; eassumption | eapply K; eassumption ].
Qed.

Lemma callOrSymbol_after_flag_lowered c name e1 e2 arg0 c' :
  lowersMarks rec arg0 ->
  callOrSymbol rec (on_global (set_OnlySelectors false) c) name e1 e2 arg0 = Ok c' ->
  lowered c c' /\ OnlySelectors (global c') = false.
Proof.
  intros K H. apply callOrSymbol_lowered in H; [| exact K].
  split.
  - eapply lowered_trans; [apply lowered_set_OnlySelectors | exact H].
  - apply (lowered_OnlySelectors _ _ H). simpl. destruct (global c); reflexivity.
Qed.

Lemma compileDerivative_lowered c args b c' :
  Forall (lowersMarks rec) args -> compileDerivative rec c args b = Ok c' ->
  lowered c c' /\ OnlySelectors (global c') = false.
Proof.
  unfold compileDerivative; intros F H.
  destruct args as [| a0 [| a1 [| a2 rest]]]; try discriminate;
    inversion F; subst; outcome_cases;
    eapply callOrSymbol_after_flag_lowered; eassumption.
Qed.

Lemma compileElapsed_lowered c args c' :
  Forall (lowersMarks rec) args -> compileElapsed rec c args = Ok c' ->
  lowered c c' /\ OnlySelectors (global c') = false.
Proof.
  unfold compileElapsed; intros F H.
  destruct args as [| a0 [| a1 [| a2 rest]]]; try discriminate;
    inversion F; subst; outcome_cases;
    eapply callOrSymbol_after_flag_lowered; eassumption.
Qed.

Lemma compileDifference_lowered c args b c' :
  Forall (lowersMarks rec) args -> compileDifference rec c args b = Ok c' ->
  lowered c c' /\ OnlySelectors (global c') = false.
Proof.
  unfold compileDifference; intros F H.
  destruct args as [| a0 [| a1 rest]]; try discriminate;
    inversion F; subst; eapply callOrSymbol_after_flag_lowered; eassumption.
Qed.

Lemma compileCumulativeSum_lowered c args c' :
  Forall (lowersMarks rec) args -> compileCumulativeSum rec c args = Ok c' ->
  lowered c c' /\ OnlySelectors (global c') = false.
Proof.
  unfold compileCumulativeSum; intros F H.
  destruct args as [| a0 [| a1 rest]]; try discriminate;
    inversion F; subst; eapply callOrSymbol_after_flag_lowered; eassumption.
Qed.

Lemma compileMovingAverage_lowered c args c' :
  Forall (lowersMarks rec) args -> compileMovingAverage rec c args = Ok c' ->
  lowered c c' /\ OnlySelectors (global c') = false.
Proof.
  unfold compileMovingAverage; intros F H.
  destruct args as [| a0 [| a1 [| a2 rest]]]; try discriminate.
  inversion F; subst. destruct a1; try discriminate.
  destruct (_ <=? 1); [discriminate |].
  eapply callOrSymbol_after_flag_lowered; eassumption.
Qed.

Lemma compileHoltWinters_lowered c args b c' :
  Forall (lowersMarks rec) args -> compileHoltWinters rec c args b = Ok c' ->
  lowered c c' /\ OnlySelectors (global c') = false.
Proof.
  unfold compileHoltWinters; intros F H.
  destruct args as [| a0 [| a1 [| a2 [| a3 rest]]]]; try discriminate.
  inversion F as [| ? ? K0 _]; subst.
  destruct a1; try discriminate. destruct (_ <=? 0); [discriminate |].
  destruct a2; try discriminate. destruct (_ <? 0); [discriminate |].
  destruct a0; try discriminate.
  destruct (query.IsZero _); [discriminate |].
  apply K0 in H. split.
  - eapply lowered_trans; [apply lowered_set_OnlySelectors | exact H].
  - apply (lowered_OnlySelectors _ _ H). simpl. destruct (global c); reflexivity.
Qed.

End NestedCallsLowered.

Lemma compileTopBottomTags_lowered name tags : forall c c',
  compileTopBottomTags c name tags = Ok c' -> lowered c c'.
Proof.
  induction tags as [| v rest IH]; intros c c' H; simpl in H.
  - outcome_cases; apply lowered_refl.
  - destruct v; try discriminate.
    destruct (negb (HasTarget (global c))).
    + apply IH in H. eapply lowered_trans; [| exact H].
      constructor; simpl; auto. destruct (global c); auto.
    + apply IH in H. exact H.
Qed.

Lemma compileTopBottom_lowered c name args c' :
  compileTopBottom c name args = Ok c' -> lowered c c'.
Proof.
  unfold compileTopBottom; intro H.
  destruct (negb _); [discriminate |].
  destruct (len args <? 2); [discriminate |].
  destruct (last args influxql.NilLiteral); try discriminate.
  destruct (_ <=? 0); [discriminate |].
  destruct (_ && _); [discriminate |].
  destruct (hd influxql.NilLiteral args); try discriminate.
  apply bind_Ok in H; destruct H as [c1 [H1 H]].
  inversion H; subst; clear H.
  eapply lowered_trans; [| apply lowered_set_TopBottomFunction].
  destruct (2 <? len args).
  - eapply compileTopBottomTags_lowered; eassumption.
  - inversion H1; subst; apply lowered_refl.
Qed.

(** The dispatch of the expression compiler on the name of a call. *)
Lemma compileExpr_dispatch c name args :
  compileExpr c (influxql.Call name args) =
  let c1 := on_global (fun g => set_FunctionCalls (FunctionCalls g ++ [influxql.Call name args]) g) c in
  if String.eqb name "percentile" then compilePercentile c1 args
  else if String.eqb name "sample" then compileSample c1 args
  else if String.eqb name "distinct" then compileDistinct c1 args
  else if string_in name ["top"; "bottom"] then compileTopBottom c1 name args
  else if string_in name ["derivative"; "non_negative_derivative"]
  then compileDerivative compileExpr c1 args (String.eqb name "non_negative_derivative")
  else if string_in name ["difference"; "non_negative_difference"]
  then compileDifference compileExpr c1 args (String.eqb name "non_negative_difference")
  else if String.eqb name "cumulative_sum" then compileCumulativeSum compileExpr c1 args
  else if String.eqb name "moving_average" then compileMovingAverage compileExpr c1 args
  else if String.eqb name "elapsed" then compileElapsed compileExpr c1 args
  else if String.eqb name "integral" then compileIntegral c1 args
  else if string_in name ["holt_winters"; "holt_winters_with_fit"]
  then compileHoltWinters compileExpr c1 args (String.eqb name "holt_winters_with_fit")
  else compileFunction c1 name args.
Proof. reflexivity. Qed.

Lemma string_in_In s l : string_in s l = true <-> In s l.
Proof.
  unfold string_in. rewrite existsb_exists. split.
  - intros [x [I E]]. apply String.eqb_eq in E. now subst.
  - intro I. exists s. split; [exact I | apply String.eqb_refl].
Qed.

(** What a call does once it is recorded, if the compilation of its arguments
    respects [lowered]: it respects [lowered], and it withdraws the selector
    mark unless the function is a selector. *)
Lemma compileExpr_call_lowered_under c name args c' :
  Forall (lowersMarks compileExpr) args ->
  compileExpr c (influxql.Call name args) = Ok c' ->
  lowered c c' /\ (~ In name selectorNames -> OnlySelectors (global c') = false).
Proof.
  intros F H. rewrite compileExpr_dispatch in H. cbv zeta in H.
  set (c1 := on_global _ c) in H.
  assert (L1 : lowered c c1) by apply lowered_append_call.
  assert (Step : forall P : Prop, (lowered c1 c' /\ P) -> lowered c c' /\ P).
  { intros P [L Q]. split; [eapply lowered_trans; eassumption | exact Q]. }
  destruct (String.eqb name "percentile") eqn:N1.
  { apply String.eqb_eq in N1; subst name. apply Step. split.
    - eapply compilePercentile_lowered; eassumption.
    - intro N; exfalso; apply N; simpl; tauto. }
  destruct (String.eqb name "sample") eqn:N2.
  { apply String.eqb_eq in N2; subst name. apply Step. split.
    - eapply compileSample_lowered; eassumption.
    - intro N; exfalso; apply N; simpl; tauto. }
  destruct (String.eqb name "distinct") eqn:N3.
  { apply Step. split.
    - eapply compileDistinct_lowered; eassumption.
    - intros _. unfold compileDistinct in H. outcome_cases. simpl.
      destruct (global c); reflexivity. }
  destruct (string_in name ["top"; "bottom"]) eqn:N4.
  { apply Step. split.
    - eapply compileTopBottom_lowered; eassumption.
    - intro N; exfalso; apply N. apply string_in_In in N4. simpl in *. tauto. }
  destruct (string_in name ["derivative"; "non_negative_derivative"]).
  { apply Step. apply compileDerivative_lowered in H; [| exact F]. tauto. }
  destruct (string_in name ["difference"; "non_negative_difference"]).
  { apply Step. apply compileDifference_lowered in H; [| exact F]. tauto. }
  destruct (String.eqb name "cumulative_sum").
  { apply Step. apply compileCumulativeSum_lowered in H; [| exact F]. tauto. }
  destruct (String.eqb name "moving_average").
  { apply Step. apply compileMovingAverage_lowered in H; [| exact F]. tauto. }
  destruct (String.eqb name "elapsed").
  { apply Step. apply compileElapsed_lowered in H; [| exact F]. tauto. }
  destruct (String.eqb name "integral").
  { apply Step. split.
    - eapply compileIntegral_lowered; eassumption.
    - intros _. unfold compileIntegral in H.
      destruct (_ || _); [discriminate |].
      apply bind_Ok in H; destruct H as [u [_ H]].
      apply compileSymbol_lowered in H.
      apply (lowered_OnlySelectors _ _ H). simpl. destruct (global c); reflexivity. }
  destruct (string_in name ["holt_winters"; "holt_winters_with_fit"]).
  { apply Step. apply compileHoltWinters_lowered in H; [| exact F]. tauto. }
  apply Step. split.
  - eapply compileFunction_lowered; eassumption.
  - intro N. unfold compileFunction in H.
    apply bind_Ok in H; destruct H as [c2 [H1 H]].
    assert (L : lowered c2 c').
    { outcome_cases;
        first [ eapply compileDistinct_lowered; eassumption
              | eapply compileSymbol_lowered; eassumption ]. }
    apply (lowered_OnlySelectors _ _ L).
    destruct (string_in name ["max"; "min"; "first"; "last"]) eqn:S.
    + exfalso; apply N. apply string_in_In in S. simpl in *. tauto.
    + destruct (string_in name ["count"; "sum"; "mean"; "median"; "mode"; "stddev"; "spread"]);
        [| discriminate].
      inversion H1; subst. simpl. destruct (global c); reflexivity.
Qed.

Theorem compileExpr_lowered (e : influxql.Expr) : forall c c',
  compileExpr c e = Ok c' -> lowered c c'.
Proof.
  induction e as [e L | op lhs rhs IHl IHr | e IHe | name args F] using Expr_args_ind;
    intros c c' H.
  - destruct e; simpl in H; try contradiction; outcome_cases; lowered_steps.
  - simpl in H.
    assert (S : lowered c (set_AllowWildcard false c)) by apply lowered_set_AllowWildcard.
    destruct (influxql.isLiteral lhs); [destruct (influxql.isLiteral rhs) |
      destruct (influxql.isLiteral rhs)]; try discriminate.
    + apply IHr in H. eapply lowered_trans; eassumption.
    + apply IHl in H. eapply lowered_trans; eassumption.
    + apply bind_Ok in H; destruct H as [c2 [H1 H2]].
      apply IHl in H1. apply IHr in H2.
      eapply lowered_trans; [exact S |]. eapply lowered_trans; eassumption.
  - simpl in H. apply IHe in H. exact H.
  - apply (compileExpr_call_lowered_under c name args c' F H).
Qed.

(** A call that compiles withdraws the selector mark unless its function is a
    selector. *)
Lemma compileExpr_call_aggregate c name args c' :
  compileExpr c (influxql.Call name args) = Ok c' ->
  ~ In name selectorNames -> OnlySelectors (global c') = false.
Proof.
  intro H. apply (compileExpr_call_lowered_under c name args c'); [| exact H].
  apply Forall_forall. intros e _ a b. apply compileExpr_lowered.
Qed.

(** ** Function names *)

(** X1. A call of a function whose name is not one of those the expression
    compiler and [compileFunction] dispatch on is refused with the
    undefined-function error, whatever its arguments and the state of the
    compilation; so every call that compiles has one of these names. *)
Theorem unknown_function_is_undefined :
  (forall c name args,
     ~ In name functionNames ->
     compileExpr c (influxql.Call name args) =
     Err (fmt_Errorf "undefined function %s()" [ArgString name])) /\
  (forall c name args c',
     compileExpr c (influxql.Call name args) = Ok c' -> In name functionNames).
Proof.
  assert (U : forall c name args,
            ~ In name functionNames ->
            compileExpr c (influxql.Call name args) =
            Err (fmt_Errorf "undefined function %s()" [ArgString name])).
  { intros c name args N. rewrite compileExpr_dispatch. cbv zeta.
    repeat match goal with
      | |- context [String.eqb name ?x] =>
          let E := fresh "E" in
          destruct (String.eqb name x) eqn:E;
          [apply String.eqb_eq in E; exfalso; apply N; subst; simpl; tauto | clear E]
      | |- context [string_in name ?l] =>
          let E := fresh "E" in
          destruct (string_in name l) eqn:E;
          [apply string_in_In in E; exfalso; apply N; simpl in *; tauto | clear E]
      end.
    unfold compileFunction.
    repeat match goal with
      | |- context [string_in name ?l] =>
          let E := fresh "E" in
          destruct (string_in name l) eqn:E;
          [apply string_in_In in E; exfalso; apply N; simpl in *; tauto | clear E]
      end.
    reflexivity. }
  split; [exact U |].
  intros c name args c' E.
  destruct (in_dec string_dec name functionNames) as [I | N]; [exact I |].
  rewrite (U c name args N) in E. discriminate.
Qed.

(** ** Wildcards below a binary expression *)

Lemma fails_bind_right {A B : Type} (m : outcome A) (k : A -> outcome B) :
  (forall a, fails (k a)) -> fails (bind m k).
Proof.
  intros F b E. apply bind_Ok in E. destruct E as [a [_ E]]. exact (F a b E).
Qed.

Lemma reachesWildcard_not_literal e : reachesWildcard e = true -> influxql.isLiteral e = false.
Proof. destruct e; simpl; intro R; try reflexivity; discriminate. Qed.

Lemma compileSymbol_refused c name a :
  AllowWildcard (this c) = false -> isVarRef a = false -> fails (compileSymbol c name a).
Proof.
  intros W V. unfold compileSymbol. destruct a; try discriminate; try apply fails_Err;
    rewrite W; apply fails_Err.
Qed.

Lemma fieldArgument_isVarRef a : fieldArgument a = false -> isVarRef a = false.
Proof. destruct a; simpl; intro F; try reflexivity; discriminate. Qed.

Ltac refuse :=
  repeat first
    [ apply fails_Err
    | apply fails_Panic
    | match goal with
      | H : fieldArgument (influxql.VarRef _ _) = false |- _ => discriminate H
      | H : fieldArgument (influxql.Distinct _) = false |- _ => discriminate H
      | |- fails (compileSymbol _ _ _) =>
          apply compileSymbol_refused; [simpl; assumption | apply fieldArgument_isVarRef; assumption]
      | |- fails (compileExpr _ (influxql.Call _ _)) =>
          match goal with
          | R : isCall _ = true -> _ |- _ => apply (R eq_refl); simpl; assumption
          end
      | |- fails (bind _ _) => apply fails_bind_right; intro
      | |- fails (if ?b then _ else _) => destruct b
      | |- fails (match ?x with _ => _ end) => destruct x
      end ].

(** Whether [compileDistinct] accepts its arguments does not depend on the
    state. *)
Lemma compileDistinct_any c args c' c0 :
  compileDistinct c args = Ok c' -> exists c0', compileDistinct c0 args = Ok c0'.
Proof.
  unfold compileDistinct. intro E.
  destruct args as [| a [| b rest]]; try discriminate.
  destruct a; try discriminate. eexists; reflexivity.
Qed.

Lemma compileFunction_refused c name a rest :
  AllowWildcard (this c) = false ->
  refusedArgument a ->
  fails (compileFunction c name (a :: rest)).
Proof.
  intros W [V R]. unfold compileFunction.
  assert (Go : forall c1, AllowWildcard (this c1) = false ->
            fails (match a :: rest with
                   | [arg0] =>
                       if String.eqb name "count" then
                         match arg0 with
                         | influxql.Call dname dargs =>
                             if String.eqb dname "distinct" then compileDistinct c1 dargs
                             else compileSymbol c1 name arg0
                         | influxql.Distinct val => compileDistinct c1 (influxql.NewCall_Args val)
                         | _ => compileSymbol c1 name arg0
                         end
                       else compileSymbol c1 name arg0
                   | _ => Err (fmt_Errorf "invalid number of arguments for %s, expected %d, got %d"
                                 [ArgString name; ArgInt 1; ArgInt (len (a :: rest))])
                   end)).
  { intros c1 W1. destruct rest; [| apply fails_Err].
    destruct (String.eqb name "count");
      [| apply compileSymbol_refused; [exact W1 | apply fieldArgument_isVarRef; exact V]].
    destruct a as [| | dname dargs | | | | | | | | | | | | |]; try discriminate V;
      try (apply compileSymbol_refused; [exact W1 | reflexivity]).
    destruct (String.eqb dname "distinct") eqn:D;
      [| apply compileSymbol_refused; [exact W1 | reflexivity]].
    apply String.eqb_eq in D; subst dname.
    intros c' E.
    destruct (compileDistinct_any c1 dargs c'
                (on_global (fun g => set_FunctionCalls
                              (FunctionCalls g ++ [influxql.Call "distinct" dargs]) g) c1) E)
      as [c0' E0].
    exact (R eq_refl c1 W1 c0' E0). }
  destruct (string_in name ["max"; "min"; "first"; "last"]).
  - cbn [bind]. apply Go. exact W.
  - destruct (string_in name ["count"; "sum"; "mean"; "median"; "mode"; "stddev"; "spread"]);
      cbn [bind]; [apply Go; exact W | apply fails_Err].
Qed.

Lemma call_with_refused_argument c name a rest :
  AllowWildcard (this c) = false ->
  refusedArgument a ->
  fails (compileExpr c (influxql.Call name (a :: rest))).
Proof.
  intros W [V R]. rewrite compileExpr_dispatch. cbv zeta.
  set (c1 := on_global _ c).
  assert (W1 : AllowWildcard (this c1) = false) by exact W.
  clearbody c1.
  repeat match goal with
    | |- fails (if ?b then _ else _) => destruct b
    end;
    try (apply compileFunction_refused; [exact W1 | split; assumption]).
  - unfold compilePercentile. destruct a; try discriminate V; refuse.
  - unfold compileSample. destruct a; try discriminate V; refuse.
  - unfold compileDistinct. destruct a; try discriminate V; refuse.
  - unfold compileTopBottom. cbn [hd]. destruct a; try discriminate V; refuse.
  - unfold compileDerivative, callOrSymbol. destruct a; try discriminate V; refuse.
  - unfold compileDifference, callOrSymbol. destruct a; try discriminate V; refuse.
  - unfold compileCumulativeSum, callOrSymbol. destruct a; try discriminate V; refuse.
  - unfold compileMovingAverage, callOrSymbol. destruct a; try discriminate V; refuse.
  - unfold compileElapsed, callOrSymbol. destruct a; try discriminate V; refuse.
  - unfold compileIntegral. cbn [hd]. destruct a; try discriminate V; refuse.
  - unfold compileHoltWinters. destruct a; try discriminate V; refuse.
Qed.

Lemma reachesWildcard_refused : forall e c,
  AllowWildcard (this c) = false -> reachesWildcard e = true -> fails (compileExpr c e).
Proof.
  induction e as [e L | op lhs rhs IHl IHr | e IHe | name args F] using Expr_args_ind;
    intros c W R.
  - destruct e; simpl in R; try discriminate; try contradiction.
    simpl. rewrite W. apply fails_Err.
  - simpl in R. simpl.
    assert (W1 : AllowWildcard (this (set_AllowWildcard false c)) = false) by reflexivity.
    destruct (reachesWildcard lhs) eqn:Rl.
    + rewrite (reachesWildcard_not_literal _ Rl).
      destruct (influxql.isLiteral rhs).
      * apply IHl; [exact W1 | reflexivity].
      * apply fails_bind_left. apply IHl; [exact W1 | reflexivity].
    + simpl in R. rewrite (reachesWildcard_not_literal _ R).
      destruct (influxql.isLiteral lhs).
      * apply IHr; [exact W1 | exact R].
      * intros c' E. apply bind_Ok in E. destruct E as [c2 [E1 E2]].
        apply compileExpr_lowered in E1.
        apply (IHr c2 (lowered_AllowWildcard _ _ E1 W1) R c' E2).
  - simpl in R. simpl. apply IHe; assumption.
  - destruct args as [| a rest]; [discriminate R |].
    apply call_with_refused_argument; [exact W |].
    inversion F as [| ? ? Pa _]; subst.
    split.
    + destruct a; try reflexivity; simpl in R; discriminate R.
    + intros C c0 W0. apply Pa; [exact W0 |].
      destruct a; try discriminate C. exact R.
Qed.

(** X2. An operand of a binary expression is compiled with wildcards
    disallowed: a binary expression does not compile when one of its operands
    is a wildcard, or leads to one, or to a regular expression standing as the
    first argument of a call, through parentheses, further binary expressions
    and first arguments of calls. *)
Theorem binary_expression_takes_no_wildcard (c : receiver) (op : nat) (lhs rhs : influxql.Expr) :
  reachesWildcard lhs = true \/ reachesWildcard rhs = true ->
  fails (compileExpr c (influxql.BinaryExpr op lhs rhs)).
Proof.
  intro R.
  assert (W : AllowWildcard (this (set_AllowWildcard false c)) = false) by reflexivity.
  simpl. destruct R as [R | R].
  - rewrite (reachesWildcard_not_literal _ R).
    destruct (influxql.isLiteral rhs).
    + apply reachesWildcard_refused; assumption.
    + apply fails_bind_left. apply reachesWildcard_refused; assumption.
  - rewrite (reachesWildcard_not_literal _ R).
    destruct (influxql.isLiteral lhs).
    + apply reachesWildcard_refused; assumption.
    + intros c' E. apply bind_Ok in E. destruct E as [c2 [E1 E2]].
      apply compileExpr_lowered in E1.
      apply (reachesWildcard_refused rhs c2 (lowered_AllowWildcard _ _ E1 W) R c' E2).
Qed.

(** ** Selectors, aggregates and auxiliary fields *)

Lemma OnlySelectors_set_Fields v g : OnlySelectors (set_Fields v g) = OnlySelectors g.
Proof. destruct g; reflexivity. Qed.

(** What compiling one field does to the selector mark. *)
Lemma compileField_selectors c f c' :
  compileField c f = Ok c' ->
  (OnlySelectors c = false -> OnlySelectors c' = false) /\
  (forall name args,
     influxql.Expr_ f = influxql.Call name args -> ~ In name selectorNames ->
     OnlySelectors c' = false).
Proof.
  intro E. destruct (isTimeRef (influxql.Expr_ f)) eqn:T.
  - rewrite (compileField_time _ _ T) in E. inversion E; subst; clear E. split.
    + destruct (negb _); destruct c; simpl; auto.
    + intros name args D. rewrite D in T. discriminate.
  - destruct (compileField_other _ _ _ T E) as [r [X [-> _]]].
    rewrite OnlySelectors_set_Fields. split.
    + intro O. apply (lowered_OnlySelectors _ _ (compileExpr_lowered _ _ _ X)).
      simpl. rewrite OnlySelectors_set_Fields. exact O.
    + intros name args D N. rewrite D in X.
      exact (compileExpr_call_aggregate _ _ _ _ X N).
Qed.

Lemma compileFieldList_selectors fs : forall c c',
  compileFieldList c fs = Ok c' ->
  (OnlySelectors c = false -> OnlySelectors c' = false) /\
  (selectsAggregate fs -> OnlySelectors c' = false).
Proof.
  induction fs as [| f rest IH]; intros c c' E; simpl in E.
  - inversion E; subst. split; [auto |]. intros [f [name [args [[] _]]]].
  - apply bind_Ok in E; destruct E as [c1 [E1 E]].
    destruct (compileField_selectors _ _ _ E1) as [M1 A1].
    destruct (IH _ _ E) as [M A].
    split; [auto |].
    intros [g [name [args [[<- | I] [D N]]]]].
    + apply M. eapply A1; eassumption.
    + apply A. exists g, name, args. auto.
Qed.

Section AuxiliaryFields.

Context `{Collaborators}.

(** What validation has checked when it passes a statement with auxiliary
    fields. *)
Lemma validateFields_auxiliary c :
  validateFields c = Ok tt -> HasAuxiliaryFields c = true ->
  OnlySelectors c = true /\ len (FunctionCalls c) <= 1.
Proof.
  unfold validateFields. intros V A. rewrite A in V.
  destruct (len (Fields c) =? 0); [discriminate |].
  apply bind_Ok in V; destruct V as [u1 [_ V]].
  apply bind_Ok in V; destruct V as [u2 [_ V]].
  destruct (OnlySelectors c); [| discriminate].
  destruct (1 <? len (FunctionCalls c)) eqn:L; [discriminate |].
  apply Z.ltb_ge in L. split; [reflexivity | exact L].
Qed.

(** X3. A statement that selects a field needing auxiliary fields (a bare
    reference other than [time], a wildcard or a regular expression) compiles
    only if at most one of its selected fields is a call and none is a call of
    a function other than the selectors max, min, first, last, top, bottom,
    percentile and sample. *)
Theorem auxiliary_fields_need_one_selector (c : compiledStatement)
    (s : influxql.SelectStatement) (c' : compiledStatement) :
  selectsAuxiliary (influxql.Fields s) ->
  compile c s = Ok c' ->
  (List.length (callFields s) <= 1)%nat /\ ~ selectsAggregate (influxql.Fields s).
Proof.
  intros SA E. rewrite compile_unfold in E.
  apply bind_Ok in E; destruct E as [c1 [E1 E]].
  apply bind_Ok in E; destruct E as [[] [V _]].
  unfold compileFields in E1.
  destruct (compileFieldList_marks _ _ _ E1) as [_ [_ [_ Aux]]].
  destruct (compileFieldList_calls _ _ _ E1) as [Calls _].
  destruct (compileFieldList_selectors _ _ _ E1) as [_ Agg].
  destruct (validateFields_auxiliary _ V (Aux SA)) as [O L].
  split.
  - unfold callFields. unfold len in L. lia.
  - intro A. rewrite (Agg A) in O. discriminate.
Qed.

End AuxiliaryFields.

(** ** Statements that select no call *)

Lemma compileExpr_no_call : forall e c c',
  mentionsCall e = false -> compileExpr c e = Ok c' ->
  FunctionCalls (global c') = FunctionCalls (global c).
Proof.
  induction e as [e L | op lhs rhs IHl IHr | e IHe | name args F] using Expr_args_ind;
    intros c c' M E.
  - destruct e; simpl in M; try discriminate; try contradiction;
      simpl in E; outcome_cases; simpl; destruct (global c); reflexivity.
  - simpl in M. apply orb_false_iff in M. destruct M as [Ml Mr]. simpl in E.
    destruct (influxql.isLiteral lhs); [destruct (influxql.isLiteral rhs) |
      destruct (influxql.isLiteral rhs)]; try discriminate.
    + apply (IHr _ _ Mr) in E. exact E.
    + apply (IHl _ _ Ml) in E. exact E.
    + apply bind_Ok in E; destruct E as [c2 [E1 E2]].
      apply (IHl _ _ Ml) in E1. apply (IHr _ _ Mr) in E2. simpl in E1. congruence.
  - simpl in M. simpl in E. exact (IHe _ _ M E).
  - discriminate M.
Qed.

Lemma compileFieldList_no_call fs : forall c c',
  (forall f, In f fs -> mentionsCall (influxql.Expr_ f) = false) ->
  compileFieldList c fs = Ok c' ->
  FunctionCalls c' = FunctionCalls c.
Proof.
  induction fs as [| f rest IH]; intros c c' M E; simpl in E.
  - now inversion E.
  - apply bind_Ok in E; destruct E as [c1 [E1 E]].
    rewrite (IH c1 c' (fun g I => M g (or_intror I)) E).
    destruct (isTimeRef (influxql.Expr_ f)) eqn:T.
    + rewrite (compileField_time _ _ T) in E1. inversion E1; subst.
      destruct (negb _); destruct c; reflexivity.
    + destruct (compileField_other _ _ _ T E1) as [r [X [-> _]]].
      rewrite FunctionCalls_set_Fields.
      rewrite (compileExpr_no_call _ _ _ (M f (or_introl eq_refl)) X).
      simpl. apply FunctionCalls_set_Fields.
Qed.

Section Preprocessing.

Context `{Collaborators}.

(** What [preprocess] records of the statement, and what it leaves as it
    found it. *)
Lemma preprocess_records c s c' :
  preprocess c s = Ok c' ->
  Ascending c' = influxql.TimeAscending s /\
  Limit c' = influxql.Limit s /\
  HasTarget c' = (match influxql.Target s with Some _ => true | None => false end) /\
  InheritedInterval c' = InheritedInterval c /\
  FunctionCalls c' = FunctionCalls c /\
  OnlySelectors c' = OnlySelectors c /\
  HasDistinct c' = HasDistinct c /\
  TopBottomFunction c' = TopBottomFunction c /\
  HasAuxiliaryFields c' = HasAuxiliaryFields c /\
  Fields c' = Fields c /\
  TimeFieldName c' = TimeFieldName c /\
  Options c' = Options c /\
  stmt c' = stmt c.
Proof.
  intro E. destruct (preprocess_Ok _ _ _ E) as [cond [t [cd [_ [E2 [_ [_ ->]]]]]]].
  pose proof (compileDimensionList_assigns _ _ _ _ E2) as A.
  remember (Interval cd) as i eqn:I. clear I E2 E. subst cd.
  destruct c as [? [lo hi] ? ? ? ? ? ? ? ? ? ? ? ? ? ? ?]. destruct t as [tlo thi].
  unfold resolveTimeRange. simpl.
  destruct (time_IsZero tlo); simpl; destruct (time_IsZero thi); simpl;
    try destruct (negb (query.IsZero i)); simpl; repeat split; reflexivity.
Qed.

(** X4. A statement none of whose fields mentions a call does not compile
    when it asks for fill(none) or fill(linear) or declares a grouping
    interval. When its condition and dimensions are accepted and its fields
    compile to at least one field, the error is the one that names the fill
    option, and with any other fill option and a grouping interval it is the
    error that asks for an aggregate function. *)
Theorem raw_query_takes_no_grouping :
  (forall s opt,
     selectsNoCall s ->
     influxql.Fill s = influxql.NoFill \/ influxql.Fill s = influxql.LinearFill \/
       declaresInterval s ->
     fails (Compile s opt)) /\
  (forall s opt p c1,
     selectsNoCall s ->
     preprocess (newCompiler opt) s = Ok p ->
     compileFields p s = Ok c1 ->
     Fields c1 <> [] ->
     (influxql.Fill s = influxql.NoFill ->
      Compile s opt = Err (errors_New "fill(none) must be used with a function")) /\
     (influxql.Fill s = influxql.LinearFill ->
      Compile s opt = Err (errors_New "fill(linear) must be used with a function")) /\
     (influxql.Fill s <> influxql.NoFill -> influxql.Fill s <> influxql.LinearFill ->
      declaresInterval s ->
      Compile s opt = Err (errors_New "GROUP BY requires at least one aggregate function"))).
Proof.
  assert (State : forall s opt p c1,
            selectsNoCall s ->
            preprocess (newCompiler opt) s = Ok p ->
            compileFields p s = Ok c1 ->
            FunctionCalls c1 = [] /\ FillOption c1 = influxql.Fill s /\
            InheritedInterval c1 = false /\
            (query.IsZero (Interval c1) = false <-> declaresInterval s)).
  { intros s opt p c1 N P F.
    destruct (preprocess_records _ _ _ P) as [_ [_ [_ [In_ [Calls _]]]]].
    pose proof (compileFields_sameContext _ _ _ F) as S.
    split; [| split; [| split]].
    - unfold compileFields in F.
      rewrite (compileFieldList_no_call _ _ _ N F), FunctionCalls_set_Fields, Calls.
      reflexivity.
    - rewrite (same_FillOption _ _ S). apply (preprocess_FillOption _ _ _ P).
    - rewrite (same_InheritedInterval _ _ S), In_. reflexivity.
    - rewrite (same_Interval _ _ S).
      apply (preprocess_declared _ _ _ (newCompiler_Interval opt) P). }
  assert (Refused : forall c1,
            FunctionCalls c1 = [] -> InheritedInterval c1 = false ->
            Fields c1 <> [] ->
            (FillOption c1 = influxql.NoFill ->
             validateFields c1 = Err (errors_New "fill(none) must be used with a function")) /\
            (FillOption c1 = influxql.LinearFill ->
             validateFields c1 = Err (errors_New "fill(linear) must be used with a function")) /\
            (FillOption c1 <> influxql.NoFill -> FillOption c1 <> influxql.LinearFill ->
             query.IsZero (Interval c1) = false ->
             validateFields c1 =
             Err (errors_New "GROUP BY requires at least one aggregate function"))).
  { intros c1 Calls In_ Some_. unfold validateFields.
    assert (L : (len (Fields c1) =? 0) = false).
    { apply Z.eqb_neq. intro Z. apply len_zero in Z. contradiction. }
    rewrite L, Calls, In_. simpl.
    split; [| split].
    - intros ->. reflexivity.
    - intros ->. reflexivity.
    - intros N1 N2 ->. simpl. destruct (FillOption c1); try reflexivity; contradiction. }
  split.
  - intros s opt N G c E. unfold Compile in E.
    apply bind_Ok in E; destruct E as [p [P E]].
    apply bind_Ok in E; destruct E as [c2 [C _]].
    rewrite compile_unfold in C.
    apply bind_Ok in C; destruct C as [c1 [F C]].
    apply bind_Ok in C; destruct C as [[] [V _]].
    destruct (State s opt p c1 N P F) as [Calls [Fill_ [In_ Dec]]].
    assert (Some_ : Fields c1 <> []).
    { intro Z. rewrite (validateFields_no_fields _ Z) in V. discriminate. }
    destruct (Refused c1 Calls In_ Some_) as [R1 [R2 R3]]. rewrite Fill_ in *.
    destruct G as [G | [G | G]].
    + rewrite (R1 G) in V. discriminate.
    + rewrite (R2 G) in V. discriminate.
    + apply Dec in G.
      destruct (influxql.Fill s) eqn:Fl;
        first [ rewrite (R1 eq_refl) in V; discriminate
              | rewrite (R2 eq_refl) in V; discriminate
              | rewrite (R3 ltac:(discriminate) ltac:(discriminate) G) in V; discriminate ].
  - intros s opt p c1 N P F Some_.
    destruct (State s opt p c1 N P F) as [Calls [Fill_ [In_ Dec]]].
    destruct (Refused c1 Calls In_ Some_) as [R1 [R2 R3]]. rewrite Fill_ in *.
    assert (Run : forall e, validateFields c1 = Err e -> Compile s opt = Err e).
    { intros e Ve. unfold Compile. rewrite P. simpl.
      rewrite compile_unfold, F. simpl. rewrite Ve. reflexivity. }
    split; [| split].
    + intro G. apply Run, R1, G.
    + intro G. apply Run, R2, G.
    + intros G1 G2 D. apply Run. apply R3; [exact G1 | exact G2 | apply Dec; exact D].
Qed.

(** ** What a compiled statement holds *)

(** X6. When [Compile] succeeds, what the compiled statement holds of the
    condition, the time range, the interval, the ordering, the fill option,
    the limit, the target and the options is what [preprocess] recorded:
    compiling the fields and the subqueries has not touched it. The statement
    kept for planning is a rewritten copy that carries the compiled condition
    and the name of the time column. *)
Theorem Compile_keeps_what_preprocess_recorded (s : influxql.SelectStatement)
    (opt : CompileOptions) (c : compiledStatement) :
  Compile s opt = Ok c ->
  exists p c0,
    preprocess (newCompiler opt) s = Ok p /\
    compile p s = Ok c0 /\
    sameContext p c /\
    TimeFieldName c = TimeFieldName c0 /\
    Fields c = Fields c0 /\
    stmt c =
      Some (RewriteRegexConditions (RewriteTimeFields (RewriteDistinct
              (influxql.withCondition (Condition p)
                 (influxql.withTimeAlias (TimeFieldName c0)
                    (reducedSubqueries (Now (Options p)) s)))))).
Proof.
  unfold Compile. intro E.
  apply bind_Ok in E; destruct E as [p [P E]].
  apply bind_Ok in E; destruct E as [c0 [C E]].
  inversion E; subst; clear E.
  pose proof (compile_sameContext _ _ _ C) as S.
  exists p, c0. split; [exact P |]. split; [exact C |].
  rewrite (same_Condition _ _ S), (same_Options _ _ S).
  split; [| destruct c0; simpl; auto].
  destruct S. destruct c0; constructor; simpl in *; assumption.
Qed.

End Preprocessing.

(** ** What a subquery takes from its parent *)

Section Inheritance.

Context `{Collaborators}.

(** The interval, the ordering and the options of a subquery when [subquery]
    turns to its fields, from those of the subquery preprocessed on its own. *)
Lemma subqueryContext_inherits c s sub :
  subqueryContext c s = Ok sub ->
  exists own,
    preprocess (newCompiler (Options c)) s = Ok own /\
    (negb (len (influxql.SortFields s) =? 0) && negb (Bool.eqb (Ascending own) (Ascending c))) = false /\
    Ascending sub = Ascending c /\
    Options sub = Options own /\
    Interval sub =
      (if negb (query.IsZero (Interval c)) && query.IsZero (Interval own)
       then Interval c else Interval own) /\
    InheritedInterval sub =
      (if negb (query.IsZero (Interval c)) && query.IsZero (Interval own)
       then true else InheritedInterval own).
Proof.
  unfold subqueryContext; intro E.
  apply bind_Ok in E; destruct E as [own [P E]].
  destruct (negb (len (influxql.SortFields s) =? 0) &&
            negb (Bool.eqb (Ascending own) (Ascending c))) eqn:Order; [discriminate |].
  inversion E; subst; clear E. exists own. split; [exact P |]. split; [exact Order |].
  destruct own as [? ? i ? ? ? ? ? f ? ? ? ? ? ? ? ?]; simpl.
  destruct (negb (query.IsZero i) && _); simpl;
    destruct (negb (query.IsZero (Interval c)) && query.IsZero i); simpl; auto.
Qed.

(** X7. A subquery that declares no grouping interval under a parent that
    has one takes the parent's interval and is marked as having inherited it;
    a subquery that declares one keeps its own, and is not marked; and under
    a parent without an interval a subquery has the interval it declares or
    none. This holds when [subquery] turns to the subquery's fields and when
    it has compiled them. *)
Theorem subquery_inherits_interval (c : compiledStatement) (s : influxql.SelectStatement)
    (sub : compiledStatement) :
  subqueryContext c s = Ok sub \/ subquery c s = Ok sub ->
  (declaresInterval s ->
   query.IsZero (Interval sub) = false /\ InheritedInterval sub = false /\
   exists own, preprocess (newCompiler (Options c)) s = Ok own /\ Interval sub = Interval own) /\
  (~ declaresInterval s -> query.IsZero (Interval c) = false ->
   Interval sub = Interval c /\ InheritedInterval sub = true) /\
  (~ declaresInterval s -> query.IsZero (Interval c) = true ->
   query.IsZero (Interval sub) = true /\ InheritedInterval sub = false).
Proof.
  intro E. destruct (subquery_states _ _ _ E) as [sub0 [E0 S]].
  destruct (subqueryContext_inherits _ _ _ E0) as [own [P [_ [_ [_ [I In_]]]]]].
  rewrite (same_Interval _ _ S), (same_InheritedInterval _ _ S), I, In_.
  pose proof (preprocess_declared _ _ _ (newCompiler_Interval (Options c)) P) as D.
  destruct (preprocess_records _ _ _ P) as [_ [_ [_ [Own _]]]]. simpl in Own.
  split; [| split].
  - intro Dec. apply D in Dec. rewrite Dec, andb_false_r.
    split; [exact Dec |]. split; [exact Own |]. exists own. split; [exact P | reflexivity].
  - intros N Z. rewrite Z. simpl.
    destruct (query.IsZero (Interval own)) eqn:Q; [split; reflexivity |].
    exfalso. apply N, D. reflexivity.
  - intros N Z. rewrite Z. simpl.
    destruct (query.IsZero (Interval own)) eqn:Q; [split; [reflexivity | exact Own] |].
    exfalso. apply N, D. reflexivity.
Qed.

(** X8. A subquery is compiled in the direction of its parent. A subquery
    with an ORDER BY clause of the other direction is refused, once its own
    condition and dimensions are accepted, with the error that asks for the
    same direction; one that [subquery] accepts has an ORDER BY clause of
    the parent's direction or none. *)
Theorem subquery_follows_parent_order (c : compiledStatement) (s : influxql.SelectStatement) :
  (forall sub,
     subqueryContext c s = Ok sub \/ subquery c s = Ok sub ->
     Ascending sub = Ascending c /\
     (influxql.SortFields s <> [] -> influxql.TimeAscending s = Ascending c)) /\
  (forall own,
     preprocess (newCompiler (Options c)) s = Ok own ->
     influxql.SortFields s <> [] ->
     influxql.TimeAscending s <> Ascending c ->
     subquery c s =
     Err (errors_New "subqueries must be ordered in the same direction as the query itself")).
Proof.
  split.
  - intros sub E. destruct (subquery_states _ _ _ E) as [sub0 [E0 S]].
    destruct (subqueryContext_inherits _ _ _ E0) as [own [P [Order [A _]]]].
    rewrite (same_Ascending _ _ S). split; [exact A |].
    intro Sorted.
    destruct (preprocess_records _ _ _ P) as [Own _]. rewrite Own in Order.
    assert (L : (len (influxql.SortFields s) =? 0) = false).
    { apply Z.eqb_neq. intro Z. apply len_zero in Z. contradiction. }
    rewrite L in Order. simpl in Order.
    apply negb_false_iff in Order. apply Bool.eqb_prop in Order. exact Order.
  - intros own P Sorted Other. unfold subquery, subqueryContext. rewrite P. simpl.
    destruct (preprocess_records _ _ _ P) as [Own _]. rewrite Own.
    assert (L : (len (influxql.SortFields s) =? 0) = false).
    { apply Z.eqb_neq. intro Z. apply len_zero in Z. contradiction. }
    rewrite L. simpl.
    destruct (Bool.eqb (influxql.TimeAscending s) (Ascending c)) eqn:Q; [| reflexivity].
    apply Bool.eqb_prop in Q. contradiction.
Qed.

(** X9. The instant that now() stands for is fixed once. [Compile] takes it
    from its options, and reads the clock only when the options give the zero
    Time; and a subquery, at any depth, is compiled with the options of its
    parent as long as that instant is not the zero Time. *)
Theorem now_is_fixed_once :
  (forall s opt c,
     Compile s opt = Ok c ->
     Now (Options c) = (if time_IsZero (Now opt) then time_Now else Now opt)) /\
  (forall c s sub,
     time_IsZero (Now (Options c)) = false ->
     subqueryContext c s = Ok sub \/ subquery c s = Ok sub ->
     Options sub = Options c).
Proof.
  split.
  - intros s opt c E.
    unfold Compile in E.
    apply bind_Ok in E; destruct E as [p [P E]].
    apply bind_Ok in E; destruct E as [c0 [C E]].
    inversion E; subst; clear E.
    pose proof (compile_sameContext _ _ _ C) as S.
    destruct (preprocess_records _ _ _ P) as [_ [_ [_ [_ [_ [_ [_ [_ [_ [_ [_ [O _]]]]]]]]]]]].
    replace (Options (set_stmt _ c0)) with (Options c0) by (destruct c0; reflexivity).
    rewrite (same_Options _ _ S), O. unfold newCompiler. simpl.
    destruct (time_IsZero (Now opt)); reflexivity.
  - intros c s sub N E. destruct (subquery_states _ _ _ E) as [sub0 [E0 S]].
    destruct (subqueryContext_inherits _ _ _ E0) as [own [P [_ [_ [O _]]]]].
    destruct (preprocess_records _ _ _ P) as [_ [_ [_ [_ [_ [_ [_ [_ [_ [_ [_ [O' _]]]]]]]]]]]].
    rewrite (same_Options _ _ S), O, O'. unfold newCompiler. simpl.
    rewrite N. reflexivity.
Qed.

End Inheritance.

(** ** Planning: the shard set and the prepared statement *)

Section Preparing.

Context `{Planner}.

(** X10. Whatever the collaborators answer, [Prepare] calls the shard mapper
    at most once. When it returns a prepared statement, the statement holds
    the shard set that this one call returned, and the shard set has not been
    closed; when it returns an error, either the mapper was not called, or the
    mapper returned that error, or the shard set that the mapper returned has
    been closed, once, as the last thing done. *)
Theorem Prepare_closes_the_shards_it_drops (c : compiledStatement) (shardMapper : ShardMapper)
    (sopt : SelectOptions) :
  match Prepare c shardMapper sopt with
  | (Ok p, trace) =>
      exists s range,
        stmt c = Some s /\
        MapShards shardMapper (influxql.Sources s) range sopt = Ok (ps_ic p) /\
        trace = [MapShardsCalled (influxql.Sources s) range sopt]
  | (Err e, trace) => errorTrace shardMapper sopt e trace
  | (Panic _, _) => True
  end.
Proof.
  unfold Prepare, errorTrace.
  destruct (stmt c) as [s |]; [| exact I].
  destruct (shardTimeRange c s sopt) as [range | e | msg]; [| left; reflexivity | exact I].
  destruct (MapShards shardMapper (influxql.Sources s) range sopt) as [shards | e | msg] eqn:M;
    [| right; left; eauto | exact I].
  destruct (RewriteFields s shards) as [s' | e | msg]; [| right; right; eauto | exact I].
  destruct (newIteratorOptionsStmt s' sopt) as [opt0 | e | msg]; [| right; right; eauto | exact I].
  destruct (_ && _); [| exists s, range; auto].
  destruct (GroupByInterval s') as [interval | e | msg]; [| right; right; eauto | exact I].
  destruct (_ && _); [right; right; eauto | exists s, range; auto].
Qed.

(** X11. The prepared statement that [Prepare] returns carries the compiled
    statement's own time range and direction in its iterator options, also
    when the shards were mapped over a narrower range; its statement is the
    compiled statement with its fields rewritten over the mapped shards, its
    columns are that statement's; and when a bucket limit applies to it, the
    number of buckets that [Prepare] counts is within the limit. *)
Theorem prepared_statement_carries_the_compiled_range (c : compiledStatement)
    (shardMapper : ShardMapper) (sopt : SelectOptions) (p : preparedStatement)
    (trace : list event) :
  Prepare c shardMapper sopt = (Ok p, trace) ->
  StartTime (ps_opt p) = influxql.MinTimeOf (TimeRange c) /\
  EndTime (ps_opt p) = influxql.MaxTimeOf (TimeRange c) /\
  opt_Ascending (ps_opt p) = Ascending c /\
  ps_columns p = ColumnNames (ps_stmt p) /\
  (exists s opt0,
     stmt c = Some s /\
     RewriteFields s (ps_ic p) = Ok (ps_stmt p) /\
     newIteratorOptionsStmt (ps_stmt p) sopt = Ok opt0 /\
     ps_opt p = withTimes c opt0) /\
  (forall interval,
     0 < MaxBucketsN sopt ->
     influxql.IsRawQuery (ps_stmt p) = false ->
     influxql.MinTime < influxql.MinTimeOf (TimeRange c) ->
     GroupByInterval (ps_stmt p) = Ok interval ->
     0 < interval ->
     bucketCount (ps_opt p) interval <= MaxBucketsN sopt).
Proof.
  unfold Prepare. intro E.
  destruct (stmt c) as [s |]; [| discriminate].
  destruct (shardTimeRange c s sopt) as [range | e | msg]; try discriminate.
  destruct (MapShards shardMapper (influxql.Sources s) range sopt) as [shards | e | msg];
    try discriminate.
  destruct (RewriteFields s shards) as [s' | e | msg] eqn:RW; try discriminate.
  destruct (newIteratorOptionsStmt s' sopt) as [opt0 | e | msg] eqn:IO; try discriminate.
  assert (Shape : forall q : preparedStatement,
            q = {| ps_stmt := s'; ps_opt := withTimes c opt0; ps_ic := shards;
                   ps_columns := ColumnNames s' |} ->
            StartTime (ps_opt q) = influxql.MinTimeOf (TimeRange c) /\
            EndTime (ps_opt q) = influxql.MaxTimeOf (TimeRange c) /\
            opt_Ascending (ps_opt q) = Ascending c /\
            ps_columns q = ColumnNames (ps_stmt q) /\
            (exists s0 opt1,
               Some s = Some s0 /\
               RewriteFields s0 (ps_ic q) = Ok (ps_stmt q) /\
               newIteratorOptionsStmt (ps_stmt q) sopt = Ok opt1 /\
               ps_opt q = withTimes c opt1)).
  { intros q ->. simpl. repeat split. exists s, opt0. auto. }
  destruct ((0 <? MaxBucketsN sopt) && negb (influxql.IsRawQuery s') &&
            (influxql.MinTime <? influxql.MinTimeOf (TimeRange c))) eqn:Limited.
  - destruct (GroupByInterval s') as [interval | e | msg] eqn:GI; try discriminate.
    destruct ((0 <? interval) && (MaxBucketsN sopt <? bucketCount (withTimes c opt0) interval))
      eqn:Over; [discriminate |].
    inversion E; subst; clear E.
    destruct (Shape _ eq_refl) as [S1 [S2 [S3 [S4 S5]]]].
    repeat (split; [assumption |]).
    simpl. intros interval' _ _ _ GI' P. rewrite GI in GI'. inversion GI'; subst interval'.
    apply Z.ltb_lt in P. rewrite P in Over. simpl in Over.
    apply Z.ltb_ge in Over. exact Over.
  - inversion E; subst; clear E.
    destruct (Shape _ eq_refl) as [S1 [S2 [S3 [S4 S5]]]].
    repeat (split; [assumption |]).
    simpl. intros interval N R M _ _.
    apply Z.ltb_lt in N. apply Z.ltb_lt in M. rewrite N, R, M in Limited. discriminate.
Qed.

(** X12. Without a bucket limit, and for a raw query, [Prepare] maps the
    shards over the compiled statement's own time range and returns the
    prepared statement whenever the shard mapper, the rewriting of the fields
    and the iterator options succeed: the grouping interval is not asked for
    and no bucket is counted. *)
Theorem Prepare_without_bucket_limit (c : compiledStatement) (shardMapper : ShardMapper)
    (sopt : SelectOptions) (s s' : influxql.SelectStatement) (shards : ShardGroup)
    (opt0 : IteratorOptions) :
  stmt c = Some s ->
  MaxBucketsN sopt <= 0 \/ (influxql.IsRawQuery s = true /\ influxql.IsRawQuery s' = true) ->
  MapShards shardMapper (influxql.Sources s) (TimeRange c) sopt = Ok shards ->
  RewriteFields s shards = Ok s' ->
  newIteratorOptionsStmt s' sopt = Ok opt0 ->
  shardTimeRange c s sopt = Ok (TimeRange c) /\
  Prepare c shardMapper sopt =
  (Ok {| ps_stmt := s'; ps_opt := withTimes c opt0; ps_ic := shards; ps_columns := ColumnNames s' |},
   [MapShardsCalled (influxql.Sources s) (TimeRange c) sopt]).
Proof.
  intros S Free MS RW IO.
  assert (R : shardTimeRange c s sopt = Ok (TimeRange c)).
  { unfold shardTimeRange. destruct Free as [N | [Raw _]].
    - assert (Q : (0 <? MaxBucketsN sopt) = false) by (apply Z.ltb_ge; exact N).
      rewrite Q. reflexivity.
    - rewrite Raw, andb_false_r. reflexivity. }
  split; [exact R |].
  unfold Prepare. rewrite S, R, MS, RW, IO.
  assert (Q : (0 <? MaxBucketsN sopt) && negb (influxql.IsRawQuery s') = false).
  { destruct Free as [N | [_ Raw]].
    - assert (Q : (0 <? MaxBucketsN sopt) = false) by (apply Z.ltb_ge; exact N).
      rewrite Q. reflexivity.
    - rewrite Raw, andb_false_r. reflexivity. }
  rewrite Q. reflexivity.
Qed.

(** X13. The time range for mapping shards has the upper bound of the
    compiled statement's time range, and has its lower bound as well unless
    there is a bucket limit, the statement is no raw query, its time range
    has no lower bound and its grouping interval is positive. *)
Theorem shard_range_keeps_the_upper_bound (c : compiledStatement) (s : influxql.SelectStatement)
    (sopt : SelectOptions) (range : influxql.TimeRange) :
  shardTimeRange c s sopt = Ok range ->
  influxql.Max range = influxql.Max (TimeRange c) /\
  (influxql.Min range <> influxql.Min (TimeRange c) ->
   0 < MaxBucketsN sopt /\ influxql.IsRawQuery s = false /\
   influxql.MinTimeOf (TimeRange c) = influxql.MinTime /\
   exists interval, GroupByInterval s = Ok interval /\ 0 < interval).
Proof.
  unfold shardTimeRange. intro E.
  destruct (0 <? MaxBucketsN sopt) eqn:N; simpl in E;
    [| inversion E; subst; split; [reflexivity | intro Q; contradiction]].
  destruct (influxql.IsRawQuery s) eqn:R; simpl in E;
    [inversion E; subst; split; [reflexivity | intro Q; contradiction] |].
  destruct (influxql.MinTimeOf (TimeRange c) =? influxql.MinTime) eqn:M;
    [| inversion E; subst; split; [reflexivity | intro Q; contradiction]].
  apply Z.ltb_lt in N. apply Z.eqb_eq in M.
  apply bind_Ok in E; destruct E as [interval [GI E]].
  apply bind_Ok in E; destruct E as [offset [GO E]].
  destruct (0 <? interval) eqn:P;
    [| inversion E; subst; split; [reflexivity | intro Q; contradiction]].
  apply Z.ltb_lt in P.
  destruct (MaxBucketsN sopt <? _); inversion E; subst; simpl;
    (split; [reflexivity |]); intros _;
    (repeat (split; [first [assumption | reflexivity] |])); exists interval; auto.
Qed.

(** X14. For an aggregate query without lower bound under a bucket limit
    whose last window starts after the epoch, as long as the product of the
    interval and the limit and the bound itself stay within 64 bits, the
    lower bound for mapping shards is the start of the last window less the
    interval times the limit minus one. *)
Theorem shard_range_is_counted_back_from_the_last_window (c : compiledStatement)
    (s : influxql.SelectStatement) (sopt : SelectOptions) (interval offset : time_Duration) :
  0 < MaxBucketsN sopt ->
  influxql.IsRawQuery s = false ->
  influxql.MinTimeOf (TimeRange c) = influxql.MinTime ->
  GroupByInterval s = Ok interval ->
  GroupByOffset s = Ok offset ->
  0 < interval ->
  let last :=
    fst (Window {| opt_Interval := {| query.Duration := interval; query.Offset := offset |};
                   opt_Location := None; StartTime := 0; EndTime := 0; opt_Ascending := false |}
           (wrap64 (influxql.MaxTimeOf (TimeRange c) - 1))) in
  2 <= last <= math_MaxInt64 ->
  in_int64 (interval * (MaxBucketsN sopt - 1)) ->
  math_MinInt64 <= last - interval * (MaxBucketsN sopt - 1) ->
  shardTimeRange c s sopt =
  Ok {| influxql.Min := time_Unix 0 (last - interval * (MaxBucketsN sopt - 1));
        influxql.Max := influxql.Max (TimeRange c) |}.
Proof.
  intros N R M GI GO P last After Product Bound.
  rewrite (shardTimeRange_after_epoch c s sopt interval offset N R M GI GO P After).
  fold last.
  assert (W1 : wrap64 (MaxBucketsN sopt - 1) = MaxBucketsN sopt - 1).
  { apply wrap64_id. unfold in_int64, math_MinInt64, math_MaxInt64 in *. nia. }
  rewrite W1, (wrap64_id _ Product).
  rewrite wrap64_id; [reflexivity |].
  unfold in_int64, math_MinInt64, math_MaxInt64 in *. nia.
Qed.

End Preparing.

(** ** The offset of the grouping interval *)

(** The time since the start of the window of [d] that holds [t]. *)
Lemma time_Sub_Truncate (t : time_Time) (d : time_Duration) :
  (d <= 0 -> time_Sub t (time_Truncate t d) = 0) /\
  (0 < d -> 0 <= time_Sub t (time_Truncate t d) < d).
Proof.
  unfold time_Sub, time_Truncate, math_MinInt64, math_MaxInt64. split; intro D.
  - assert (Q : (d <=? 0) = true) by (apply Z.leb_le; exact D). rewrite Q.
    replace (t - t) with 0 by lia. reflexivity.
  - assert (Q : (d <=? 0) = false) by (apply Z.leb_gt; exact D). rewrite Q.
    replace (t - (t - t mod d)) with (t mod d) by lia.
    pose proof (Z.mod_pos_bound t d D) as B.
    destruct (t mod d <? - 2 ^ 63) eqn:Lo; [apply Z.ltb_lt in Lo; lia |].
    destruct (2 ^ 63 - 1 <? t mod d) eqn:Hi; [apply Z.ltb_lt in Hi; lia | lia].
Qed.

Lemma offsetWithin_time (t : time_Time) (d : time_Duration) :
  offsetWithin {| query.Duration := d; query.Offset := time_Sub t (time_Truncate t d) |}.
Proof.
  unfold offsetWithin. simpl. destruct (time_Sub_Truncate t d) as [Neg Pos].
  destruct (Z_lt_le_dec 0 d) as [P | N].
  - left. specialize (Pos P). lia.
  - rewrite (Neg N). destruct (Z.eq_dec d 0) as [-> | NZ]; [right; auto | left; lia].
Qed.

Section Offsets.

Context `{Collaborators}.

Lemma Interval_set_Offset v c :
  Interval (set_Offset v c) = {| query.Duration := query.Duration (Interval c); query.Offset := v |}.
Proof. destruct c; reflexivity. Qed.

Lemma Interval_set_Duration v c :
  Interval (set_Duration v c) = {| query.Duration := v; query.Offset := query.Offset (Interval c) |}.
Proof. destruct c; reflexivity. Qed.

Lemma compileOffset_within c s arg1 c' :
  compileOffset c s arg1 = Ok c' -> offsetWithin (Interval c').
Proof.
  unfold compileOffset; intro E.
  destruct arg1 as [| | name args | | v | | | | | | | | text | t | |]; try discriminate.
  - destruct (String.eqb name "now"); simpl in E; [| discriminate].
    destruct (len args =? 0); simpl in E; [| discriminate].
    inversion E; subst. rewrite Interval_set_Offset. apply offsetWithin_time.
  - destruct (query.Duration (Interval c) =? 0) eqn:Z; [discriminate |].
    apply Z.eqb_neq in Z. inversion E; subst. rewrite Interval_set_Offset.
    left. simpl. apply Z.rem_bound_abs. exact Z.
  - destruct (IsTimeLiteral text); [| discriminate].
    apply bind_Ok in E; destruct E as [t [_ E]].
    inversion E; subst. rewrite Interval_set_Offset. apply offsetWithin_time.
  - inversion E; subst. rewrite Interval_set_Offset. apply offsetWithin_time.
Qed.

Lemma compileDimension_within c s d c' :
  offsetWithin (Interval c) -> compileDimension c s d = Ok c' -> offsetWithin (Interval c').
Proof.
  intros W E.
  destruct (influxql.dim_Expr d) as [| | name args | | | | | | | | | | | | |] eqn:D;
    try (unfold compileDimension in E; rewrite D in E; outcome_cases; exact W).
  unfold compileDimension in E. rewrite D in E.
  destruct (negb (String.eqb name "time")); [discriminate |].
  destruct ((len args <? 1) || (2 <? len args)); [discriminate |].
  destruct (hd influxql.NilLiteral args) as [| | | | v | | | | | | | | | | |]; try discriminate.
  destruct (query.Duration (Interval c) =? 0) eqn:Z; simpl in E; [| discriminate].
  apply Z.eqb_eq in Z.
  destruct (len args =? 2).
  - eapply compileOffset_within; eassumption.
  - inversion E; subst. rewrite Interval_set_Duration.
    assert (O : query.Offset (Interval c) = 0).
    { destruct W as [W | [W _]]; [rewrite Z in W; simpl in W; lia | exact W]. }
    rewrite O. unfold offsetWithin. simpl.
    destruct (Z.eq_dec v 0) as [-> | NZ]; [right; auto | left; lia].
Qed.

Lemma compileDimensionList_within s ds : forall c c',
  offsetWithin (Interval c) -> compileDimensionList c s ds = Ok c' -> offsetWithin (Interval c').
Proof.
  induction ds as [| d rest IH]; intros c c' W E; simpl in E.
  - inversion E; subst. exact W.
  - apply bind_Ok in E; destruct E as [c1 [E1 E]].
    apply (IH c1 c'); [| exact E]. eapply compileDimension_within; eassumption.
Qed.

Lemma preprocess_within c s c' :
  query.Duration (Interval c) = 0 -> query.Offset (Interval c) = 0 ->
  preprocess c s = Ok c' -> offsetWithin (Interval c').
Proof.
  intros Z O E. destruct (preprocess_Ok _ _ _ E) as [cond [t [cd [_ [E2 [_ [_ ->]]]]]]].
  destruct (resolveTimeRange_bounds (set_FillOption (influxql.Fill s) cd)) as [_ [_ [I _]]].
  rewrite I.
  replace (Interval (set_FillOption (influxql.Fill s) cd)) with (Interval cd)
    by (destruct cd; reflexivity).
  apply (compileDimensionList_within _ _ _ _) with (2 := E2).
  right. destruct c; simpl in *. auto.
Qed.

(** X15. The offset that the dimensions record lies within the interval: it
    is smaller in magnitude than the duration, or both are zero. The
    dimensions keep this from any state that has it, so it holds of every
    statement that [Compile] returns and of every subquery that compiles
    under a parent that has it. *)
Theorem offset_lies_within_the_interval :
  (forall c s c',
     offsetWithin (Interval c) -> compileDimensions c s = Ok c' -> offsetWithin (Interval c')) /\
  (forall s opt c, Compile s opt = Ok c -> offsetWithin (Interval c)) /\
  (forall c s sub,
     offsetWithin (Interval c) ->
     subqueryContext c s = Ok sub \/ subquery c s = Ok sub ->
     offsetWithin (Interval sub)).
Proof.
  split; [| split].
  - intros c s c' W E. unfold compileDimensions in E.
    eapply compileDimensionList_within; eassumption.
  - intros s opt c E. unfold Compile in E.
    apply bind_Ok in E; destruct E as [p [P E]].
    apply bind_Ok in E; destruct E as [c0 [C E]].
    inversion E; subst; clear E.
    replace (Interval (set_stmt _ c0)) with (Interval c0) by (destruct c0; reflexivity).
    rewrite (same_Interval _ _ (compile_sameContext _ _ _ C)).
    apply (preprocess_within (newCompiler opt) s p eq_refl eq_refl P).
  - intros c s sub W E. destruct (subquery_states _ _ _ E) as [sub0 [E0 S]].
    destruct (subqueryContext_inherits _ _ _ E0) as [own [P [_ [_ [_ [I _]]]]]].
    rewrite (same_Interval _ _ S), I.
    destruct (_ && _); [exact W |].
    apply (preprocess_within (newCompiler (Options c)) s own eq_refl eq_refl P).
Qed.

(** ** Dimensions that name tags, and the remainder by a zero duration *)

Lemma compileDimension_tag c s d :
  tagDimension d = true -> compileDimension c s d = Ok c.
Proof.
  unfold tagDimension, compileDimension. intro T.
  destruct (influxql.dim_Expr d); try discriminate; try reflexivity.
  apply negb_true_iff in T. rewrite T. reflexivity.
Qed.

Lemma compileDimensionList_tags s ds : forall c,
  forallb tagDimension ds = true -> compileDimensionList c s ds = Ok c.
Proof.
  induction ds as [| d rest IH]; intros c T; simpl; [reflexivity |].
  simpl in T. apply andb_true_iff in T. destruct T as [T1 T2].
  rewrite (compileDimension_tag _ _ _ T1). simpl. apply IH. exact T2.
Qed.

(** X16. GROUP BY time(0s, d) with a duration d as offset makes the
    compiler take a remainder by zero: where no interval is recorded yet the
    dimension is a run-time panic, not an error, and so is [Compile] on a
    statement that has this dimension after dimensions that name tags, once
    its condition is accepted. *)
Theorem zero_interval_with_duration_offset_panics :
  (forall c s d v,
     query.Duration (Interval c) = 0 ->
     influxql.dim_Expr d =
       influxql.Call "time" [influxql.DurationLiteral 0; influxql.DurationLiteral v] ->
     compileDimension c s d = Panic "runtime error: integer divide by zero") /\
  (forall s opt tags d v rest r,
     influxql.Dimensions s = tags ++ d :: rest ->
     forallb tagDimension tags = true ->
     influxql.dim_Expr d =
       influxql.Call "time" [influxql.DurationLiteral 0; influxql.DurationLiteral v] ->
     ConditionExpr (influxql.Condition s)
       {| influxql.Now_ := Now (Options (newCompiler opt)); influxql.Location_ := influxql.Loc s |}
       = Ok r ->
     Compile s opt = Panic "runtime error: integer divide by zero").
Proof.
  assert (One : forall c s d v,
            query.Duration (Interval c) = 0 ->
            influxql.dim_Expr d =
              influxql.Call "time" [influxql.DurationLiteral 0; influxql.DurationLiteral v] ->
            compileDimension c s d = Panic "runtime error: integer divide by zero").
  { intros c s d v Z D. unfold compileDimension. rewrite D. simpl. rewrite Z. simpl.
    unfold compileOffset. rewrite set_Duration_Duration. reflexivity. }
  split; [exact One |].
  intros s opt tags d v rest r DS T D C.
  unfold Compile, preprocess. cbv zeta.
  replace (Options (set_HasTarget _ _)) with (Options (newCompiler opt)) by reflexivity.
  rewrite C. cbn [bind]. unfold compileDimensions.
  rewrite DS, compileDimensionList_app, (compileDimensionList_tags _ _ _ T). cbn [bind].
  cbn [compileDimensionList]. rewrite (One _ _ d v); [reflexivity | reflexivity | exact D].
Qed.

End Offsets.

(** ** The arguments of a call that compiles *)

Lemma compileSymbol_Ok c name a c' :
  compileSymbol c name a = Ok c' -> isCall a = false.
Proof. unfold compileSymbol. destruct a; intro E; try discriminate; reflexivity. Qed.

Lemma compileDistinct_Ok c args c' :
  compileDistinct c args = Ok c' -> exists v ty, args = [influxql.VarRef v ty].
Proof.
  unfold compileDistinct. intro E.
  destruct args as [| a [| b rest]]; try discriminate.
  destruct a; try discriminate. eauto.
Qed.

Lemma compilePercentile_Ok c args c' :
  compilePercentile c args = Ok c' ->
  exists a p, args = [a; p] /\ numberLiteral p = true /\ isCall a = false.
Proof.
  unfold compilePercentile. intro E.
  destruct args as [| a [| p [| q rest]]]; try discriminate.
  exists a, p. split; [reflexivity |].
  destruct p; try discriminate; (split; [reflexivity | eapply compileSymbol_Ok; eassumption]).
Qed.

Lemma compileSample_Ok c args c' :
  compileSample c args = Ok c' ->
  exists a n, args = [a; influxql.IntegerLiteral n] /\ 0 < n /\ isCall a = false.
Proof.
  unfold compileSample. intro E.
  destruct args as [| a [| p [| q rest]]]; try discriminate.
  destruct p as [| | | | | n | | | | | | | | | |]; try discriminate.
  destruct (n <=? 0) eqn:P; [discriminate |]. apply Z.leb_gt in P.
  exists a, n. split; [reflexivity |]. split; [exact P |]. eapply compileSymbol_Ok; eassumption.
Qed.

Lemma compileIntegral_Ok c args c' :
  compileIntegral c args = Ok c' ->
  exists a rest, args = a :: rest /\ derivativeRest rest /\ isCall a = false.
Proof.
  unfold compileIntegral. intro E.
  destruct ((2 <? len args) || (len args <? 1)) eqn:L; [discriminate |].
  apply bind_Ok in E; destruct E as [u [D E]].
  destruct args as [| a [| p [| q rest]]].
  - discriminate L.
  - exists a, []. split; [reflexivity |]. split; [left; reflexivity |].
    eapply compileSymbol_Ok; eassumption.
  - exists a, [p]. split; [reflexivity |]. split; [| eapply compileSymbol_Ok; eassumption].
    destruct p as [| | | | d | | | | | | | | | | |]; try discriminate.
    destruct (d <=? 0) eqn:P; [discriminate |]. apply Z.leb_gt in P.
    right. exists d. auto.
  - exfalso. unfold len in L. simpl in L. apply orb_false_iff in L. destruct L as [L _].
    apply Z.ltb_ge in L. lia.
Qed.

Section NestedCallsOk.

Variable rec : receiver -> influxql.Expr -> outcome receiver.

Lemma callOrSymbol_Ok c name e1 e2 a c' :
  callOrSymbol rec c name e1 e2 a = Ok c' ->
  query.IsZero (Interval (global c)) = negb (isCall a).
Proof.
  unfold callOrSymbol. intro E.
  destruct a; simpl;
    destruct (query.IsZero (Interval (global c))); simpl in E; try discriminate; reflexivity.
Qed.

Lemma durationArg_Ok e a : durationArg e a = Ok tt -> exists d, a = influxql.DurationLiteral d /\ 0 < d.
Proof.
  unfold durationArg. destruct a as [| | | | d | | | | | | | | | | |]; intro E; try discriminate.
  destruct (d <=? 0) eqn:P; [discriminate |]. apply Z.leb_gt in P. eauto.
Qed.

Lemma compileDerivative_Ok c args b c' :
  compileDerivative rec c args b = Ok c' ->
  exists a rest, args = a :: rest /\ derivativeRest rest /\
    query.IsZero (Interval (global c)) = negb (isCall a).
Proof.
  unfold compileDerivative. intro E.
  destruct args as [| a [| p [| q rest]]]; try discriminate.
  - exists a, []. split; [reflexivity |]. split; [left; reflexivity |].
    apply callOrSymbol_Ok in E. rewrite <- E. destruct c as [g t]; destruct g; reflexivity.
  - apply bind_Ok in E; destruct E as [[] [D E]].
    apply durationArg_Ok in D. destruct D as [d [-> P]].
    exists a, [influxql.DurationLiteral d]. split; [reflexivity |].
    split; [right; exists d; auto |].
    apply callOrSymbol_Ok in E. rewrite <- E. destruct c as [g t]; destruct g; reflexivity.
Qed.

Lemma compileElapsed_Ok c args c' :
  compileElapsed rec c args = Ok c' ->
  exists a rest, args = a :: rest /\ derivativeRest rest /\
    query.IsZero (Interval (global c)) = negb (isCall a).
Proof.
  unfold compileElapsed. intro E.
  destruct args as [| a [| p [| q rest]]]; try discriminate.
  - exists a, []. split; [reflexivity |]. split; [left; reflexivity |].
    apply callOrSymbol_Ok in E. rewrite <- E. destruct c as [g t]; destruct g; reflexivity.
  - apply bind_Ok in E; destruct E as [[] [D E]].
    apply durationArg_Ok in D. destruct D as [d [-> P]].
    exists a, [influxql.DurationLiteral d]. split; [reflexivity |].
    split; [right; exists d; auto |].
    apply callOrSymbol_Ok in E. rewrite <- E. destruct c as [g t]; destruct g; reflexivity.
Qed.

Lemma compileDifference_Ok c args b c' :
  compileDifference rec c args b = Ok c' ->
  exists a, args = [a] /\ query.IsZero (Interval (global c)) = negb (isCall a).
Proof.
  unfold compileDifference. intro E.
  destruct args as [| a [| p rest]]; try discriminate.
  exists a. split; [reflexivity |].
  apply callOrSymbol_Ok in E. rewrite <- E. destruct c as [g t]; destruct g; reflexivity.
Qed.

Lemma compileCumulativeSum_Ok c args c' :
  compileCumulativeSum rec c args = Ok c' ->
  exists a, args = [a] /\ query.IsZero (Interval (global c)) = negb (isCall a).
Proof.
  unfold compileCumulativeSum. intro E.
  destruct args as [| a [| p rest]]; try discriminate.
  exists a. split; [reflexivity |].
  apply callOrSymbol_Ok in E. rewrite <- E. destruct c as [g t]; destruct g; reflexivity.
Qed.

Lemma compileMovingAverage_Ok c args c' :
  compileMovingAverage rec c args = Ok c' ->
  exists a n, args = [a; influxql.IntegerLiteral n] /\ 1 < n /\
    query.IsZero (Interval (global c)) = negb (isCall a).
Proof.
  unfold compileMovingAverage. intro E.
  destruct args as [| a [| p [| q rest]]]; try discriminate.
  destruct p as [| | | | | n | | | | | | | | | |]; try discriminate.
  destruct (n <=? 1) eqn:P; [discriminate |]. apply Z.leb_gt in P.
  exists a, n. split; [reflexivity |]. split; [exact P |].
  apply callOrSymbol_Ok in E. rewrite <- E. destruct c as [g t]; destruct g; reflexivity.
Qed.

Lemma compileHoltWinters_Ok c args b c' :
  compileHoltWinters rec c args b = Ok c' ->
  exists a n s, args = [a; influxql.IntegerLiteral n; influxql.IntegerLiteral s] /\
    0 < n /\ 0 <= s /\ isCall a = true /\ query.IsZero (Interval (global c)) = false.
Proof.
  unfold compileHoltWinters. intro E.
  destruct args as [| a [| p [| q [| x rest]]]]; try discriminate.
  destruct p as [| | | | | n | | | | | | | | | |]; try discriminate.
  destruct (n <=? 0) eqn:P; [discriminate |]. apply Z.leb_gt in P.
  destruct q as [| | | | | s | | | | | | | | | |]; try discriminate.
  destruct (s <? 0) eqn:Q; [discriminate |]. apply Z.ltb_ge in Q.
  destruct a; try discriminate.
  destruct (query.IsZero _) eqn:Z; [discriminate |].
  eexists _, n, s. split; [reflexivity |]. repeat (split; [assumption |]).
  split; [reflexivity |]. rewrite <- Z. destruct c as [g t]; destruct g; reflexivity.
Qed.

End NestedCallsOk.

Lemma compileFunction_Ok c name args c' :
  compileFunction c name args = Ok c' ->
  exists a, args = [a] /\
    (isCall a = true -> name = "count" /\ exists v ty, a = influxql.Call "distinct" [influxql.VarRef v ty]).
Proof.
  unfold compileFunction. intro E.
  apply bind_Ok in E; destruct E as [c1 [_ E]].
  destruct args as [| a [| b rest]]; try discriminate.
  exists a. split; [reflexivity |]. intro C.
  destruct (String.eqb name "count") eqn:N.
  - apply String.eqb_eq in N. split; [exact N |].
    destruct a as [| | dname dargs | | | | | | | | | | | | |]; try discriminate C.
    destruct (String.eqb dname "distinct") eqn:D.
    + apply String.eqb_eq in D; subst dname.
      apply compileDistinct_Ok in E. destruct E as [v [ty ->]]. eauto.
    + apply compileSymbol_Ok in E. discriminate E.
  - apply compileSymbol_Ok in E. rewrite E in C. discriminate C.
Qed.

Lemma compileTopBottomTags_Ok name tags : forall c c',
  compileTopBottomTags c name tags = Ok c' -> forallb isVarRef tags = true.
Proof.
  induction tags as [| v rest IH]; intros c c' E; simpl in E; [reflexivity |].
  destruct v; try discriminate. simpl.
  destruct (negb (HasTarget (global c))); eapply IH; eassumption.
Qed.

Lemma two_or_more {A : Type} (d : A) (l : list A) :
  2 <= len l -> l = hd d l :: removelast (tl l) ++ [last l d].
Proof.
  destruct l as [| a [| b rest]]; unfold len; simpl List.length; try lia.
  intros _. cbn [hd tl]. f_equal.
  change (last (a :: b :: rest) d) with (last (b :: rest) d).
  apply app_removelast_last. discriminate.
Qed.

Lemma compileTopBottom_arguments c name args c' :
  compileTopBottom c name args = Ok c' ->
  exists v ty tags n,
    args = influxql.VarRef v ty :: tags ++ [influxql.IntegerLiteral n] /\
    tags = removelast (tl args) /\
    forallb isVarRef tags = true /\ 0 < n.
Proof.
  intro E. destruct (compileTopBottom_Ok _ _ _ _ E) as [_ [Two [n [L [P _]]]]].
  unfold compileTopBottom in E.
  destruct (negb _); [discriminate |].
  destruct (len args <? 2); [discriminate |].
  rewrite L in E.
  destruct (n <=? 0); [discriminate |].
  destruct (_ && _); [discriminate |].
  destruct (hd influxql.NilLiteral args) as [| | | | | | | | | | | | | | v ty |] eqn:Hd;
    try discriminate.
  apply bind_Ok in E; destruct E as [c1 [E1 _]].
  exists v, ty, (removelast (tl args)), n.
  split; [| split; [reflexivity | split; [| exact P]]].
  - rewrite <- Hd, <- L. apply two_or_more. exact Two.
  - destruct (2 <? len args) eqn:More.
    + eapply compileTopBottomTags_Ok; eassumption.
    + apply Z.ltb_ge in More.
      destruct args as [| a [| b [| x rest]]]; unfold len in *; simpl in *; try lia; reflexivity.
Qed.

(** X17. A call that compiles has the number and the kinds of arguments that
    its function takes: percentile() a second argument that is an integer or
    a number literal; sample() a positive integer literal; moving_average()
    an integer literal above one; holt_winters() two integer literals, the
    first positive and the second not negative; derivative(), elapsed() and
    integral() at most a second argument, which is a positive duration
    literal; top() and bottom() a reference first, an integer literal above
    zero last and references between them; and every other function one
    argument. *)
Theorem compiled_calls_have_checked_arguments (c : receiver) (name : string)
    (args : list influxql.Expr) (c' : receiver) :
  compileExpr c (influxql.Call name args) = Ok c' ->
  (name = "percentile" -> exists a p, args = [a; p] /\ numberLiteral p = true) /\
  (name = "sample" -> exists a n, args = [a; influxql.IntegerLiteral n] /\ 0 < n) /\
  (name = "moving_average" -> exists a n, args = [a; influxql.IntegerLiteral n] /\ 1 < n) /\
  (In name holtWintersNames ->
   exists a n s, args = [a; influxql.IntegerLiteral n; influxql.IntegerLiteral s] /\
                 0 < n /\ 0 <= s) /\
  (In name durationNames -> exists a rest, args = a :: rest /\ derivativeRest rest) /\
  (In name ["top"; "bottom"] ->
   exists v ty tags n,
     args = influxql.VarRef v ty :: tags ++ [influxql.IntegerLiteral n] /\
     forallb isVarRef tags = true /\ 0 < n) /\
  (In name singleNames -> exists a, args = [a]).
Proof.
  intro E.
  split; [| split; [| split; [| split; [| split; [| split]]]]].
  - intros ->. change (compilePercentile
                         (on_global (fun g => set_FunctionCalls
                            (FunctionCalls g ++ [influxql.Call "percentile" args]) g) c) args = Ok c') in E.
    destruct (compilePercentile_Ok _ _ _ E) as [a [p [A [N _]]]]. eauto.
  - intros ->. change (compileSample
                         (on_global (fun g => set_FunctionCalls
                            (FunctionCalls g ++ [influxql.Call "sample" args]) g) c) args = Ok c') in E.
    destruct (compileSample_Ok _ _ _ E) as [a [n [A [P _]]]]. eauto.
  - intros ->. change (compileMovingAverage compileExpr
                         (on_global (fun g => set_FunctionCalls
                            (FunctionCalls g ++ [influxql.Call "moving_average" args]) g) c) args = Ok c') in E.
    destruct (compileMovingAverage_Ok _ _ _ _ E) as [a [n [A [P _]]]]. eauto.
  - intro N. simpl in N. destruct N as [<- | [<- | []]];
      match type of E with
      | compileExpr ?c (influxql.Call ?n ?a) = _ =>
          change (compileHoltWinters compileExpr
                    (on_global (fun g => set_FunctionCalls
                       (FunctionCalls g ++ [influxql.Call n a]) g) c) a
                    (String.eqb n "holt_winters_with_fit") = Ok c') in E
      end;
      destruct (compileHoltWinters_Ok _ _ _ _ _ E) as [a [n [s [A [P [Q _]]]]]]; eauto 10.
  - intro N. simpl in N. destruct N as [<- | [<- | [<- | [<- | []]]]].
    + change (compileDerivative compileExpr
                (on_global (fun g => set_FunctionCalls
                   (FunctionCalls g ++ [influxql.Call "derivative" args]) g) c) args false = Ok c') in E.
      destruct (compileDerivative_Ok _ _ _ _ _ E) as [a [rest [A [R _]]]]. eauto.
    + change (compileDerivative compileExpr
                (on_global (fun g => set_FunctionCalls
                   (FunctionCalls g ++ [influxql.Call "non_negative_derivative" args]) g) c) args true = Ok c') in E.
      destruct (compileDerivative_Ok _ _ _ _ _ E) as [a [rest [A [R _]]]]. eauto.
    + change (compileElapsed compileExpr
                (on_global (fun g => set_FunctionCalls
                   (FunctionCalls g ++ [influxql.Call "elapsed" args]) g) c) args = Ok c') in E.
      destruct (compileElapsed_Ok _ _ _ _ E) as [a [rest [A [R _]]]]. eauto.
    + change (compileIntegral
                (on_global (fun g => set_FunctionCalls
                   (FunctionCalls g ++ [influxql.Call "integral" args]) g) c) args = Ok c') in E.
      destruct (compileIntegral_Ok _ _ _ E) as [a [rest [A [R _]]]]. eauto.
  - intro N. simpl in N. destruct N as [<- | [<- | []]];
      match type of E with
      | compileExpr ?c (influxql.Call ?n ?a) = _ =>
          change (compileTopBottom
                    (on_global (fun g => set_FunctionCalls
                       (FunctionCalls g ++ [influxql.Call n a]) g) c) n a = Ok c') in E
      end;
      destruct (compileTopBottom_arguments _ _ _ _ E) as [v [ty [tags [n [A [_ [T P]]]]]]];
      eauto 10.
  - intro N. simpl in N.
    destruct N as [<- | N].
    { change (compileDistinct
                (on_global (fun g => set_FunctionCalls
                   (FunctionCalls g ++ [influxql.Call "distinct" args]) g) c) args = Ok c') in E.
      destruct (compileDistinct_Ok _ _ _ E) as [v [ty ->]]. eauto. }
    destruct N as [<- | N].
    { change (compileDifference compileExpr
                (on_global (fun g => set_FunctionCalls
                   (FunctionCalls g ++ [influxql.Call "difference" args]) g) c) args false = Ok c') in E.
      destruct (compileDifference_Ok _ _ _ _ _ E) as [a [A _]]. eauto. }
    destruct N as [<- | N].
    { change (compileDifference compileExpr
                (on_global (fun g => set_FunctionCalls
                   (FunctionCalls g ++ [influxql.Call "non_negative_difference" args]) g) c) args true = Ok c') in E.
      destruct (compileDifference_Ok _ _ _ _ _ E) as [a [A _]]. eauto. }
    destruct N as [<- | N].
    { change (compileCumulativeSum compileExpr
                (on_global (fun g => set_FunctionCalls
                   (FunctionCalls g ++ [influxql.Call "cumulative_sum" args]) g) c) args = Ok c') in E.
      destruct (compileCumulativeSum_Ok _ _ _ _ E) as [a [A _]]. eauto. }
    repeat (destruct N as [<- | N];
      [ match type of E with
        | compileExpr ?c (influxql.Call ?n ?a) = _ =>
            change (compileFunction
                      (on_global (fun g => set_FunctionCalls
                         (FunctionCalls g ++ [influxql.Call n a]) g) c) n a = Ok c') in E
        end;
        destruct (compileFunction_Ok _ _ _ _ E) as [a [A _]]; eauto |]).
    contradiction.
Qed.

(** ** Calls as first arguments *)

Lemma Interval_recorded e c :
  Interval (global (on_global (fun g => set_FunctionCalls (FunctionCalls g ++ [e]) g) c)) =
  Interval (global c).
Proof. destruct c as [g t]; destruct g; reflexivity. Qed.

(** X18. A call takes a call as its first argument only where the function
    transforms an aggregate. For difference(), cumulative_sum(),
    moving_average(), elapsed() and derivative(), in their plain and
    non-negative forms, the call compiles with a call as first argument only
    under a grouping interval and with anything else only without one;
    holt_winters() compiles only with a call as first argument and under a
    grouping interval; and no other function compiles with a call as first
    argument, except count() of distinct() of a reference. *)
Theorem nested_calls_need_an_interval (c : receiver) (name : string) (arg0 : influxql.Expr)
    (rest : list influxql.Expr) (c' : receiver) :
  compileExpr c (influxql.Call name (arg0 :: rest)) = Ok c' ->
  (In name transformNames -> query.IsZero (Interval (global c)) = negb (isCall arg0)) /\
  (In name holtWintersNames ->
   isCall arg0 = true /\ query.IsZero (Interval (global c)) = false) /\
  (~ In name transformNames -> ~ In name holtWintersNames -> isCall arg0 = true ->
   name = "count" /\ exists v ty, arg0 = influxql.Call "distinct" [influxql.VarRef v ty]).
Proof.
  intro E. rewrite compileExpr_dispatch in E. cbv zeta in E.
  rewrite <- (Interval_recorded (influxql.Call name (arg0 :: rest)) c).
  set (c1 := on_global _ c) in *. clearbody c1.
  assert (Head : forall a l, arg0 :: rest = a :: l -> a = arg0) by (intros a l Q; now inversion Q).
  destruct (String.eqb name "percentile") eqn:N1.
  { apply String.eqb_eq in N1; subst name.
    destruct (compilePercentile_Ok _ _ _ E) as [a [p [A [_ C]]]].
    inversion A; subst.
    split; [intro N; simpl in N; intuition discriminate |].
    split; [intro N; simpl in N; intuition discriminate |].
    intros _ _ Q. rewrite C in Q. discriminate. }
  destruct (String.eqb name "sample") eqn:N2.
  { apply String.eqb_eq in N2; subst name.
    destruct (compileSample_Ok _ _ _ E) as [a [n [A [_ C]]]].
    inversion A; subst.
    split; [intro N; simpl in N; intuition discriminate |].
    split; [intro N; simpl in N; intuition discriminate |].
    intros _ _ Q. rewrite C in Q. discriminate. }
  destruct (String.eqb name "distinct") eqn:N3.
  { apply String.eqb_eq in N3; subst name.
    destruct (compileDistinct_Ok _ _ _ E) as [v [ty A]].
    inversion A; subst.
    split; [intro N; simpl in N; intuition discriminate |].
    split; [intro N; simpl in N; intuition discriminate |].
    intros _ _ Q. discriminate Q. }
  destruct (string_in name ["top"; "bottom"]) eqn:N4.
  { apply string_in_In in N4.
    destruct (compileTopBottom_arguments _ _ _ _ E) as [v [ty [tags [n [A _]]]]].
    inversion A; subst.
    split; [intro N; simpl in N, N4; intuition (subst; discriminate) |].
    split; [intro N; simpl in N, N4; intuition (subst; discriminate) |].
    intros _ _ Q. discriminate Q. }
  destruct (string_in name ["derivative"; "non_negative_derivative"]) eqn:N5.
  { apply string_in_In in N5.
    destruct (compileDerivative_Ok _ _ _ _ _ E) as [a [l [A [_ Z]]]].
    rewrite (Head _ _ A) in Z.
    split; [intros _; exact Z |].
    split; [intro N; simpl in N, N5; intuition (subst; discriminate) |].
    intro N; exfalso; apply N; simpl in *; tauto. }
  destruct (string_in name ["difference"; "non_negative_difference"]) eqn:N6.
  { apply string_in_In in N6.
    destruct (compileDifference_Ok _ _ _ _ _ E) as [a [A Z]].
    rewrite (Head _ _ A) in Z.
    split; [intros _; exact Z |].
    split; [intro N; simpl in N, N6; intuition (subst; discriminate) |].
    intro N; exfalso; apply N; simpl in *; tauto. }
  destruct (String.eqb name "cumulative_sum") eqn:N7.
  { apply String.eqb_eq in N7; subst name.
    destruct (compileCumulativeSum_Ok _ _ _ _ E) as [a [A Z]].
    rewrite (Head _ _ A) in Z.
    split; [intros _; exact Z |].
    split; [intro N; simpl in N; intuition discriminate |].
    intro N; exfalso; apply N; simpl; tauto. }
  destruct (String.eqb name "moving_average") eqn:N8.
  { apply String.eqb_eq in N8; subst name.
    destruct (compileMovingAverage_Ok _ _ _ _ E) as [a [n [A [_ Z]]]].
    rewrite (Head _ _ A) in Z.
    split; [intros _; exact Z |].
    split; [intro N; simpl in N; intuition discriminate |].
    intro N; exfalso; apply N; simpl; tauto. }
  destruct (String.eqb name "elapsed") eqn:N9.
  { apply String.eqb_eq in N9; subst name.
    destruct (compileElapsed_Ok _ _ _ _ E) as [a [l [A [_ Z]]]].
    rewrite (Head _ _ A) in Z.
    split; [intros _; exact Z |].
    split; [intro N; simpl in N; intuition discriminate |].
    intro N; exfalso; apply N; simpl; tauto. }
  destruct (String.eqb name "integral") eqn:N10.
  { apply String.eqb_eq in N10; subst name.
    destruct (compileIntegral_Ok _ _ _ E) as [a [l [A [_ C]]]].
    rewrite (Head _ _ A) in C.
    split; [intro N; simpl in N; intuition discriminate |].
    split; [intro N; simpl in N; intuition discriminate |].
    intros _ _ Q. rewrite C in Q. discriminate. }
  destruct (string_in name ["holt_winters"; "holt_winters_with_fit"]) eqn:N11.
  { apply string_in_In in N11.
    destruct (compileHoltWinters_Ok _ _ _ _ _ E) as [a [n [s [A [_ [_ [C Z]]]]]]].
    rewrite (Head _ _ A) in C.
    split; [intro N; simpl in N, N11; intuition (subst; discriminate) |].
    split; [intros _; split; assumption |].
    intros _ N; exfalso; apply N; exact N11. }
  destruct (compileFunction_Ok _ _ _ _ E) as [a [A Count]].
  rewrite (Head _ _ A) in Count.
  assert (Not5 : ~ In name ["derivative"; "non_negative_derivative"]).
  { intro Q. apply string_in_In in Q. congruence. }
  assert (Not6 : ~ In name ["difference"; "non_negative_difference"]).
  { intro Q. apply string_in_In in Q. congruence. }
  assert (Not11 : ~ In name holtWintersNames).
  { intro Q. apply string_in_In in Q. unfold holtWintersNames in Q. congruence. }
  split; [| split].
  - intro N. exfalso. simpl in N, Not5, Not6.
    destruct N as [N | [N | [N | [N | [N | [N | [N | []]]]]]]]; subst;
      first [ apply Not5; tauto | apply Not6; tauto | discriminate ].
  - intro N. contradiction.
  - intros _ _ C. apply Count. exact C.
Qed.

(** ** The tags of top() and bottom() *)

Lemma compileTopBottomTags_fields name tags : forall c c',
  compileTopBottomTags c name tags = Ok c' ->
  HasTarget (global c') = HasTarget (global c) /\
  (HasTarget (global c) = true -> global c' = global c) /\
  (HasTarget (global c) = false ->
   Fields (global c') = Fields (global c) ++ map tagField tags /\
   (tags <> [] -> HasAuxiliaryFields (global c') = true) /\
   (HasAuxiliaryFields (global c) = true -> HasAuxiliaryFields (global c') = true)).
Proof.
  induction tags as [| v rest IH]; intros c c' E; simpl in E.
  - inversion E; subst. split; [reflexivity |]. split; [reflexivity |].
    intros _. split; [now rewrite app_nil_r |]. split; [intro N; contradiction | auto].
  - destruct v as [| | | | | | | | | | | | | | val ty |]; try discriminate.
    destruct (HasTarget (global c)) eqn:T; simpl in E.
    + destruct (IH _ _ E) as [T' [Same _]].
      split; [congruence |]. split; [intros _; apply Same; exact T | intro Q; discriminate].
    + destruct (IH _ _ E) as [T' [_ Added]]. simpl in T', Added.
      assert (T1 : HasTarget (set_HasAuxiliaryFields true
                      (set_Fields (Fields (global c) ++
                         [{| Field := {| influxql.Expr_ := influxql.VarRef val ty; influxql.Alias := "" |};
                             AllowWildcard := false |}]) (global c))) = false)
        by (destruct (global c); simpl in *; exact T).
      split; [congruence |]. split; [intro Q; discriminate |]. intros _.
      destruct (Added T1) as [F [_ A]].
      split; [| split].
      * rewrite F.
        replace (Fields (set_HasAuxiliaryFields true (set_Fields _ (global c))))
          with (Fields (global c) ++ [tagField (influxql.VarRef val ty)])
          by (destruct (global c); reflexivity).
        rewrite <- app_assoc. reflexivity.
      * intros _. apply A. destruct (global c); reflexivity.
      * intros _. apply A. destruct (global c); reflexivity.
Qed.

(** ** Statements that compile *)

Lemma compileField_simple_call c name v ty alias :
  In name simpleNames ->
  exists c',
    compileField c {| influxql.Expr_ := influxql.Call name [influxql.VarRef v ty];
                      influxql.Alias := alias |} = Ok c' /\
    Fields c' <> [] /\
    FunctionCalls c' = FunctionCalls c ++ [influxql.Call name [influxql.VarRef v ty]] /\
    HasDistinct c' = HasDistinct c /\
    TopBottomFunction c' = TopBottomFunction c /\
    HasAuxiliaryFields c' = HasAuxiliaryFields c.
Proof.
  intro N. destruct c. simpl in N.
  repeat (destruct N as [<- | N];
    [eexists; split; [reflexivity |]; simpl;
     split; [intro Q; apply (f_equal (@List.length _)) in Q;
            rewrite length_set_nth, length_app in Q; simpl in Q; lia | auto] |]).
  contradiction.
Qed.

Lemma compileField_auxiliary c f :
  auxiliaryExpr (influxql.Expr_ f) = true ->
  exists c',
    compileField c f = Ok c' /\
    Fields c' <> [] /\
    FunctionCalls c' = FunctionCalls c /\
    OnlySelectors c' = OnlySelectors c /\
    HasDistinct c' = HasDistinct c /\
    TopBottomFunction c' = TopBottomFunction c /\
    HasAuxiliaryFields c' = true.
Proof.
  intro A. unfold compileField. destruct c.
  destruct (influxql.Expr_ f) as [| | | | | | | | | | re | | | | val ty | w]; try discriminate A.
  - eexists; split; [reflexivity |]. simpl.
    split; [intro Q; apply (f_equal (@List.length _)) in Q;
            rewrite length_set_nth, length_app in Q; simpl in Q; lia | auto 10].
  - simpl in A. apply negb_true_iff in A. simpl. rewrite A.
    eexists; split; [reflexivity |]. simpl.
    split; [intro Q; apply (f_equal (@List.length _)) in Q;
            rewrite length_set_nth, length_app in Q; simpl in Q; lia | auto 10].
  - eexists; split; [reflexivity |]. simpl.
    split; [intro Q; apply (f_equal (@List.length _)) in Q;
            rewrite length_set_nth, length_app in Q; simpl in Q; lia | auto 10].
Qed.

Lemma compileFieldList_auxiliary fs : forall c,
  (forall f, In f fs -> auxiliaryExpr (influxql.Expr_ f) = true) ->
  exists c',
    compileFieldList c fs = Ok c' /\
    (fs <> [] -> Fields c' <> [] /\ HasAuxiliaryFields c' = true) /\
    FunctionCalls c' = FunctionCalls c /\
    OnlySelectors c' = OnlySelectors c /\
    HasDistinct c' = HasDistinct c /\
    TopBottomFunction c' = TopBottomFunction c.
Proof.
  induction fs as [| f rest IH]; intros c A; simpl.
  - exists c. split; [reflexivity |]. split; [intro N; contradiction | auto].
  - destruct (compileField_auxiliary c f (A f (or_introl eq_refl)))
      as [c1 [E1 [F1 [C1 [O1 [D1 [T1 X1]]]]]]].
    destruct (IH c1 (fun g I => A g (or_intror I))) as [c' [E [Some_ [C [O [D T]]]]]].
    exists c'. rewrite E1. simpl. split; [exact E |].
    split; [| repeat split; congruence].
    intros _. destruct rest as [| g rest'].
    + simpl in E. inversion E; subst. split; assumption.
    + apply Some_. discriminate.
Qed.

Section Acceptance.

Context `{Collaborators}.

Lemma preprocess_unmarked opt s p :
  preprocess (newCompiler opt) s = Ok p -> unmarked p.
Proof.
  intro P. destruct (preprocess_records _ _ _ P)
    as [_ [_ [_ [In_ [C [O [D [T [A _]]]]]]]]].
  unfold unmarked. simpl in *. auto 10.
Qed.

(** X19. The compiler accepts the plain statements. A statement without
    subqueries whose condition and dimensions are accepted compiles when its
    one field is a call of max, min, first, last, count, sum, mean, median,
    mode, stddev or spread on a reference, whatever its fill option and its
    grouping; and it compiles when it has fields and each is a reference
    other than [time], a wildcard or a regular expression, as long as it
    declares no grouping interval and asks neither for fill(none) nor for
    fill(linear). *)
Theorem plain_statements_compile :
  (forall s opt p name v ty alias,
     preprocess (newCompiler opt) s = Ok p ->
     noSubqueries s ->
     influxql.Fields s = [{| influxql.Expr_ := influxql.Call name [influxql.VarRef v ty];
                             influxql.Alias := alias |}] ->
     In name simpleNames ->
     exists c,
       Compile s opt = Ok c /\
       FunctionCalls c = [influxql.Call name [influxql.VarRef v ty]] /\
       HasAuxiliaryFields c = false) /\
  (forall s opt p,
     preprocess (newCompiler opt) s = Ok p ->
     noSubqueries s ->
     influxql.Fields s <> [] ->
     (forall f, In f (influxql.Fields s) -> auxiliaryExpr (influxql.Expr_ f) = true) ->
     influxql.Fill s <> influxql.NoFill ->
     influxql.Fill s <> influxql.LinearFill ->
     ~ declaresInterval s ->
     exists c,
       Compile s opt = Ok c /\ FunctionCalls c = [] /\ HasAuxiliaryFields c = true).
Proof.
  assert (Run : forall s opt p c1,
            preprocess (newCompiler opt) s = Ok p ->
            noSubqueries s ->
            compileFields p s = Ok c1 ->
            validateFields c1 = Ok tt ->
            exists c, Compile s opt = Ok c /\ FunctionCalls c = FunctionCalls c1 /\
                      HasAuxiliaryFields c = HasAuxiliaryFields c1).
  { intros s opt p c1 P M F V. unfold Compile. rewrite P. cbn [bind].
    rewrite compile_unfold, F. cbn [bind]. rewrite V. cbn [bind].
    rewrite (compileSources_measurements c1 _ M). cbn [bind].
    eexists. split; [reflexivity |]. destruct c1; split; reflexivity. }
  split.
  - intros s opt p name v ty alias P M F N.
    destruct (preprocess_unmarked _ _ _ P) as [C [O [D [T [A In_]]]]].
    destruct (compileField_simple_call (set_Fields [] p) name v ty alias N)
      as [c1 [E1 [F1 [C1 [D1 [T1 A1]]]]]].
    rewrite FunctionCalls_set_Fields, C in C1. simpl in C1.
    rewrite HasDistinct_set_Fields, D in D1.
    rewrite TopBottomFunction_set_Fields, T in T1.
    rewrite HasAuxiliaryFields_set_Fields, A in A1.
    assert (E : compileFields p s = Ok c1).
    { unfold compileFields. rewrite F. simpl. rewrite E1. reflexivity. }
    assert (V : validateFields c1 = Ok tt).
    { unfold validateFields.
      assert (L : (len (Fields c1) =? 0) = false).
      { apply Z.eqb_neq. intro Z. apply len_zero in Z. contradiction. }
      rewrite L, C1, D1, T1, A1. reflexivity. }
    destruct (Run s opt p c1 P M E V) as [c [R [RC RA]]].
    exists c. split; [exact R |]. split; congruence.
  - intros s opt p P M Some_ Aux F1 F2 ND.
    destruct (preprocess_unmarked _ _ _ P) as [C [O [D [T [A In_]]]]].
    destruct (compileFieldList_auxiliary (influxql.Fields s) (set_Fields [] p) Aux)
      as [c1 [E [Marked [C1 [O1 [D1 T1]]]]]].
    destruct (Marked Some_) as [Fs A1].
    rewrite FunctionCalls_set_Fields, C in C1.
    rewrite OnlySelectors_set_Fields, O in O1.
    rewrite HasDistinct_set_Fields, D in D1.
    rewrite TopBottomFunction_set_Fields, T in T1.
    pose proof (compileFields_sameContext _ _ _ E) as S.
    assert (Z : query.IsZero (Interval c1) = true).
    { rewrite (same_Interval _ _ S).
      destruct (query.IsZero (Interval p)) eqn:Q; [reflexivity |].
      exfalso. apply ND.
      apply (preprocess_declared _ _ _ (newCompiler_Interval opt) P). exact Q. }
    assert (Fl : FillOption c1 = influxql.Fill s).
    { rewrite (same_FillOption _ _ S). apply (preprocess_FillOption _ _ _ P). }
    assert (V : validateFields c1 = Ok tt).
    { unfold validateFields.
      assert (L : (len (Fields c1) =? 0) = false).
      { apply Z.eqb_neq. intro Q. apply len_zero in Q. contradiction. }
      rewrite L, C1, D1, T1, A1, O1, Z, Fl. simpl.
      destruct (influxql.Fill s); try reflexivity; contradiction. }
    destruct (Run s opt p c1 P M E V) as [c [R [RC RA]]].
    exists c. split; [exact R |]. split; congruence.
Qed.

End Acceptance.

(** ** The recorded calls and the compiled fields *)

Lemma untouched_refl c : untouched c c.
Proof. split; reflexivity. Qed.

Lemma untouched_trans c1 c2 c3 : untouched c1 c2 -> untouched c2 c3 -> untouched c1 c3.
Proof. intros [A B] [C D]. split; congruence. Qed.

Ltac untouched_by_computation :=
  unfold untouched; simpl;
  repeat match goal with
    | |- context [global ?c] => destruct (global c)
    end;
  simpl; auto.

Lemma untouched_set_OnlySelectors v c : untouched c (on_global (set_OnlySelectors v) c).
Proof. untouched_by_computation. Qed.

Lemma untouched_set_HasDistinct v c : untouched c (on_global (set_HasDistinct v) c).
Proof. untouched_by_computation. Qed.

Lemma untouched_set_HasAuxiliaryFields v c : untouched c (on_global (set_HasAuxiliaryFields v) c).
Proof. untouched_by_computation. Qed.

Lemma untouched_set_TopBottomFunction v c : untouched c (on_global (set_TopBottomFunction v) c).
Proof. untouched_by_computation. Qed.

Lemma untouched_set_AllowWildcard v c : untouched c (set_AllowWildcard v c).
Proof. split; reflexivity. Qed.

Ltac untouched_steps :=
  simpl;
  repeat first
    [ apply untouched_refl
    | apply untouched_set_OnlySelectors
    | apply untouched_set_HasDistinct
    | apply untouched_set_HasAuxiliaryFields
    | eapply untouched_trans; [ | solve [ apply untouched_set_OnlySelectors
                                        | apply untouched_set_HasDistinct
                                        | apply untouched_set_HasAuxiliaryFields ] ] ].

Lemma compileSymbol_untouched c name e c' :
  compileSymbol c name e = Ok c' -> untouched c c'.
Proof. unfold compileSymbol; intro H; outcome_cases; untouched_steps. Qed.

Lemma compileDistinct_untouched c args c' :
  compileDistinct c args = Ok c' -> untouched c c'.
Proof. unfold compileDistinct; intro H; outcome_cases; untouched_steps. Qed.

Lemma compileFunction_untouched c name args c' :
  compileFunction c name args = Ok c' -> untouched c c'.
Proof.
  unfold compileFunction; intro H.
  apply bind_Ok in H; destruct H as [c1 [H1 H]].
  assert (K1 : untouched c c1) by (outcome_cases; untouched_steps).
  apply untouched_trans with c1; [exact K1 |].
  outcome_cases;
    first [ eapply compileDistinct_untouched; eassumption
          | eapply compileSymbol_untouched; eassumption ].
Qed.

Lemma compilePercentile_untouched c args c' :
  compilePercentile c args = Ok c' -> untouched c c'.
Proof.
  unfold compilePercentile; intro H; outcome_cases; eapply compileSymbol_untouched; eassumption.
Qed.

Lemma compileSample_untouched c args c' :
  compileSample c args = Ok c' -> untouched c c'.
Proof.
  unfold compileSample; intro H; outcome_cases; eapply compileSymbol_untouched; eassumption.
Qed.

Lemma compileIntegral_untouched c args c' :
  compileIntegral c args = Ok c' -> untouched c c'.
Proof.
  unfold compileIntegral; intro H.
  destruct (_ || _); [discriminate |].
  apply bind_Ok in H; destruct H as [u [_ H]].
  apply compileSymbol_untouched in H.
  eapply untouched_trans; [apply untouched_set_OnlySelectors | exact H].
Qed.

Section NestedCallsFollow.

Variable rec : receiver -> influxql.Expr -> outcome receiver.

Lemma callOrSymbol_follows c name e1 e2 a c' :
  follows rec a ->
  callOrSymbol rec (on_global (set_OnlySelectors false) c) name e1 e2 a = Ok c' ->
  FunctionCalls (global c') =
    FunctionCalls (global c) ++ match a with influxql.Call _ _ => recordedCalls a | _ => [] end /\
  Fields (global c') =
    Fields (global c) ++ match a with influxql.Call _ _ => addedFields (global c) a | _ => [] end.
Proof.
  unfold callOrSymbol; intros F H.
  assert (U : untouched c (on_global (set_OnlySelectors false) c))
    by apply untouched_set_OnlySelectors.
  assert (T : HasTarget (global (on_global (set_OnlySelectors false) c)) = HasTarget (global c))
    by (simpl; destruct (global c); reflexivity).
  destruct a as [| | fname fargs | | | | | | | | | | | | |];
    try (destruct (query.IsZero _); cbn [negb] in H; [| discriminate];
         apply compileSymbol_untouched in H;
         destruct (untouched_trans _ _ _ U H) as [A B];
         rewrite A, B; simpl; rewrite !app_nil_r; split; reflexivity).
  destruct (query.IsZero _); [discriminate |].
  destruct (F _ _ H) as [A B]. destruct U as [U1 U2].
  unfold addedFields in *. rewrite T in B. rewrite A, B, U1, U2. auto.
Qed.

Lemma compileDerivative_follows c a rest b c' :
  follows rec a -> compileDerivative rec c (a :: rest) b = Ok c' ->
  FunctionCalls (global c') =
    FunctionCalls (global c) ++ match a with influxql.Call _ _ => recordedCalls a | _ => [] end /\
  Fields (global c') =
    Fields (global c) ++ match a with influxql.Call _ _ => addedFields (global c) a | _ => [] end.
Proof.
  unfold compileDerivative; intros F H.
  destruct rest as [| a1 [| a2 rest]]; try discriminate.
  - eapply callOrSymbol_follows; eassumption.
  - apply bind_Ok in H; destruct H as [u [_ H]]. eapply callOrSymbol_follows; eassumption.
Qed.

Lemma compileElapsed_follows c a rest c' :
  follows rec a -> compileElapsed rec c (a :: rest) = Ok c' ->
  FunctionCalls (global c') =
    FunctionCalls (global c) ++ match a with influxql.Call _ _ => recordedCalls a | _ => [] end /\
  Fields (global c') =
    Fields (global c) ++ match a with influxql.Call _ _ => addedFields (global c) a | _ => [] end.
Proof.
  unfold compileElapsed; intros F H.
  destruct rest as [| a1 [| a2 rest]]; try discriminate.
  - eapply callOrSymbol_follows; eassumption.
  - apply bind_Ok in H; destruct H as [u [_ H]]. eapply callOrSymbol_follows; eassumption.
Qed.

Lemma compileDifference_follows c a rest b c' :
  follows rec a -> compileDifference rec c (a :: rest) b = Ok c' ->
  FunctionCalls (global c') =
    FunctionCalls (global c) ++ match a with influxql.Call _ _ => recordedCalls a | _ => [] end /\
  Fields (global c') =
    Fields (global c) ++ match a with influxql.Call _ _ => addedFields (global c) a | _ => [] end.
Proof.
  unfold compileDifference; intros F H.
  destruct rest as [| a1 rest]; try discriminate.
  eapply callOrSymbol_follows; eassumption.
Qed.

Lemma compileCumulativeSum_follows c a rest c' :
  follows rec a -> compileCumulativeSum rec c (a :: rest) = Ok c' ->
  FunctionCalls (global c') =
    FunctionCalls (global c) ++ match a with influxql.Call _ _ => recordedCalls a | _ => [] end /\
  Fields (global c') =
    Fields (global c) ++ match a with influxql.Call _ _ => addedFields (global c) a | _ => [] end.
Proof.
  unfold compileCumulativeSum; intros F H.
  destruct rest as [| a1 rest]; try discriminate.
  eapply callOrSymbol_follows; eassumption.
Qed.

Lemma compileMovingAverage_follows c a rest c' :
  follows rec a -> compileMovingAverage rec c (a :: rest) = Ok c' ->
  FunctionCalls (global c') =
    FunctionCalls (global c) ++ match a with influxql.Call _ _ => recordedCalls a | _ => [] end /\
  Fields (global c') =
    Fields (global c) ++ match a with influxql.Call _ _ => addedFields (global c) a | _ => [] end.
Proof.
  unfold compileMovingAverage; intros F H.
  destruct rest as [| a1 [| a2 rest]]; try discriminate.
  destruct a1; try discriminate.
  destruct (_ <=? 1); [discriminate |].
  eapply callOrSymbol_follows; eassumption.
Qed.

Lemma compileHoltWinters_follows c a rest b c' :
  follows rec a -> compileHoltWinters rec c (a :: rest) b = Ok c' ->
  FunctionCalls (global c') =
    FunctionCalls (global c) ++ match a with influxql.Call _ _ => recordedCalls a | _ => [] end /\
  Fields (global c') =
    Fields (global c) ++ match a with influxql.Call _ _ => addedFields (global c) a | _ => [] end.
Proof.
  unfold compileHoltWinters; intros F H.
  destruct rest as [| a1 [| a2 [| a3 rest]]]; try discriminate.
  destruct a1; try discriminate. destruct (_ <=? 0); [discriminate |].
  destruct a2; try discriminate. destruct (_ <? 0); [discriminate |].
  destruct a as [| | fname fargs | | | | | | | | | | | | |]; try discriminate.
  destruct (query.IsZero _); [discriminate |].
  destruct (F _ _ H) as [A B].
  assert (T : HasTarget (global (on_global (set_OnlySelectors false) c)) = HasTarget (global c))
    by (simpl; destruct (global c); reflexivity).
  destruct (untouched_set_OnlySelectors false c) as [U1 U2].
  unfold addedFields in *. rewrite T in B. rewrite A, B, U1, U2. auto.
Qed.

End NestedCallsFollow.

Lemma compileTopBottomTags_untouched_calls name tags : forall c c',
  compileTopBottomTags c name tags = Ok c' ->
  FunctionCalls (global c') = FunctionCalls (global c).
Proof.
  induction tags as [| v rest IH]; intros c c' E; simpl in E.
  - now inversion E.
  - destruct v; try discriminate.
    destruct (negb (HasTarget (global c))).
    + rewrite (IH _ _ E). simpl. destruct (global c); reflexivity.
    + apply (IH _ _ E).
Qed.

(** What top() and bottom() leave in the statement. *)
Lemma compileTopBottom_fields c name args c' :
  compileTopBottom c name args = Ok c' ->
  TopBottomFunction (global c') = name /\
  FunctionCalls (global c') = FunctionCalls (global c) /\
  Fields (global c') =
    Fields (global c) ++
    (if HasTarget (global c) then [] else map tagField (removelast (tl args))) /\
  (HasTarget (global c) = false -> removelast (tl args) <> [] ->
   HasAuxiliaryFields (global c') = true) /\
  (HasTarget (global c) = true ->
   HasAuxiliaryFields (global c') = HasAuxiliaryFields (global c)).
Proof.
  intro E.
  destruct (compileTopBottom_arguments _ _ _ _ E) as [v [ty [tags [n [A [Tags _]]]]]].
  unfold compileTopBottom in E.
  destruct (negb _); [discriminate |].
  destruct (len args <? 2); [discriminate |].
  destruct (last args influxql.NilLiteral); try discriminate.
  destruct (_ <=? 0); [discriminate |].
  destruct (_ && _); [discriminate |].
  destruct (hd influxql.NilLiteral args); try discriminate.
  apply bind_Ok in E; destruct E as [c1 [E1 E]].
  inversion E; subst c'; clear E.
  assert (Step : compileTopBottomTags c name (removelast (tl args)) = Ok c1).
  { destruct (2 <? len args) eqn:More; [exact E1 |].
    apply Z.ltb_ge in More. inversion E1; subst c1.
    rewrite A in More |- *. destruct tags as [| t0 tags']; [reflexivity |].
    unfold len in More. simpl in More. rewrite length_app in More. simpl in More. lia. }
  destruct (compileTopBottomTags_fields _ _ _ _ Step) as [_ [Same Added]].
  pose proof (compileTopBottomTags_untouched_calls _ _ _ _ Step) as Calls.
  split; [simpl; destruct (global c1); reflexivity |].
  split; [simpl; destruct (global c1); simpl in *; exact Calls |].
  destruct (HasTarget (global c)) eqn:T.
  - rewrite <- (Same eq_refl). simpl. rewrite app_nil_r.
    split; [destruct (global c1); reflexivity |].
    split; [intro Q; discriminate | intros _; destruct (global c1); reflexivity].
  - destruct (Added eq_refl) as [F [Aux _]].
    split; [simpl; destruct (global c1); simpl in *; exact F |].
    split; [| intro Q; discriminate].
    intros _ N. specialize (Aux N). simpl. destruct (global c1); simpl in *; exact Aux.
Qed.

(** X20. top() and bottom() turn the arguments between the first and the
    last into compiled fields of the statement, one for each in their order,
    and mark the statement as needing auxiliary fields, unless the statement
    writes its results into a target: then these arguments leave no trace.
    In both cases the statement remembers the name of the function. *)
Theorem top_bottom_tags_become_fields (c : receiver) (name : string)
    (args : list influxql.Expr) (c' : receiver) :
  compileTopBottom c name args = Ok c' ->
  TopBottomFunction (global c') = name /\
  (HasTarget (global c) = false ->
   Fields (global c') = Fields (global c) ++ map tagField (removelast (tl args)) /\
   (removelast (tl args) <> [] -> HasAuxiliaryFields (global c') = true)) /\
  (HasTarget (global c) = true ->
   Fields (global c') = Fields (global c) /\
   HasAuxiliaryFields (global c') = HasAuxiliaryFields (global c)).
Proof.
  intro E. destruct (compileTopBottom_fields _ _ _ _ E) as [N [_ [F [Aux Same]]]].
  split; [exact N |]. split; intro T; rewrite T in F.
  - split; [exact F | exact (Aux T)].
  - rewrite app_nil_r in F. split; [exact F | exact (Same T)].
Qed.

Lemma recordedCalls_call name args :
  recordedCalls (influxql.Call name args) =
  influxql.Call name args ::
    (if nests name then
       match args with
       | influxql.Call _ _ as arg0 :: _ => recordedCalls arg0
       | _ => []
       end
     else []).
Proof. reflexivity. Qed.

Lemma tagArguments_call name args :
  tagArguments (influxql.Call name args) =
  if string_in name ["top"; "bottom"] then removelast (tl args)
  else if nests name then
    match args with
    | influxql.Call _ _ as arg0 :: _ => tagArguments arg0
    | _ => []
    end
  else [].
Proof. reflexivity. Qed.

(** A call is recorded first; what its validator adds follows the syntax if
    the compilation of its arguments does. *)
Lemma compileExpr_call_follows_under name args :
  Forall (follows compileExpr) args -> follows compileExpr (influxql.Call name args).
Proof.
  intros F c c' H. rewrite compileExpr_dispatch in H. cbv zeta in H.
  set (e := influxql.Call name args) in *.
  set (c1 := on_global _ c) in H.
  assert (C1 : FunctionCalls (global c1) = FunctionCalls (global c) ++ [e])
    by (unfold c1; simpl; destruct (global c); reflexivity).
  assert (F1 : Fields (global c1) = Fields (global c))
    by (unfold c1; simpl; destruct (global c); reflexivity).
  assert (T1 : HasTarget (global c1) = HasTarget (global c))
    by (unfold c1; simpl; destruct (global c); reflexivity).
  clearbody c1.
  assert (Plain : untouched c1 c' ->
                  nests name = false -> string_in name ["top"; "bottom"] = false ->
                  FunctionCalls (global c') = FunctionCalls (global c) ++ recordedCalls e /\
                  Fields (global c') = Fields (global c) ++ addedFields (global c) e).
  { intros [U1 U2] N TB. unfold e, addedFields.
    rewrite recordedCalls_call, tagArguments_call, N, TB.
    rewrite U1, U2, C1, F1. destruct (HasTarget (global c)); simpl; rewrite app_nil_r; auto. }
  assert (Nested : forall a rest,
            args = a :: rest ->
            (FunctionCalls (global c') =
               FunctionCalls (global c1) ++
               match a with influxql.Call _ _ => recordedCalls a | _ => [] end /\
             Fields (global c') =
               Fields (global c1) ++
               match a with influxql.Call _ _ => addedFields (global c1) a | _ => [] end) ->
            nests name = true -> string_in name ["top"; "bottom"] = false ->
            FunctionCalls (global c') = FunctionCalls (global c) ++ recordedCalls e /\
            Fields (global c') = Fields (global c) ++ addedFields (global c) e).
  { intros a rest -> [A B] N TB. unfold e, addedFields in *.
    rewrite recordedCalls_call, tagArguments_call, N, TB.
    rewrite A, B, C1, F1, T1, <- app_assoc.
    destruct a; destruct (HasTarget (global c)); simpl; auto. }
  destruct (String.eqb name "percentile") eqn:N1.
  { apply String.eqb_eq in N1; subst name.
    apply Plain; [eapply compilePercentile_untouched; eassumption | reflexivity | reflexivity]. }
  destruct (String.eqb name "sample") eqn:N2.
  { apply String.eqb_eq in N2; subst name.
    apply Plain; [eapply compileSample_untouched; eassumption | reflexivity | reflexivity]. }
  destruct (String.eqb name "distinct") eqn:N3.
  { apply String.eqb_eq in N3; subst name.
    apply Plain; [eapply compileDistinct_untouched; eassumption | reflexivity | reflexivity]. }
  destruct (string_in name ["top"; "bottom"]) eqn:N4.
  { destruct (compileTopBottom_fields _ _ _ _ H) as [_ [A [B _]]].
    assert (N : nests name = false).
    { apply string_in_In in N4. simpl in N4. destruct N4 as [<- | [<- | []]]; reflexivity. }
    unfold e, addedFields. rewrite recordedCalls_call, tagArguments_call, N, N4.
    rewrite A, B, C1, F1, T1. auto. }
  assert (Args : forall P : Prop,
            (forall a rest, args = a :: rest -> follows compileExpr a -> P) ->
            (args = [] -> P) -> P).
  { intros P Some_ None_. destruct args as [| a rest]; [apply None_; reflexivity |].
    inversion F; subst. eapply Some_; [reflexivity | assumption]. }
  destruct (string_in name ["derivative"; "non_negative_derivative"]) eqn:N5.
  { apply string_in_In in N5.
    assert (N : nests name = true) by (simpl in N5; destruct N5 as [<- | [<- | []]]; reflexivity).
    apply Args; [intros a rest Q Fa | intro Q; subst; discriminate H].
    apply (Nested a rest Q); [| exact N | reflexivity]. subst args.
    eapply compileDerivative_follows; eassumption. }
  destruct (string_in name ["difference"; "non_negative_difference"]) eqn:N6.
  { apply string_in_In in N6.
    assert (N : nests name = true) by (simpl in N6; destruct N6 as [<- | [<- | []]]; reflexivity).
    apply Args; [intros a rest Q Fa | intro Q; subst; discriminate H].
    apply (Nested a rest Q); [| exact N | reflexivity]. subst args.
    eapply compileDifference_follows; eassumption. }
  destruct (String.eqb name "cumulative_sum") eqn:N7.
  { apply String.eqb_eq in N7; subst name.
    apply Args; [intros a rest Q Fa | intro Q; subst; discriminate H].
    apply (Nested a rest Q); [| reflexivity | reflexivity]. subst args.
    eapply compileCumulativeSum_follows; eassumption. }
  destruct (String.eqb name "moving_average") eqn:N8.
  { apply String.eqb_eq in N8; subst name.
    apply Args; [intros a rest Q Fa | intro Q; subst; discriminate H].
    apply (Nested a rest Q); [| reflexivity | reflexivity]. subst args.
    eapply compileMovingAverage_follows; eassumption. }
  destruct (String.eqb name "elapsed") eqn:N9.
  { apply String.eqb_eq in N9; subst name.
    apply Args; [intros a rest Q Fa | intro Q; subst; discriminate H].
    apply (Nested a rest Q); [| reflexivity | reflexivity]. subst args.
    eapply compileElapsed_follows; eassumption. }
  destruct (String.eqb name "integral") eqn:N10.
  { apply String.eqb_eq in N10; subst name.
    apply Plain; [eapply compileIntegral_untouched; eassumption | reflexivity | reflexivity]. }
  destruct (string_in name ["holt_winters"; "holt_winters_with_fit"]) eqn:N11.
  { apply string_in_In in N11.
    assert (N : nests name = true) by (simpl in N11; destruct N11 as [<- | [<- | []]]; reflexivity).
    apply Args; [intros a rest Q Fa | intro Q; subst; discriminate H].
    apply (Nested a rest Q); [| exact N | reflexivity]. subst args.
    eapply compileHoltWinters_follows; eassumption. }
  apply Plain; [eapply compileFunction_untouched; eassumption | | reflexivity].
  unfold nests. destruct (string_in name (transformNames ++ holtWintersNames)) eqn:S;
    [| reflexivity].
  apply string_in_In in S. simpl in S.
  repeat (destruct S as [<- | S]; [discriminate |]). contradiction.
Qed.

Lemma compileExpr_follows (e : influxql.Expr) : follows compileExpr e.
Proof.
  induction e as [e L | op lhs rhs IHl IHr | e IHe | name args F] using Expr_args_ind.
  - intros c c' H.
    destruct e; simpl in L; try contradiction; simpl in H; outcome_cases;
      unfold addedFields; simpl; destruct (global c); simpl;
      repeat match goal with
        | |- context [if ?b then _ else _] => destruct b
        end;
      rewrite ?app_nil_r; auto.
  - intros c c' H. simpl in H. unfold addedFields. simpl.
    destruct (influxql.isLiteral lhs); [destruct (influxql.isLiteral rhs) |
      destruct (influxql.isLiteral rhs)]; try discriminate.
    + apply IHr in H. exact H.
    + apply IHl in H. exact H.
    + apply bind_Ok in H; destruct H as [c2 [H1 H2]].
      pose proof (kept_HasTarget _ _ (compileExpr_kept _ _ _ H1)) as T. simpl in T.
      apply IHl in H1. apply IHr in H2. destruct H1 as [A1 B1]. destruct H2 as [A2 B2].
      unfold addedFields in *. simpl in *. rewrite T in B2.
      rewrite A2, B2, A1, B1, <- !app_assoc.
      destruct (HasTarget (global c)); [auto |]. rewrite map_app. auto.
  - intros c c' H. simpl in H. apply IHe in H. exact H.
  - apply compileExpr_call_follows_under. exact F.
Qed.

Lemma HasTarget_set_Fields v g : HasTarget (set_Fields v g) = HasTarget g.
Proof. destruct g; reflexivity. Qed.

Lemma set_nth_middle {A : Type} (x y : A) (l1 l2 : list A) :
  set_nth (List.length l1) x (l1 ++ y :: l2) = l1 ++ x :: l2.
Proof. induction l1 as [| a l1 IH]; simpl; [reflexivity | now rewrite IH]. Qed.

Lemma isTimeRef_records_nothing e : isTimeRef e = true -> recordedCalls e = [].
Proof. destruct e; simpl; intro T; try discriminate; reflexivity. Qed.

(** What compiling one field adds to the recorded calls and to the compiled
    fields. *)
Lemma compileField_follows c f c' :
  compileField c f = Ok c' ->
  FunctionCalls c' = FunctionCalls c ++ recordedCalls (influxql.Expr_ f) /\
  map Field (Fields c') = map Field (Fields c) ++ fieldsOf (HasTarget c) f /\
  HasTarget c' = HasTarget c.
Proof.
  intro E. unfold fieldsOf. destruct (isTimeRef (influxql.Expr_ f)) eqn:T.
  - rewrite (compileField_time _ _ T) in E. inversion E; subst; clear E.
    rewrite (isTimeRef_records_nothing _ T), !app_nil_r.
    destruct (negb _); destruct c; simpl; auto.
  - destruct (compileField_other _ _ _ T E) as [r [X [-> _]]].
    pose proof (lowered_Field _ _ (compileExpr_lowered _ _ _ X)) as Same. simpl in Same.
    pose proof (kept_HasTarget _ _ (compileExpr_kept _ _ _ X)) as Target. simpl in Target.
    destruct (compileExpr_follows _ _ _ X) as [Calls Added]. simpl in Calls, Added.
    rewrite FunctionCalls_set_Fields in Calls. rewrite Fields_set_Fields in Added.
    unfold addedFields in Added. rewrite HasTarget_set_Fields in Added, Target.
    rewrite FunctionCalls_set_Fields, Fields_set_Fields, HasTarget_set_Fields.
    split; [exact Calls |]. split; [| exact Target].
    rewrite Added, <- app_assoc. simpl. rewrite set_nth_middle.
    rewrite map_app. simpl. rewrite Same.
    destruct (HasTarget c); [reflexivity |]. rewrite map_map. reflexivity.
Qed.

Lemma compileFieldList_follows fs : forall c c',
  compileFieldList c fs = Ok c' ->
  FunctionCalls c' =
    FunctionCalls c ++ flat_map (fun f => recordedCalls (influxql.Expr_ f)) fs /\
  map Field (Fields c') = map Field (Fields c) ++ flat_map (fieldsOf (HasTarget c)) fs.
Proof.
  induction fs as [| f rest IH]; intros c c' E; simpl in E.
  - inversion E; subst. simpl. rewrite !app_nil_r. auto.
  - apply bind_Ok in E; destruct E as [c1 [E1 E]].
    destruct (compileField_follows _ _ _ E1) as [C1 [F1 T1]].
    destruct (IH _ _ E) as [C F].
    simpl. rewrite C, F, C1, F1, T1, <- !app_assoc. auto.
Qed.

(** X21. The function calls that the compiler records follow the syntax of
    the selected expressions: each call in the order in which it is met, the
    aggregate that stands as first argument of a transformation after it,
    the DISTINCT syntax as its call form, the calls of both operands of a
    binary expression unless an operand is a literal, and nothing for the
    distinct() inside count(). This holds of every expression that compiles
    and of the fields of every statement whose fields compile. *)
Theorem recorded_calls_follow_the_syntax :
  (forall e c c',
     compileExpr c e = Ok c' ->
     FunctionCalls (global c') = FunctionCalls (global c) ++ recordedCalls e) /\
  (forall c s c',
     compileFields c s = Ok c' ->
     FunctionCalls c' =
       FunctionCalls c ++ flat_map (fun f => recordedCalls (influxql.Expr_ f)) (influxql.Fields s)).
Proof.
  split.
  - intros e c c' E. exact (proj1 (compileExpr_follows e c c' E)).
  - intros c s c' E. unfold compileFields in E.
    rewrite (proj1 (compileFieldList_follows _ _ _ E)), FunctionCalls_set_Fields. reflexivity.
Qed.

(** X22. The compiled fields of a statement are its selected fields in
    their order, without the selections of the time column, each call of
    top() or bottom() followed by a field for each of its tag arguments;
    when the statement writes into a target the tag arguments add no field.
    The compiled fields that the state held before are dropped. *)
Theorem compiled_fields_follow_the_selected_fields (c : compiledStatement)
    (s : influxql.SelectStatement) (c' : compiledStatement) :
  compileFields c s = Ok c' ->
  map Field (Fields c') = flat_map (fieldsOf (HasTarget c)) (influxql.Fields s).
Proof.
  intro E. unfold compileFields in E.
  rewrite (proj2 (compileFieldList_follows _ _ _ E)), Fields_set_Fields, HasTarget_set_Fields.
  reflexivity.
Qed.

(** * The further properties on concrete statements *)

(** avg(value) is no function of the compiler. *)
Lemma unknown_function_is_undefined_witness :
  compileExpr (firstField (influxql.Call "avg" [ref "value"]) 0) (influxql.Call "avg" [ref "value"]) =
  Err (fmt_Errorf "undefined function %s()" [ArgString "avg"]).
Proof.
  apply (proj1 unknown_function_is_undefined).
  intro I. simpl in I.
  repeat (destruct I as [I | I]; [discriminate I |]). exact I.
Defined.

(** value * max( * ) does not compile. *)
Lemma binary_expression_takes_no_wildcard_witness :
  fails (compileExpr
           (firstField (influxql.BinaryExpr 0 (ref "value") (influxql.Call "max" [influxql.Wildcard 0])) 0)
           (influxql.BinaryExpr 0 (ref "value") (influxql.Call "max" [influxql.Wildcard 0]))).
Proof.
  apply binary_expression_takes_no_wildcard. right. reflexivity.
Defined.

(** SELECT max(value), host FROM cpu compiles: one call, and a selector. *)
Lemma auxiliary_fields_need_one_selector_witness :
  @compile plain (@newCompiler plain {| Now := 0 |}) maxAndHost = Ok maxAndHostCompiled /\
  (List.length (callFields maxAndHost) <= 1)%nat /\
  ~ selectsAggregate (influxql.Fields maxAndHost).
Proof.
  assert (E : @compile plain (@newCompiler plain {| Now := 0 |}) maxAndHost = Ok maxAndHostCompiled)
    by (vm_compute; reflexivity).
  split; [exact E |].
  apply (@auxiliary_fields_need_one_selector plain (@newCompiler plain {| Now := 0 |}) maxAndHost
           maxAndHostCompiled); [| exact E].
  exists (field (ref "host")). split; [right; left; reflexivity | reflexivity].
Defined.

(** SELECT value FROM cpu GROUP BY time(10m) is refused: it groups by time
    and selects no function. *)
Lemma raw_query_takes_no_grouping_witness :
  fails (@Compile plain rawGrouped {| Now := 0 |}) /\
  @Compile plain rawGrouped {| Now := 0 |} =
  Err (errors_New "GROUP BY requires at least one aggregate function").
Proof.
  assert (N : selectsNoCall rawGrouped) by (intros f [<- | []]; reflexivity).
  assert (D : declaresInterval rawGrouped).
  { exists (groupBy (timeDimension (10 * minute))), [influxql.DurationLiteral (10 * minute)],
      (10 * minute).
    split; [left; reflexivity |]. split; [reflexivity |]. split; [reflexivity | discriminate]. }
  destruct (@raw_query_takes_no_grouping plain) as [Refused Named].
  split.
  - apply Refused; [exact N | right; right; exact D].
  - refine (proj2 (proj2 (Named rawGrouped {| Now := 0 |} rawGroupedPreprocessed rawGroupedFields
                            N _ _ _)) _ _ D).
    + vm_compute; reflexivity.
    + vm_compute; reflexivity.
    + discriminate.
    + discriminate.
    + discriminate.
Defined.

(** SELECT mean(value) FROM cpu GROUP BY time(10m): the compiled statement
    ends at the instant that preprocessing has resolved. *)
Lemma Compile_keeps_what_preprocess_recorded_witness :
  @Compile plain tenMinuteMeans {| Now := 0 |} = Ok meansUntilNow /\
  exists p,
    @preprocess plain (@newCompiler plain {| Now := 0 |}) tenMinuteMeans = Ok p /\
    TimeRange meansUntilNow = TimeRange p /\ Interval meansUntilNow = Interval p.
Proof.
  assert (E : @Compile plain tenMinuteMeans {| Now := 0 |} = Ok meansUntilNow)
    by (vm_compute; reflexivity).
  split; [exact E |].
  destruct (@Compile_keeps_what_preprocess_recorded plain tenMinuteMeans {| Now := 0 |}
              meansUntilNow E) as [p [c0 [P [_ [S _]]]]].
  exists p. split; [exact P |].
  split; [exact (same_TimeRange _ _ S) | exact (same_Interval _ _ S)].
Defined.

(** Under SELECT max(mean) FROM (SELECT mean(value) FROM cpu) GROUP BY
    time(10m) the subquery takes the ten minutes of its parent. *)
Lemma subquery_inherits_interval_witness :
  @subquery plain outerPlain means = Ok innerMeans /\
  Interval innerMeans = Interval outerPlain /\ InheritedInterval innerMeans = true.
Proof.
  assert (E : @subquery plain outerPlain means = Ok innerMeans) by (vm_compute; reflexivity).
  split; [exact E |].
  apply (proj1 (proj2 (@subquery_inherits_interval plain outerPlain means innerMeans
                         (or_intror E)))).
  - exact means_declares_nothing.
  - reflexivity.
Defined.

(** A subquery ordered by descending time under a parent in ascending order
    is refused. *)
Lemma subquery_follows_parent_order_witness :
  @subquery plain outerPlain meansDescending =
  Err (errors_New "subqueries must be ordered in the same direction as the query itself").
Proof.
  apply (proj2 (@subquery_follows_parent_order plain outerPlain meansDescending)
           meansDescendingPreprocessed).
  - vm_compute; reflexivity.
  - discriminate.
  - vm_compute. discriminate.
Defined.

(** Compiled without a given instant, SELECT mean(value) FROM cpu GROUP BY
    time(10m) takes the reading of the clock, and its subqueries would take
    it from there. *)
Lemma now_is_fixed_once_witness :
  Now (Options meansUntilNow) = newYear /\
  Options innerMeans = Options outerPlain.
Proof.
  destruct (@now_is_fixed_once plain) as [Top Below].
  split.
  - apply (Top tenMinuteMeans {| Now := 0 |} meansUntilNow). vm_compute; reflexivity.
  - apply (Below outerPlain means innerMeans); [reflexivity |].
    right. vm_compute; reflexivity.
Defined.

(** The statement of Example 1 under a limit of 100 buckets is prepared with
    its own time range, and its six buckets are within the limit. *)
Lemma prepared_statement_carries_the_compiled_range_witness :
  StartTime (@ps_opt sourcesPlanner meansLastHourPrepared) =
    influxql.MinTimeOf (TimeRange meansLastHour) /\
  EndTime (@ps_opt sourcesPlanner meansLastHourPrepared) =
    influxql.MaxTimeOf (TimeRange meansLastHour) /\
  @bucketCount sourcesPlanner (@ps_opt sourcesPlanner meansLastHourPrepared) (10 * minute) <= 100.
Proof.
  assert (E : @Prepare sourcesPlanner meansLastHour sourcesMapper {| MaxBucketsN := 100 |} =
              (Ok meansLastHourPrepared,
               [@MapShardsCalled sourcesPlanner cpu (TimeRange meansLastHour) {| MaxBucketsN := 100 |}]))
    by (vm_compute; reflexivity).
  destruct (@prepared_statement_carries_the_compiled_range sourcesPlanner meansLastHour sourcesMapper
              {| MaxBucketsN := 100 |} meansLastHourPrepared _ E)
    as [S [T [_ [_ [_ Within]]]]].
  split; [exact S |]. split; [exact T |].
  apply Within.
  - reflexivity.
  - reflexivity.
  - vm_compute; reflexivity.
  - vm_compute; reflexivity.
  - reflexivity.
Defined.

(** Without a bucket limit SELECT mean(value) FROM cpu GROUP BY time(10m) is
    mapped over its whole time range and prepared. *)
Lemma Prepare_without_bucket_limit_witness :
  @shardTimeRange sourcesPlanner meansUntilNow (influxql.withTimeAlias "time" tenMinuteMeans)
    {| MaxBucketsN := 0 |} = Ok (TimeRange meansUntilNow) /\
  snd (@Prepare sourcesPlanner meansUntilNow sourcesMapper {| MaxBucketsN := 0 |}) =
  [@MapShardsCalled sourcesPlanner cpu (TimeRange meansUntilNow) {| MaxBucketsN := 0 |}].
Proof.
  pose (s := influxql.withTimeAlias "time" tenMinuteMeans).
  pose (opt0 := {| opt_Interval := {| query.Duration := 10 * minute; query.Offset := 0 |};
                   opt_Location := None; StartTime := 0; EndTime := 0; opt_Ascending := false |}).
  assert (S : stmt meansUntilNow = Some s) by (vm_compute; reflexivity).
  assert (N : MaxBucketsN {| MaxBucketsN := 0 |} <= 0) by (vm_compute; discriminate).
  destruct (@Prepare_without_bucket_limit sourcesPlanner meansUntilNow sourcesMapper
              {| MaxBucketsN := 0 |} s s cpu opt0 S (or_introl N) eq_refl eq_refl eq_refl)
    as [R P].
  split; [exact R |]. rewrite P. reflexivity.
Defined.

(** Under a limit of 100 buckets the shards of SELECT mean(value) FROM cpu
    GROUP BY time(10m) are mapped over a range that ends where the
    statement's range ends. *)
Lemma shard_range_keeps_the_upper_bound_witness :
  @shardTimeRange sourcesPlanner meansUntilNow (influxql.withTimeAlias "time" tenMinuteMeans)
    {| MaxBucketsN := 100 |} =
    Ok {| influxql.Min := newYear - 1000 * minute; influxql.Max := newYear |} /\
  newYear = influxql.Max (TimeRange meansUntilNow).
Proof.
  assert (E : @shardTimeRange sourcesPlanner meansUntilNow
                (influxql.withTimeAlias "time" tenMinuteMeans) {| MaxBucketsN := 100 |} =
              Ok {| influxql.Min := newYear - 1000 * minute; influxql.Max := newYear |})
    by (vm_compute; reflexivity).
  split; [exact E |].
  exact (proj1 (@shard_range_keeps_the_upper_bound sourcesPlanner meansUntilNow
                  (influxql.withTimeAlias "time" tenMinuteMeans) {| MaxBucketsN := 100 |} _ E)).
Defined.

(** Example 5 of the specification, first half: under a limit of 100 buckets
    the lower bound is 99 intervals before the last window, which starts ten
    minutes before [newYear]. *)
Lemma shard_range_is_counted_back_from_the_last_window_witness :
  @shardTimeRange sourcesPlanner meansUntilNow (influxql.withTimeAlias "time" tenMinuteMeans)
    {| MaxBucketsN := 100 |} =
  Ok {| influxql.Min := time_Unix 0 ((1514764800 * 1000000000 - 10 * minute) - 10 * minute * (100 - 1));
        influxql.Max := influxql.Max (TimeRange meansUntilNow) |}.
Proof.
  pose proof (@shard_range_is_counted_back_from_the_last_window sourcesPlanner meansUntilNow
                (influxql.withTimeAlias "time" tenMinuteMeans) {| MaxBucketsN := 100 |}
                (10 * minute) 0) as Counted.
  cbv zeta in Counted.
  rewrite Counted.
  - vm_compute. reflexivity.
  - reflexivity.
  - reflexivity.
  - vm_compute; reflexivity.
  - vm_compute; reflexivity.
  - reflexivity.
  - reflexivity.
  - split; vm_compute; discriminate.
  - split; vm_compute; discriminate.
  - vm_compute; discriminate.
Defined.

(** GROUP BY time(10m, 25m) is an interval of ten minutes at an offset of
    five. *)
Lemma offset_lies_within_the_interval_witness :
  @Compile plain offsetMeans {| Now := 0 |} = Ok offsetMeansCompiled /\
  Interval offsetMeansCompiled =
    {| query.Duration := 10 * minute; query.Offset := 5 * minute |} /\
  offsetWithin (Interval offsetMeansCompiled).
Proof.
  assert (E : @Compile plain offsetMeans {| Now := 0 |} = Ok offsetMeansCompiled)
    by (vm_compute; reflexivity).
  split; [exact E |]. split; [vm_compute; reflexivity |].
  exact (proj1 (proj2 (@offset_lies_within_the_interval plain)) offsetMeans {| Now := 0 |}
           offsetMeansCompiled E).
Defined.

(** SELECT mean(value) FROM cpu GROUP BY host, time(0s, 1m) panics. *)
Lemma zero_interval_with_duration_offset_panics_witness :
  @Compile plain zeroInterval {| Now := 0 |} = Panic "runtime error: integer divide by zero".
Proof.
  apply (proj2 (@zero_interval_with_duration_offset_panics plain) zeroInterval {| Now := 0 |}
           [groupBy (ref "host")]
           (groupBy (influxql.Call "time" [influxql.DurationLiteral 0; influxql.DurationLiteral minute]))
           minute [] (None, {| influxql.Min := 0; influxql.Max := 0 |}));
    reflexivity.
Defined.

(** sample(value, 1) compiles: its window is above zero. *)
Lemma compiled_calls_have_checked_arguments_witness :
  exists c',
    compileExpr (firstField (influxql.Call "sample" [ref "value"; influxql.IntegerLiteral 1]) 0)
      (influxql.Call "sample" [ref "value"; influxql.IntegerLiteral 1]) = Ok c' /\
    exists a n, [ref "value"; influxql.IntegerLiteral 1] = [a; influxql.IntegerLiteral n] /\ 0 < n.
Proof.
  assert (E : exists c',
            compileExpr (firstField (influxql.Call "sample" [ref "value"; influxql.IntegerLiteral 1]) 0)
              (influxql.Call "sample" [ref "value"; influxql.IntegerLiteral 1]) = Ok c')
    by (eexists; vm_compute; reflexivity).
  destruct E as [c' E]. exists c'. split; [exact E |].
  exact (proj1 (proj2 (compiled_calls_have_checked_arguments _ _ _ _ E)) eq_refl).
Defined.

(** Under GROUP BY time(10m), moving_average(mean(value), 2) compiles. *)
Lemma nested_calls_need_an_interval_witness :
  exists c',
    compileExpr
      (groupedField (influxql.Call "moving_average"
                       [influxql.Call "mean" [ref "value"]; influxql.IntegerLiteral 2]))
      (influxql.Call "moving_average"
         [influxql.Call "mean" [ref "value"]; influxql.IntegerLiteral 2]) = Ok c' /\
    query.IsZero (Interval meansLastHourPreprocessed) = false.
Proof.
  assert (E : exists c',
            compileExpr
              (groupedField (influxql.Call "moving_average"
                               [influxql.Call "mean" [ref "value"]; influxql.IntegerLiteral 2]))
              (influxql.Call "moving_average"
                 [influxql.Call "mean" [ref "value"]; influxql.IntegerLiteral 2]) = Ok c')
    by (eexists; vm_compute; reflexivity).
  destruct E as [c' E]. exists c'. split; [exact E |].
  apply (proj1 (nested_calls_need_an_interval _ _ _ _ _ E)).
  simpl. tauto.
Defined.

(** top(value, host, 3) adds a compiled field for host. *)
Lemma top_bottom_tags_become_fields_witness :
  exists c',
    compileTopBottom
      (firstField (influxql.Call "top" [ref "value"; ref "host"; influxql.IntegerLiteral 3]) 0)
      "top" [ref "value"; ref "host"; influxql.IntegerLiteral 3] = Ok c' /\
    Fields (global c') = [tagField (ref "host")] /\
    HasAuxiliaryFields (global c') = true.
Proof.
  assert (E : exists c',
            compileTopBottom
              (firstField (influxql.Call "top" [ref "value"; ref "host"; influxql.IntegerLiteral 3]) 0)
              "top" [ref "value"; ref "host"; influxql.IntegerLiteral 3] = Ok c')
    by (eexists; vm_compute; reflexivity).
  destruct E as [c' E]. exists c'. split; [exact E |].
  destruct (proj1 (proj2 (top_bottom_tags_become_fields _ _ _ _ E)) eq_refl) as [F A].
  split; [exact F |]. apply A. discriminate.
Defined.

(** SELECT mean(value) FROM cpu and SELECT value, host FROM cpu compile. *)
Lemma plain_statements_compile_witness :
  (exists c, @Compile plain means {| Now := 0 |} = Ok c /\
             FunctionCalls c = [influxql.Call "mean" [ref "value"]]) /\
  (exists c, @Compile plain rawValues {| Now := 0 |} = Ok c /\ HasAuxiliaryFields c = true).
Proof.
  assert (M : forall s : influxql.SelectStatement, influxql.Sources s = cpu -> noSubqueries s).
  { intros s Q src I. rewrite Q in I. destruct I as [<- | []]. exists "cpu". reflexivity. }
  destruct (@plain_statements_compile plain) as [Call_ Raw].
  split.
  - destruct (Call_ means {| Now := 0 |} meansPreprocessed "mean" "value" influxql.Unknown ""
                ltac:(vm_compute; reflexivity) (M means eq_refl) eq_refl
                ltac:(simpl; tauto)) as [c [E [C _]]].
    exists c. split; assumption.
  - destruct (Raw rawValues {| Now := 0 |} rawValuesPreprocessed
                ltac:(vm_compute; reflexivity) (M rawValues eq_refl)
                ltac:(discriminate)
                ltac:(intros f [<- | [<- | []]]; reflexivity)
                ltac:(discriminate) ltac:(discriminate)
                ltac:(intros [d [args [v [[] _]]]])) as [c [E [_ A]]].
    exists c. split; assumption.
Defined.
(** Under GROUP BY time(10m), derivative(mean(value)) is recorded as two
    calls, the derivative first. *)
Lemma recorded_calls_follow_the_syntax_witness :
  compileFields meansLastHourPreprocessed derivativeOfMeans = Ok derivativeOfMeansFields /\
  FunctionCalls derivativeOfMeansFields =
    [influxql.Call "derivative" [influxql.Call "mean" [ref "value"]];
     influxql.Call "mean" [ref "value"]].
Proof.
  assert (E : compileFields meansLastHourPreprocessed derivativeOfMeans = Ok derivativeOfMeansFields)
    by (vm_compute; reflexivity).
  split; [exact E |].
  rewrite (proj2 recorded_calls_follow_the_syntax _ _ _ E). reflexivity.
Defined.

(** SELECT time, top(value, host, 3) FROM cpu compiles to a field for the
    call and a field for host. *)
Lemma compiled_fields_follow_the_selected_fields_witness :
  compileFields (@newCompiler plain {| Now := 0 |}) topHosts = Ok topHostsFields /\
  map Field (Fields topHostsFields) =
    [field (influxql.Call "top" [ref "value"; ref "host"; influxql.IntegerLiteral 3]);
     field (ref "host")].
Proof.
  assert (E : compileFields (@newCompiler plain {| Now := 0 |}) topHosts = Ok topHostsFields)
    by (vm_compute; reflexivity).
  split; [exact E |].
  rewrite (compiled_fields_follow_the_selected_fields _ _ _ E). reflexivity.
Defined.
